(** * Camera: a V4L2 capture loop displayed through SDL2

    Shallow embedding of [src/camera.c].  The program is a single
    translation unit working on one [struct state]; every interaction
    with the outside (the video device, the memory mapper, SDL) is a
    library call.  The embedding keeps the program text as state-passing
    code in a small monad, records every library call in a trace of
    [event]s, and takes the answers of the outside world from an
    [environment]: one answer per call site and per loop iteration, which
    is all a single-threaded deterministic program can observe. *)

From Stdlib Require Import ZArith List String Ascii Bool Lia.
Import ListNotations.
Open Scope string_scope.
Open Scope list_scope.
Open Scope Z_scope.

(** ** Machine integers *)

Module Int.

(** Conversion to [__u32] / [unsigned int]. *)
Definition to_u32 (z : Z) : Z := z mod 2 ^ 32.

(** Conversion to [int] (two's complement). *)
Definition to_i32 (z : Z) : Z := (z + 2 ^ 31) mod 2 ^ 32 - 2 ^ 31.

(** Conversion to [size_t] on an LP64 target. *)
Definition to_size (z : Z) : Z := z mod 2 ^ 64.

Definition INT_MIN : Z := - 2 ^ 31.
Definition LONG_MIN : Z := - 2 ^ 63.
Definition LONG_MAX : Z := 2 ^ 63 - 1.

(** [x / y] on [int]: [None] where C leaves the division undefined. *)
Definition div (x y : Z) : option Z :=
  if y =? 0 then None
  else if (x =? INT_MIN) && (y =? -1) then None
  else Some (Z.quot x y).

End Int.

(** ** Constants *)

Definition DEFAULT_SCREEN_WIDTH : Z := 800.
Definition DEFAULT_SCREEN_HEIGHT : Z := 600.
Definition DEFAULT_VIDEODEVICE : string := "/dev/video0".
Definition APP_NAME : string := "Camera".
Definition NUMBUFS : Z := 16.

(** Modelled from the spec: the headers [<linux/videodev2.h>],
    [<sys/mman.h>], [<stdlib.h>] and [<SDL2/SDL.h>] are included by
    [camera.c] but are not part of the repository.  The spec only names
    the video-capture and the streaming capability bits; the numbers
    below are the ones of the Linux UAPI and SDL2 headers.  No theorem
    depends on a particular value. *)
Definition V4L2_CAP_VIDEO_CAPTURE : Z := 1.
Definition V4L2_CAP_STREAMING : Z := 67108864.
Definition V4L2_BUF_TYPE_VIDEO_CAPTURE : Z := 1.
Definition V4L2_FIELD_ANY : Z := 0.
Definition V4L2_PIX_FMT_YUYV : Z := 1448695129.
Definition V4L2_MEMORY_MMAP : Z := 1.
Definition MAP_FAILED : Z := -1.
Definition NULL : Z := 0.
Definition SDL_WINDOW_FULLSCREEN_DESKTOP : Z := 4097.
Definition SDLK_q : Z := 113.
Definition sizeof_Uint16 : Z := 2.
Definition EXIT_SUCCESS : Z := 0.
Definition EXIT_FAILURE : Z := 1.

(** ** Data *)

(** The fields of [struct v4l2_format] that the program touches. *)
Record v4l2_format := mk_format {
  fmt_type : Z;
  pix_width : Z;
  pix_height : Z;
  pix_field : Z;
  pix_pixelformat : Z
}.

Record v4l2_requestbuffers := mk_requestbuffers {
  rb_count : Z;
  rb_type : Z;
  rb_memory : Z
}.

Record v4l2_buffer := mk_buffer {
  buf_index : Z;
  buf_type : Z;
  buf_memory : Z;
  buf_length : Z;
  buf_offset : Z
}.

(** [struct state].  Pointers are addresses in [Z], [NULL] is [0].  The
    array [mem[NUMBUFS]] is the function from a slot number to the
    pointer stored there; only the slots [0 .. NUMBUFS-1] exist, and an
    access whose index is not known to be one of them goes through
    [mem_at]. *)
Record state := mk_state {
  st_cap : Z;
  st_fmt : v4l2_format;
  st_rb : v4l2_requestbuffers;
  st_buf : v4l2_buffer;
  st_fd : Z;
  st_mem : Z -> Z;
  st_window : Z;
  st_renderer : Z;
  st_texture : Z;
  st_width : Z;
  st_height : Z;
  st_quit : Z
}.

(** [struct args].  [ar_videodevice] is a [char *]: [None] is the null
    pointer. *)
Record args := mk_args {
  ar_videodevice : option string;
  ar_width : Z;
  ar_height : Z;
  ar_fullscreen : Z
}.

Definition zero_format : v4l2_format := mk_format 0 0 0 0 0.
Definition zero_requestbuffers : v4l2_requestbuffers := mk_requestbuffers 0 0 0.
Definition zero_buffer : v4l2_buffer := mk_buffer 0 0 0 0 0.

(** [memset(s, 0, sizeof(struct state))]. *)
Definition zero_state : state :=
  mk_state 0 zero_format zero_requestbuffers zero_buffer 0
           (fun _ => NULL) NULL NULL NULL 0 0 0.

(** Field updates. *)
Definition set_cap (v : Z) (s : state) : state :=
  mk_state v (st_fmt s) (st_rb s) (st_buf s) (st_fd s) (st_mem s) (st_window s)
           (st_renderer s) (st_texture s) (st_width s) (st_height s) (st_quit s).
Definition set_fmt (v : v4l2_format) (s : state) : state :=
  mk_state (st_cap s) v (st_rb s) (st_buf s) (st_fd s) (st_mem s) (st_window s)
           (st_renderer s) (st_texture s) (st_width s) (st_height s) (st_quit s).
Definition set_rb (v : v4l2_requestbuffers) (s : state) : state :=
  mk_state (st_cap s) (st_fmt s) v (st_buf s) (st_fd s) (st_mem s) (st_window s)
           (st_renderer s) (st_texture s) (st_width s) (st_height s) (st_quit s).
Definition set_buf (v : v4l2_buffer) (s : state) : state :=
  mk_state (st_cap s) (st_fmt s) (st_rb s) v (st_fd s) (st_mem s) (st_window s)
           (st_renderer s) (st_texture s) (st_width s) (st_height s) (st_quit s).
Definition set_fd (v : Z) (s : state) : state :=
  mk_state (st_cap s) (st_fmt s) (st_rb s) (st_buf s) v (st_mem s) (st_window s)
           (st_renderer s) (st_texture s) (st_width s) (st_height s) (st_quit s).
Definition set_mem (v : Z -> Z) (s : state) : state :=
  mk_state (st_cap s) (st_fmt s) (st_rb s) (st_buf s) (st_fd s) v (st_window s)
           (st_renderer s) (st_texture s) (st_width s) (st_height s) (st_quit s).
Definition set_window (v : Z) (s : state) : state :=
  mk_state (st_cap s) (st_fmt s) (st_rb s) (st_buf s) (st_fd s) (st_mem s) v
           (st_renderer s) (st_texture s) (st_width s) (st_height s) (st_quit s).
Definition set_renderer (v : Z) (s : state) : state :=
  mk_state (st_cap s) (st_fmt s) (st_rb s) (st_buf s) (st_fd s) (st_mem s) (st_window s)
           v (st_texture s) (st_width s) (st_height s) (st_quit s).
Definition set_texture (v : Z) (s : state) : state :=
  mk_state (st_cap s) (st_fmt s) (st_rb s) (st_buf s) (st_fd s) (st_mem s) (st_window s)
           (st_renderer s) v (st_width s) (st_height s) (st_quit s).
Definition set_width (v : Z) (s : state) : state :=
  mk_state (st_cap s) (st_fmt s) (st_rb s) (st_buf s) (st_fd s) (st_mem s) (st_window s)
           (st_renderer s) (st_texture s) v (st_height s) (st_quit s).
Definition set_height (v : Z) (s : state) : state :=
  mk_state (st_cap s) (st_fmt s) (st_rb s) (st_buf s) (st_fd s) (st_mem s) (st_window s)
           (st_renderer s) (st_texture s) (st_width s) v (st_quit s).
Definition set_quit (v : Z) (s : state) : state :=
  mk_state (st_cap s) (st_fmt s) (st_rb s) (st_buf s) (st_fd s) (st_mem s) (st_window s)
           (st_renderer s) (st_texture s) (st_width s) (st_height s) v.

Definition set_videodevice (v : option string) (a : args) : args :=
  mk_args v (ar_width a) (ar_height a) (ar_fullscreen a).
Definition set_ar_width (v : Z) (a : args) : args :=
  mk_args (ar_videodevice a) v (ar_height a) (ar_fullscreen a).
Definition set_ar_height (v : Z) (a : args) : args :=
  mk_args (ar_videodevice a) (ar_width a) v (ar_fullscreen a).
Definition set_fullscreen (v : Z) (a : args) : args :=
  mk_args (ar_videodevice a) (ar_width a) (ar_height a) v.

(** [s->mem[i]] for an index that comes from outside: [None] where the
    index is not a slot of the array and the C access is undefined. *)
Definition mem_at (s : state) (i : Z) : option Z :=
  if (0 <=? i) && (i <? NUMBUFS) then Some (st_mem s i) else None.

(** [s->mem[i] = v]. *)
Definition mem_store (i : Z) (v : Z) (s : state) : state :=
  set_mem (fun j => if j =? i then v else st_mem s j) s.

(** ** Library calls and their trace *)

(** The SDL events the program distinguishes. *)
Inductive sdl_event :=
| SDL_QUIT
| SDL_KEYDOWN (sym : Z)
| SDL_OTHER.

Inductive event :=
(* command line *)
| Eargv_flag (i : nat) (s : string)            (* argv[i] at the head of the loop *)
| Eargv_value (i : nat) (v : option string)    (* argv[++i]; None is a null pointer *)
| Eargv_name (s : string)                      (* argv[0], handed to usage *)
| Eatoi (arg : option string)
| Estdout (msg : string)
| Estderr (msg : string)
| Eexit (code : Z)
(* device *)
| Eopen (path : option string) (ret : Z)
| Equerycap (fd ret : Z)
| Es_fmt (fd : Z) (arg : v4l2_format) (ret : Z) (granted : v4l2_format)
| Ereqbufs (fd : Z) (arg : v4l2_requestbuffers) (ret : Z) (granted : v4l2_requestbuffers)
| Equerybuf (fd : Z) (arg : v4l2_buffer) (ret : Z)
| Emmap (length fd offset ret : Z)
| Eqbuf (fd : Z) (arg : v4l2_buffer) (ret : Z)
| Estreamon (fd ret : Z)
| Edqbuf (fd ret : Z) (out : v4l2_buffer)
| Estreamoff (fd ret : Z)
| Emunmap (addr length : Z)
| Eclose (fd : Z)
(* display *)
| ESDL_Init (ret : Z)
| ESDL_CreateWindowAndRenderer (w h flags ret window renderer : Z)
| ESDL_SetHint
| ESDL_RenderSetLogicalSize (renderer w h : Z)
| ESDL_SetWindowTitle (window : Z)
| ESDL_CreateTexture (renderer w h ret : Z)
| ESDL_PollEvent (e : option sdl_event)
| ESDL_LockTexture (texture pitch : Z)
| Ememcpy (index : Z) (src : option Z) (n : Z)
| ESDL_UnlockTexture (texture : Z)
| ESDL_RenderClear
| ESDL_RenderCopy
| ESDL_RenderPresent
| ESDL_DestroyTexture (texture : Z)
| ESDL_DestroyRenderer (renderer : Z)
| ESDL_DestroyWindow (window : Z)
| ESDL_Quit.

Definition trace := list event.

(** The answers of the outside world.  An [ioctl] that is handed the
    address of a structure answers with its return value and with the
    content of the structure after the call. *)
Record environment := mk_environment {
  env_open : option string -> Z;
  env_querycap : Z * Z;
  env_s_fmt : v4l2_format -> Z * v4l2_format;
  env_reqbufs : v4l2_requestbuffers -> Z * v4l2_requestbuffers;
  env_querybuf : v4l2_buffer -> Z * v4l2_buffer;
  env_mmap : Z -> Z -> Z -> Z;                (* buffer number, length, offset *)
  env_qbuf_init : v4l2_buffer -> Z * v4l2_buffer;
  env_streamon : Z;
  env_sdl_init : Z;
  env_create_window_and_renderer : Z -> Z -> Z -> Z * Z * Z;  (* stat, window, renderer *)
  env_create_texture : Z -> Z -> Z;
  env_poll_events : nat -> list sdl_event;    (* events pending at a loop turn *)
  env_dqbuf : nat -> v4l2_buffer -> Z * v4l2_buffer;
  env_lock_texture : nat -> Z;                (* pitch *)
  env_qbuf : nat -> v4l2_buffer -> Z * v4l2_buffer;
  env_streamoff : Z
}.

(** ** The monad of a C function body

    A computation reads and writes a store [St], appends to the trace and
    either goes on with a value ([Next]) or leaves the function it
    belongs to with [return r] ([Return]). *)

Inductive outcome (R A : Type) :=
| Next (a : A)
| Return (r : R).
Arguments Next {R A} a.
Arguments Return {R A} r.

Definition M (St R A : Type) : Type := St -> outcome R A * St * trace.

Definition ret {St R A} (a : A) : M St R A := fun s => (Next a, s, []).

Definition bind {St R A B} (m : M St R A) (f : A -> M St R B) : M St R B :=
  fun s =>
    match m s with
    | (Next a, s1, t1) =>
        match f a s1 with
        | (o, s2, t2) => (o, s2, t1 ++ t2)
        end
    | (Return r, s1, t1) => (Return r, s1, t1)
    end.

Definition return_ {St R A} (r : R) : M St R A := fun s => (Return r, s, []).
Definition get {St R} : M St R St := fun s => (Next s, s, []).
Definition modify {St R} (f : St -> St) : M St R unit := fun s => (Next tt, f s, []).
Definition emit {St R} (e : event) : M St R unit := fun s => (Next tt, s, [e]).

Declare Scope c_scope.
Delimit Scope c_scope with c.
Notation "x <- c1 ;; c2" := (bind c1 (fun x => c2))
  (at level 61, c1 at next level, right associativity) : c_scope.
Notation "c1 ;; c2" := (bind c1 (fun _ => c2))
  (at level 61, right associativity) : c_scope.
Open Scope c_scope.

(** [if (c) { body }] without an else branch. *)
Definition when {St R} (c : bool) (body : M St R unit) : M St R unit :=
  if c then body else ret tt.

(** [for (int i = i0; i < i0 + n; i++) body(i)]. *)
Fixpoint for_loop {St R} (n : nat) (i : Z) (body : Z -> M St R unit) : M St R unit :=
  match n with
  | O => ret tt
  | S n' => body i ;; for_loop n' (i + 1) body
  end.

(** Running a function body: the value of a [return], or [dflt] when the
    body falls off its end. *)
Definition run {St R} (m : M St R unit) (dflt : R) (s : St) : R * St * trace :=
  match m s with
  | (Next _, s', t) => (dflt, s', t)
  | (Return r, s', t) => (r, s', t)
  end.

(** How a [void] function, or the whole process, ends. *)
Inductive ending :=
| Returned                     (* [return;] or the end of the body *)
| Exited (code : Z)            (* [exit(code)], or [return code] from [main] *)
| Undefined (what : string)    (* C gives the execution no meaning from here on *)
| Out_of_fuel.                 (* the model stopped unrolling a loop *)

(** A call: the callee's [return] ends the callee, not the caller. *)
Definition call {St R R' : Type} (body : M St R' unit) (dflt : R') : M St R R' :=
  fun s =>
    match body s with
    | (Next _, s', t) => (Next dflt, s', t)
    | (Return r, s', t) => (Next r, s', t)
    end.

(** A call of a [void] function; only an abnormal ending reaches the
    caller. *)
Definition call_void {St : Type} (body : M St ending unit) : M St ending unit :=
  e <- call body Returned ;;
  match e with
  | Returned => ret tt
  | other => return_ other
  end.

(** A callee working on one component of the caller's store. *)
Definition on_state {R A B} (m : M state R A) : M (state * B) R A :=
  fun sa =>
    match m (fst sa) with
    | (o, s', t) => (o, (s', snd sa), t)
    end.

Definition on_args {R A B} (m : M args R A) : M (B * args) R A :=
  fun sa =>
    match m (snd sa) with
    | (o, a', t) => (o, (fst sa, a'), t)
    end.

(** ** [usage] and [parse_args] *)

(** [s[n]] for a C string: the terminating NUL at the end. *)
Definition char_at (s : string) (n : nat) : ascii :=
  match String.get n s with
  | Some c => c
  | None => zero
  end.

Definition isspace (c : ascii) : bool :=
  let n := Z.of_nat (nat_of_ascii c) in
  (n =? 32) || ((9 <=? n) && (n <=? 13)).

Definition digit_of (c : ascii) : option Z :=
  let n := Z.of_nat (nat_of_ascii c) in
  if (48 <=? n) && (n <=? 57) then Some (n - 48) else None.

Fixpoint skip_spaces (s : string) : string :=
  match s with
  | String c r => if isspace c then skip_spaces r else s
  | EmptyString => s
  end.

Fixpoint read_digits (s : string) (acc : Z) : Z :=
  match s with
  | String c r =>
      match digit_of c with
      | Some d => read_digits r (10 * acc + d)
      | None => acc
      end
  | EmptyString => acc
  end.

(** [strtol(s, NULL, 10)]: the value saturates at the ends of [long]. *)
Definition strtol10 (s : string) : Z :=
  let s := skip_spaces s in
  let v :=
    match s with
    | String c r =>
        if Ascii.eqb c "-" then - read_digits r 0
        else if Ascii.eqb c "+" then read_digits r 0
        else read_digits s 0
    | EmptyString => 0
    end in
  Z.max Int.LONG_MIN (Z.min Int.LONG_MAX v).

(** [atoi] of the C library, which is [(int) strtol(s, NULL, 10)]. *)
Definition atoi (s : string) : Z := Int.to_i32 (strtol10 s).

(** [usage] prints the help text and leaves the process with [exit(0)]. *)
Definition usage {St A} (progname : string) : M St ending A :=
  emit (Estdout "usage: %s [options]") ;;
  emit (Estdout "") ;;
  emit (Estdout "options:") ;;
  emit (Estdout "-d Path to video device") ;;
  emit (Estdout "-W Screen width") ;;
  emit (Estdout "-H Screen height") ;;
  emit (Estdout "-f Run in fullscreen mode") ;;
  emit (Estdout "-h Print this help message") ;;
  emit (Eexit 0) ;;
  return_ (Exited 0).

(** [argv[++i]] for [i < argc]: [argv[argc]] is a null pointer. *)
Definition argv_next (argv : list string) (i : nat) : M args ending (option string) :=
  let v := nth_error argv (S i) in
  emit (Eargv_value (S i) v) ;;
  ret v.

(** [atoi(p)]: a null [p] is dereferenced by the library. *)
Definition call_atoi (p : option string) : M args ending Z :=
  emit (Eatoi p) ;;
  match p with
  | Some s => ret (atoi s)
  | None => return_ (Undefined "atoi(NULL)")
  end.

(** One turn of the [for] loop of [parse_args], entered with [i < argc];
    the value is [i] at the end of the body. *)
Definition parse_arg (argv : list string) (i : nat) : M args ending nat :=
  let arg := nth i argv "" in
  emit (Eargv_flag i arg) ;;
  if Ascii.eqb (char_at arg 0) "-" then
    let c := char_at arg 1 in
    if Ascii.eqb c "d" then
      v <- argv_next argv i ;;
      modify (set_videodevice v) ;;
      ret (S i)
    else if Ascii.eqb c "W" then
      v <- argv_next argv i ;;
      n <- call_atoi v ;;
      modify (set_ar_width n) ;;
      ret (S i)
    else if Ascii.eqb c "H" then
      v <- argv_next argv i ;;
      n <- call_atoi v ;;
      modify (set_ar_height n) ;;
      ret (S i)
    else if Ascii.eqb c "f" then
      modify (set_fullscreen 1) ;;
      ret i
    else if Ascii.eqb c "h" then
      let name := nth 0 argv "" in
      emit (Eargv_name name) ;;
      usage name
    else
      emit (Estderr "Unexpected flag : %s") ;;
      ret i
  else
    emit (Estderr "Unexpected argument : %s") ;;
    ret i.

(** [for ( ; i < argc; i++ ) ...]. *)
Fixpoint parse_loop (fuel : nat) (argv : list string) (i : nat) : M args ending unit :=
  match fuel with
  | O => return_ Out_of_fuel
  | S fuel' =>
      if (i <? List.length argv)%nat then
        i' <- parse_arg argv i ;;
        parse_loop fuel' argv (S i')
      else ret tt
  end.

Definition parse_args (argv : list string) : M args ending unit :=
  modify (set_videodevice (Some DEFAULT_VIDEODEVICE)) ;;
  modify (set_ar_width DEFAULT_SCREEN_WIDTH) ;;
  modify (set_ar_height DEFAULT_SCREEN_HEIGHT) ;;
  modify (set_fullscreen 0) ;;
  parse_loop (S (List.length argv)) argv 1.

(** ** [init] *)

Section Program.

Variable env : environment.

(** The body of [init] works on [*s] and [*a]. *)
Definition frame : Type := (state * args)%type.

Definition upd_s {R} (f : state -> state) : M frame R unit :=
  modify (fun sa : frame => (f (fst sa), snd sa)).
Definition upd_a {R} (f : args -> args) : M frame R unit :=
  modify (fun sa : frame => (fst sa, f (snd sa))).
Definition the_s {R} : M frame R state := sa <- get ;; ret (fst sa).
Definition the_a {R} : M frame R args := sa <- get ;; ret (snd sa).

(** [memset(&s->buf, 0, ...)] followed by the three assignments that
    prepare a request about buffer [i]. *)
Definition request_buffer (i : Z) : v4l2_buffer :=
  mk_buffer i V4L2_BUF_TYPE_VIDEO_CAPTURE V4L2_MEMORY_MMAP 0 0.

(** The turn [i] of the loop that maps the buffers (lines 173-191). *)
Definition map_buffer (i : Z) : M frame Z unit :=
  upd_s (set_buf (request_buffer i)) ;;
  s <- the_s ;;
  let r := fst (env_querybuf env (st_buf s)) in
  emit (Equerybuf (st_fd s) (st_buf s) r) ;;
  upd_s (set_buf (snd (env_querybuf env (st_buf s)))) ;;
  when (r <? 0)
    (emit (Estderr "Unable to query buffer %d") ;; return_ 0) ;;
  s <- the_s ;;
  let addr := env_mmap env i (buf_length (st_buf s)) (buf_offset (st_buf s)) in
  emit (Emmap (buf_length (st_buf s)) (st_fd s) (buf_offset (st_buf s)) addr) ;;
  upd_s (mem_store i addr) ;;
  when (addr =? MAP_FAILED)
    (emit (Estderr "Unable to map buffer %d") ;; return_ 0).

(** The turn [i] of the loop that queues the buffers (lines 194-203). *)
Definition queue_buffer (i : Z) : M frame Z unit :=
  upd_s (set_buf (request_buffer i)) ;;
  s <- the_s ;;
  let r := fst (env_qbuf_init env (st_buf s)) in
  emit (Eqbuf (st_fd s) (st_buf s) r) ;;
  upd_s (set_buf (snd (env_qbuf_init env (st_buf s)))) ;;
  when (r <? 0)
    (emit (Estderr "Unable to queue buffer %d") ;; return_ 0).

Definition init : M frame Z unit :=
  (* zero everything in program state *)
  upd_s (fun _ => zero_state) ;;
  (* open camera file *)
  a <- the_a ;;
  let fd := env_open env (ar_videodevice a) in
  emit (Eopen (ar_videodevice a) fd) ;;
  upd_s (set_fd fd) ;;
  when (fd <? 0)
    (emit (Estderr "perror(a->videodevice)") ;; return_ 0) ;;
  (* lets see what this camera can do... *)
  let r := fst (env_querycap env) in
  let caps := snd (env_querycap env) in
  emit (Equerycap fd r) ;;
  upd_s (set_cap caps) ;;
  when (r <? 0)
    (emit (Estderr "Failed to open device : %s") ;; return_ 0) ;;
  when (Z.land caps V4L2_CAP_VIDEO_CAPTURE =? 0)
    (emit (Estderr "%s does not support video capture") ;; return_ 0) ;;
  when (Z.land caps V4L2_CAP_STREAMING =? 0)
    (emit (Estderr "%s does not support streaming") ;; return_ 0) ;;
  (* set up the camera's capture format *)
  upd_s (set_fmt (mk_format V4L2_BUF_TYPE_VIDEO_CAPTURE
                            (Int.to_u32 (ar_width a)) (Int.to_u32 (ar_height a))
                            V4L2_FIELD_ANY V4L2_PIX_FMT_YUYV)) ;;
  (* ioctl(s->fd, VIDIOC_S_FMT, s->fmt): the argument is the structure
     itself, not its address.  The callee gets a copy, so whatever the
     driver grants, s->fmt keeps what the program stored in it. *)
  s <- the_s ;;
  let r := fst (env_s_fmt env (st_fmt s)) in
  emit (Es_fmt fd (st_fmt s) r (snd (env_s_fmt env (st_fmt s)))) ;;
  when (r <? 0)
    (emit (Estderr "%s cannot set format") ;; return_ 0) ;;
  (* This block checks for problems with resolution and updates accordingly *)
  s <- the_s ;;
  when (negb (pix_width (st_fmt s) =? Int.to_u32 (ar_width a))
        || negb (pix_height (st_fmt s) =? Int.to_u32 (ar_height a)))
    (emit (Estderr "Requested resolution %dx%d is not available") ;;
     emit (Estderr "Using resolution %dx%d") ;;
     (* update settings resulution to reflect actual resolution *)
     upd_a (set_ar_width (Int.to_i32 (pix_width (st_fmt s)))) ;;
     upd_a (set_ar_height (Int.to_i32 (pix_height (st_fmt s))))) ;;
  (* record actual resolution in program state *)
  a <- the_a ;;
  upd_s (set_width (ar_width a)) ;;
  upd_s (set_height (ar_height a)) ;;
  (* set up how we will get data from camera (use memory mapping) *)
  upd_s (set_rb (mk_requestbuffers NUMBUFS V4L2_BUF_TYPE_VIDEO_CAPTURE V4L2_MEMORY_MMAP)) ;;
  s <- the_s ;;
  let r := fst (env_reqbufs env (st_rb s)) in
  emit (Ereqbufs fd (st_rb s) r (snd (env_reqbufs env (st_rb s)))) ;;
  upd_s (set_rb (snd (env_reqbufs env (st_rb s)))) ;;
  when (r <? 0)
    (emit (Estderr "Unable to allocate buffers : %d") ;; return_ 0) ;;
  (* map buffers *)
  for_loop (Z.to_nat NUMBUFS) 0 map_buffer ;;
  (* queue buffers *)
  for_loop (Z.to_nat NUMBUFS) 0 queue_buffer ;;
  (* enable streaming from the camera *)
  let r := env_streamon env in
  emit (Estreamon fd r) ;;
  when (r <? 0)
    (emit (Estderr "Unable to start capture %d") ;; return_ 0) ;;
  (* initialize SDL which will be used for rendering *)
  let r := env_sdl_init env in
  emit (ESDL_Init r) ;;
  when (r <? 0)
    (emit (Estderr "SDL_Init : %s") ;; return_ 0) ;;
  s <- the_s ;;
  let flags := Int.to_u32 (ar_fullscreen a * SDL_WINDOW_FULLSCREEN_DESKTOP) in
  let answer := env_create_window_and_renderer env (st_width s) (st_height s) flags in
  let stat := fst (fst answer) in
  emit (ESDL_CreateWindowAndRenderer (st_width s) (st_height s) flags stat
                                     (snd (fst answer)) (snd answer)) ;;
  upd_s (set_window (snd (fst answer))) ;;
  upd_s (set_renderer (snd answer)) ;;
  when (stat <? 0)
    (emit (Estderr "SDL_CreateWindowAndRenderer : %s") ;; return_ 0) ;;
  emit ESDL_SetHint ;;
  emit (ESDL_RenderSetLogicalSize (snd answer) (st_width s) (st_height s)) ;;
  emit (ESDL_SetWindowTitle (snd (fst answer))) ;;
  (* Pixel format should match that of the camera for simplicity. *)
  let tex := env_create_texture env (st_width s) (st_height s) in
  emit (ESDL_CreateTexture (snd answer) (st_width s) (st_height s) tex) ;;
  upd_s (set_texture tex) ;;
  return_ 1.

(** ** [handle_events] *)

Definition handle_event (e : sdl_event) : M state ending unit :=
  emit (ESDL_PollEvent (Some e)) ;;
  match e with
  | SDL_QUIT => modify (set_quit 1)
  | SDL_KEYDOWN sym => when (sym =? SDLK_q) (modify (set_quit 1))
  | SDL_OTHER => ret tt
  end.

Fixpoint drain (pending : list sdl_event) : M state ending unit :=
  match pending with
  | [] => emit (ESDL_PollEvent None)
  | e :: rest => handle_event e ;; drain rest
  end.

(** [while ( SDL_PollEvent(&e) ) ...] at the turn [n] of the main loop. *)
Definition handle_events (n : nat) : M state ending unit :=
  drain (env_poll_events env n).

(** ** [render] *)

(** [s->width*s->height*sizeof(Uint16)]: the product of the two [int]s,
    converted to [size_t] and doubled.  (C gives no meaning to a product
    that leaves [int]; the model wraps it.) *)
Definition copy_size (s : state) : Z :=
  Int.to_size (Int.to_size (Int.to_i32 (st_width s * st_height s)) * sizeof_Uint16).

(** [memset(&s->buf, 0, ...)] followed by the two assignments that
    prepare a dequeue. *)
Definition dequeue_request : v4l2_buffer :=
  mk_buffer 0 V4L2_BUF_TYPE_VIDEO_CAPTURE V4L2_MEMORY_MMAP 0 0.

Definition render (n : nat) : M state ending unit :=
  (* dequeue the next frame from the camera *)
  modify (set_buf dequeue_request) ;;
  s <- get ;;
  let r := fst (env_dqbuf env n (st_buf s)) in
  emit (Edqbuf (st_fd s) r (snd (env_dqbuf env n (st_buf s)))) ;;
  modify (set_buf (snd (env_dqbuf env n (st_buf s)))) ;;
  when (r <? 0)
    (emit (Estderr "Failed to dequeue buffer %d") ;; return_ Returned) ;;
  s <- get ;;
  let pitch := env_lock_texture env n in
  emit (ESDL_LockTexture (st_texture s) pitch) ;;
  (* FIXME: Should be better behaviour to handle pixels size != 2 bytes *)
  match Int.div pitch (st_width s) with
  | None => return_ (Undefined "pitch/s->width")
  | Some q =>
      (if negb (Int.to_size q =? sizeof_Uint16) then
         emit (Estderr "mismatch between texture size and buffer size")
       else
         (* copy camera buffer over to texture *)
         emit (Ememcpy (buf_index (st_buf s)) (mem_at s (buf_index (st_buf s)))
                       (copy_size s))) ;;
      emit (ESDL_UnlockTexture (st_texture s)) ;;
      (* queue next frame for this buffer *)
      let r := fst (env_qbuf env n (st_buf s)) in
      emit (Eqbuf (st_fd s) (st_buf s) r) ;;
      modify (set_buf (snd (env_qbuf env n (st_buf s)))) ;;
      when (r <? 0)
        (emit (Estderr "Failed to requeue buffer %d")) ;;
      (* update screen and present texture *)
      emit ESDL_RenderClear ;;
      emit ESDL_RenderCopy ;;
      emit ESDL_RenderPresent
  end.

(** ** [quit] *)

(** [munmap( s->mem[i], s->buf.length)], the body of the loop of lines
    305-308. *)
Definition unmap_buffer (i : Z) : M state ending unit :=
  s <- get ;;
  emit (Emunmap (st_mem s i) (buf_length (st_buf s))).

(** The loop of lines 305-308, the release of the buffer ring. *)
Definition unmap_all : M state ending unit :=
  for_loop (Z.to_nat NUMBUFS) 0 unmap_buffer.

Definition quit : M state ending unit :=
  s <- get ;;
  (* disable streaming from the camera *)
  let r := env_streamoff env in
  emit (Estreamoff (st_fd s) r) ;;
  when (r <? 0)
    (emit (Estderr "Unable to stop capture %d")) ;;
  (* unmap all the buffers used for storing camera frames *)
  unmap_all ;;
  (* close file descriptor for the camera *)
  when (negb (st_fd s =? 0)) (emit (Eclose (st_fd s))) ;;
  (* release SDL resources *)
  when (negb (st_texture s =? NULL)) (emit (ESDL_DestroyTexture (st_texture s))) ;;
  when (negb (st_renderer s =? NULL)) (emit (ESDL_DestroyRenderer (st_renderer s))) ;;
  when (negb (st_window s =? NULL)) (emit (ESDL_DestroyWindow (st_window s))) ;;
  emit ESDL_Quit.

(** ** [main] *)

(** [while ( state.quit == 0 ) { handle_events; render; }], entered at
    the turn [n]; [fuel] bounds the number of turns that are unrolled. *)
Fixpoint main_loop (fuel : nat) (n : nat) : M state ending unit :=
  match fuel with
  | O => return_ Out_of_fuel
  | S fuel' =>
      s <- get ;;
      if st_quit s =? 0 then
        call_void (handle_events n) ;;
        call_void (render n) ;;
        main_loop fuel' (S n)
      else ret tt
  end.

Definition main (fuel : nat) (argv : list string) : M frame ending unit :=
  (* get command line args *)
  on_args (call_void (parse_args argv)) ;;
  (* initialize program and quit if anything goes wrong *)
  r <- call init 0 ;;
  if r =? 0 then
    on_state (call_void quit) ;;
    return_ (Exited EXIT_FAILURE)
  else
    (* run the program until the user quits *)
    on_state (main_loop fuel 0) ;;
    (* shutdown everything *)
    on_state (call_void quit) ;;
    return_ (Exited EXIT_SUCCESS).

End Program.

(** ** A family of devices for concrete runs *)

Module Sample.

(** What tells one sample device from another. *)
Record profile := mk_profile {
  open_result : Z;          (* the value of [open] *)
  capabilities : Z;
  grant_width : Z;          (* the resolution the driver settles on *)
  grant_height : Z;
  grant_count : Z;          (* the number of buffers the driver allocates *)
  frame_bytes : Z;          (* the length of each buffer *)
  dequeue_fails_at : option nat;
  pitch_at : nat -> Z;
  quit_at : nat             (* the turn at which the window is closed *)
}.

Definition base : Z := 139637976727552.

(** A driver in the manner of videobuf2: it clamps the number of
    buffers, knows only the buffers it allocated, hands the frames out
    in turn, and leaves the structure alone when a call fails. *)
Definition device (p : profile) : environment :=
  {| env_open := fun _ => open_result p;
     env_querycap := (0, capabilities p);
     env_s_fmt := fun f =>
       (0, mk_format (fmt_type f) (grant_width p) (grant_height p) 1 (pix_pixelformat f));
     env_reqbufs := fun rb =>
       (0, mk_requestbuffers (Z.min (rb_count rb) (grant_count p)) (rb_type rb) (rb_memory rb));
     env_querybuf := fun b =>
       if buf_index b <? grant_count p
       then (0, mk_buffer (buf_index b) (buf_type b) (buf_memory b)
                          (frame_bytes p) (buf_index b * frame_bytes p))
       else (-1, b);
     env_mmap := fun _ _ off => base + off;
     env_qbuf_init := fun b =>
       if buf_index b <? grant_count p
       then (0, mk_buffer (buf_index b) (buf_type b) (buf_memory b) (frame_bytes p) 0)
       else (-1, b);
     env_streamon := 0;
     env_sdl_init := 0;
     env_create_window_and_renderer := fun _ _ _ => (0, 4096, 8192);
     env_create_texture := fun _ _ => 12288;
     env_poll_events := fun n => if (n =? quit_at p)%nat then [SDL_QUIT] else [];
     env_dqbuf := fun n b =>
       if match dequeue_fails_at p with Some k => (n =? k)%nat | None => false end
       then (-1, b)
       else (0, mk_buffer (Z.of_nat n mod grant_count p) (buf_type b) (buf_memory b)
                          (frame_bytes p) 0);
     env_lock_texture := pitch_at p;
     env_qbuf := fun _ b => (0, b);
     env_streamoff := 0 |}.

Definition both_capabilities : Z := Z.lor V4L2_CAP_VIDEO_CAPTURE V4L2_CAP_STREAMING.

(** A camera that grants what it is asked for at 800x600. *)
Definition webcam : profile :=
  mk_profile 3 both_capabilities 800 600 16 960000 None (fun _ => 1600) 2%nat.

Definition blank_state : state := zero_state.
Definition blank_args : args := mk_args None 0 0 0.

(** The three observable results of a run of [main]. *)
Definition run_main (p : profile) (fuel : nat) (argv : list string)
  : ending * frame * trace :=
  run (main (device p) fuel argv) Returned (blank_state, blank_args).

End Sample.


(** * Vocabulary of the properties *)

(** ** Results of a run *)

Definition result_of {St R A} (x : outcome R A * St * trace) : outcome R A := fst (fst x).
Definition store_of {St R A} (x : outcome R A * St * trace) : St := snd (fst x).
Definition trace_of {St R A} (x : outcome R A * St * trace) : trace := snd x.

(** [wp m s Q]: running [m] from [s] ends in a result, a store and a
    trace that satisfy [Q]. *)
Definition wp {St R A} (m : M St R A) (s : St)
  (Q : outcome R A -> St -> trace -> Prop) : Prop :=
  Q (result_of (m s)) (store_of (m s)) (trace_of (m s)).

(** The postcondition of the first half of a sequence. *)
Definition then_ {St R A B} (k : A -> M St R B)
  (Q : outcome R B -> St -> trace -> Prop) : outcome R A -> St -> trace -> Prop :=
  fun o s1 t1 =>
    match o with
    | Next a => wp (k a) s1 (fun o' s2 t2 => Q o' s2 (t1 ++ t2))
    | Return r => Q (Return r) s1 t1
    end.

(** [m] does not change the view [f] of the store. *)
Definition keeps {St R X A} (f : St -> X) (m : M St R A) : Prop :=
  forall s, f (store_of (m s)) = f s.

(** Every [return] that [m] can reach returns a value in [P]. *)
Definition returns {St R A} (P : R -> Prop) (m : M St R A) : Prop :=
  forall s r, result_of (m s) = Return r -> P r.

(** The part of the frame that the two buffer loops of [init] leave
    alone: everything but [buf] and [mem]. *)
Definition outside_ring (fr : frame)
  : Z * v4l2_format * v4l2_requestbuffers * Z * Z * Z * Z * Z * Z * Z * args :=
  (st_cap (fst fr), st_fmt (fst fr), st_rb (fst fr), st_fd (fst fr),
   st_window (fst fr), st_renderer (fst fr), st_texture (fst fr),
   st_width (fst fr), st_height (fst fr), st_quit (fst fr), snd fr).

(** What the steady-state loop leaves alone: everything but [buf] and
    [quit]. *)
Definition outside_frame (s : state) : Z * Z * Z * Z * Z * Z * Z :=
  (st_fd s, st_window s, st_renderer s, st_texture s, st_width s, st_height s,
   st_cap s).

(** ** Events *)

Definition option_eq_dec {A} (dec : forall x y : A, {x = y} + {x <> y})
  (x y : option A) : {x = y} + {x <> y}.
Proof. decide equality. Defined.

Definition format_eq_dec (x y : v4l2_format) : {x = y} + {x <> y}.
Proof. decide equality; apply Z.eq_dec. Defined.

Definition requestbuffers_eq_dec (x y : v4l2_requestbuffers) : {x = y} + {x <> y}.
Proof. decide equality; apply Z.eq_dec. Defined.

Definition buffer_eq_dec (x y : v4l2_buffer) : {x = y} + {x <> y}.
Proof. decide equality; apply Z.eq_dec. Defined.

Definition sdl_event_eq_dec (x y : sdl_event) : {x = y} + {x <> y}.
Proof. decide equality; apply Z.eq_dec. Defined.

Definition event_eq_dec (x y : event) : {x = y} + {x <> y}.
Proof.
  decide equality;
    first [ apply Z.eq_dec | apply Nat.eq_dec | apply string_dec
          | apply format_eq_dec | apply requestbuffers_eq_dec | apply buffer_eq_dec
          | apply (option_eq_dec string_dec) | apply (option_eq_dec Z.eq_dec)
          | apply (option_eq_dec sdl_event_eq_dec) ].
Defined.

(** [occurs e t]: the call [e] is in the trace [t]. *)
Definition occurs (e : event) (t : trace) : bool :=
  if in_dec event_eq_dec e t then true else false.

(** The positions [0 .. NUMBUFS-1] of the ring. *)
Definition slots : list Z := map Z.of_nat (seq 0 (Z.to_nat NUMBUFS)).

(** The calls that negotiate the format or that allocate, inspect, map or
    queue buffers. *)
Definition configures (e : event) : bool :=
  match e with
  | Es_fmt _ _ _ _ | Ereqbufs _ _ _ _ | Equerybuf _ _ _ | Emmap _ _ _ _
  | Eqbuf _ _ _ | Estreamon _ _ => true
  | _ => false
  end.

(** ** [quit] in closed form *)

(** What [quit] does to the outside, read off its text: the calls in
    the order of the source. *)
Definition quit_events (env : environment) (s : state) : trace :=
  [Estreamoff (st_fd s) (env_streamoff env)]
  ++ (if env_streamoff env <? 0 then [Estderr "Unable to stop capture %d"] else [])
  ++ map (fun i => Emunmap (st_mem s i) (buf_length (st_buf s))) slots
  ++ (if negb (st_fd s =? 0) then [Eclose (st_fd s)] else [])
  ++ (if negb (st_texture s =? NULL) then [ESDL_DestroyTexture (st_texture s)] else [])
  ++ (if negb (st_renderer s =? NULL) then [ESDL_DestroyRenderer (st_renderer s)] else [])
  ++ (if negb (st_window s =? NULL) then [ESDL_DestroyWindow (st_window s)] else [])
  ++ [ESDL_Quit].

(** The state in which [init] gives up on a device that lacks a
    capability. *)
Definition probed (env : environment) (a : args) : state :=
  set_cap (snd (env_querycap env)) (set_fd (env_open env (ar_videodevice a)) zero_state).

(** ** The ring as the program walks it (C2) *)

(** The per-buffer operations. *)
Inductive ring_op :=
| Query (index : Z)          (* VIDIOC_QUERYBUF *)
| Map                        (* mmap of the buffer just queried *)
| Queue (index : Z)          (* VIDIOC_QBUF *)
| Unmap (addr length : Z).   (* munmap *)

Definition ring_op_of (e : event) : list ring_op :=
  match e with
  | Equerybuf _ b _ => [Query (buf_index b)]
  | Emmap _ _ _ _ => [Map]
  | Eqbuf _ b _ => [Queue (buf_index b)]
  | Emunmap a l => [Unmap a l]
  | _ => []
  end.

Definition ring_ops (t : trace) : list ring_op := flat_map ring_op_of t.

(** [i, i+1, ..., i+n-1], the values of the counter of a [for_loop]. *)
Fixpoint zrange (i : Z) (n : nat) : list Z :=
  match n with
  | O => []
  | S n' => i :: zrange (i + 1) n'
  end.

(** The per-buffer operations of a complete [init]: every slot is
    queried and mapped, then every slot is queued. *)
Definition ring_plan : list ring_op :=
  flat_map (fun i => [Query i; Map]) slots ++ map Queue slots.

(** The number of buffers that the driver answered to the request. *)
Definition granted_count (t : trace) : option Z :=
  match flat_map (fun e => match e with
                           | Ereqbufs _ _ _ g => [rb_count g]
                           | _ => []
                           end) t with
  | n :: _ => Some n
  | [] => None
  end.

Definition indices_used (t : trace) : list Z :=
  flat_map (fun o => match o with
                     | Query i | Queue i => [i]
                     | _ => []
                     end) (ring_ops t).

Definition unmap_count (t : trace) : Z :=
  Z.of_nat (List.length (filter (fun o => match o with Unmap _ _ => true | _ => false end)
                                (ring_ops t))).

(** The reading of the ring that keeps to the granted count: every index
    that is queried or queued is below the count, and as many slots are
    unmapped as were granted. *)
Definition keeps_to_grant (t : trace) : bool :=
  match granted_count t with
  | Some n => forallb (fun i => i <? n) (indices_used t) && (unmap_count t =? n)
  | None => true
  end.

(** [emits proj P m L]: projected by [proj], the trace of [m] is [L] when
    [m] goes on or returns a value outside [P], and a prefix of [L] when
    it returns a value in [P]. *)
Definition emits {St R A X} (proj : event -> list X) (P : R -> Prop)
  (m : M St R A) (L : list X) : Prop :=
  forall s,
    match result_of (m s) with
    | Next _ => flat_map proj (trace_of (m s)) = L
    | Return r =>
        (P r -> exists k, flat_map proj (trace_of (m s)) = firstn k L)
        /\ (~ P r -> flat_map proj (trace_of (m s)) = L)
    end.

(** A driver that allocates eight buffers where sixteen are requested. *)
Definition eight_buffers : Sample.profile :=
  Sample.mk_profile 3 Sample.both_capabilities 800 600 8 960000 None (fun _ => 1600) 0%nat.

(** A driver that settles on 1280x720 where 1920x1080 is requested. *)
Definition downscaler : Sample.profile :=
  Sample.mk_profile 3 Sample.both_capabilities 1280 720 16 1843200 None
                    (fun _ => 3840) 0%nat.

Definition wide_request : list string := ["camera"; "-W"; "1920"; "-H"; "1080"].

(** ** The buffers in the steady-state loop (C3) *)

(** The calls that name a buffer of the ring in the steady-state loop. *)
Definition touches_buffer (e : event) : bool :=
  match e with
  | Edqbuf _ _ _ | Ememcpy _ _ _ | Eqbuf _ _ _ => true
  | _ => false
  end.

Definition is_undefined (o : outcome ending unit) : bool :=
  match o with
  | Return (Undefined _) => true
  | _ => false
  end.

(** A copy out of a buffer, or a queueing call. *)
Definition copies_or_queues (e : event) : bool :=
  match e with
  | Ememcpy _ _ _ | Eqbuf _ _ _ => true
  | _ => false
  end.

Definition copies (e : event) : bool :=
  match e with
  | Ememcpy _ _ _ => true
  | _ => false
  end.

(** A driver whose second dequeue fails. *)
Definition hiccup : Sample.profile :=
  Sample.mk_profile 3 Sample.both_capabilities 800 600 16 960000 (Some 1%nat)
                    (fun _ => 1600) 3%nat.

(** A display whose texture rows are 4 bytes per pixel. *)
Definition padded : Sample.profile :=
  Sample.mk_profile 3 Sample.both_capabilities 800 600 16 960000 None
                    (fun _ => 3200) 3%nat.

(** ** The command line (C10) *)

(** [arg] is read as one of the flags that take a value: a dash followed
    by [d], [W] or [H] (the parser looks at these two characters only). *)
Definition takes_value (arg : string) : bool :=
  Ascii.eqb (char_at arg 0) "-"
  && (Ascii.eqb (char_at arg 1) "d" || Ascii.eqb (char_at arg 1) "W"
      || Ascii.eqb (char_at arg 1) "H").

(** [arg] is read as [-W] or [-H], whose value goes through [atoi]. *)
Definition takes_number (arg : string) : bool :=
  Ascii.eqb (char_at arg 0) "-"
  && (Ascii.eqb (char_at arg 1) "W" || Ascii.eqb (char_at arg 1) "H").

Definition at_loop_head (e : event) : bool :=
  match e with
  | Eargv_flag _ _ => true
  | _ => false
  end.

(** The reading of the claim by the text of the command line alone: the
    last argument is a value-taking flag and the run reads [argv[argc]]. *)
Definition last_is_value_flag (argv : list string) : bool :=
  takes_value (last argv "").

Definition reads_past_end (argv : list string) (t : trace) : bool :=
  occurs (Eargv_value (List.length argv) None) t.

(** ** Resources and their release (C4, C7, C8) *)

(** What the program takes from the system and has to give back. *)
Inductive resource :=
| Descriptor (fd : Z)
| Mapping (addr length : Z)
| Window (p : Z)
| Renderer (p : Z)
| Texture (p : Z).

Definition resource_eq_dec (x y : resource) : {x = y} + {x <> y}.
Proof. decide equality; apply Z.eq_dec. Defined.

(** The resources that a call acquires when it succeeds. *)
Definition acquires (e : event) : list resource :=
  match e with
  | Eopen _ fd => if fd <? 0 then [] else [Descriptor fd]
  | Emmap len _ _ addr => if addr =? MAP_FAILED then [] else [Mapping addr len]
  | ESDL_CreateWindowAndRenderer _ _ _ _ win ren =>
      (if win =? NULL then [] else [Window win])
      ++ (if ren =? NULL then [] else [Renderer ren])
  | ESDL_CreateTexture _ _ _ tex => if tex =? NULL then [] else [Texture tex]
  | _ => []
  end.

(** The resource that a call names for release.  A mapping is released
    by a [munmap] of its address and of its length. *)
Definition releases (e : event) : list resource :=
  match e with
  | Eclose fd => [Descriptor fd]
  | Emunmap addr len => [Mapping addr len]
  | ESDL_DestroyWindow p => [Window p]
  | ESDL_DestroyRenderer p => [Renderer p]
  | ESDL_DestroyTexture p => [Texture p]
  | _ => []
  end.

Definition acquired (t : trace) : list resource := flat_map acquires t.
Definition released (t : trace) : list resource := flat_map releases t.

(** The resources acquired in [t] that no call of [t] releases. *)
Definition leaked (t : trace) : list resource :=
  filter (fun r => if in_dec resource_eq_dec r (released t) then false else true)
         (acquired t).

(** The release calls of [t] that name nothing acquired in [t]. *)
Definition stray_releases (t : trace) : list resource :=
  filter (fun r => if in_dec resource_eq_dec r (acquired t) then false else true)
         (released t).

Definition closes (t : trace) : list Z :=
  flat_map (fun e => match e with Eclose fd => [fd] | _ => [] end) t.

Definition opens (t : trace) : list Z :=
  flat_map (fun e => match e with Eopen _ fd => [fd] | _ => [] end) t.

Definition maps (t : trace) : list ring_op :=
  filter (fun o => match o with Map => true | _ => false end) (ring_ops t).

Definition unmaps (t : trace) : list ring_op :=
  filter (fun o => match o with Unmap _ _ => true | _ => false end) (ring_ops t).

(** No device node at the path: [open] fails. *)
Definition no_device : Sample.profile :=
  Sample.mk_profile (-1) Sample.both_capabilities 800 600 16 960000 None
                    (fun _ => 1600) 0%nat.

(** The process was started with its standard input closed: the camera
    is opened as descriptor 0. *)
Definition stdin_closed : Sample.profile :=
  Sample.mk_profile 0 Sample.both_capabilities 800 600 16 960000 None
                    (fun _ => 1600) 0%nat.

(** A camera without the streaming capability. *)
Definition snapshot_only : Sample.profile :=
  Sample.mk_profile 3 V4L2_CAP_VIDEO_CAPTURE 800 600 16 960000 None
                    (fun _ => 1600) 0%nat.

(** The arguments after an empty command line. *)
Definition default_args : args :=
  mk_args (Some DEFAULT_VIDEODEVICE) DEFAULT_SCREEN_WIDTH DEFAULT_SCREEN_HEIGHT 0.

(** The calls of the release loop of [quit] on the state [s]. *)
Definition unmap_calls (s : state) : trace :=
  map (fun i => Emunmap (st_mem s i) (buf_length (st_buf s))) slots.


(** * Vocabulary of the further properties *)

(** ** Events of the window (X1, X10) *)

(** The events at which [handle_events] raises the quit flag: the close
    of the window, and a press of the key [q]. *)
Definition asks_to_quit (e : sdl_event) : bool :=
  match e with
  | SDL_QUIT => true
  | SDL_KEYDOWN sym => sym =? SDLK_q
  | SDL_OTHER => false
  end.

(** ** Arguments that the parser does not know (X2) *)

Definition known_flag (c : ascii) : bool :=
  Ascii.eqb c "d" || Ascii.eqb c "W" || Ascii.eqb c "H"
  || Ascii.eqb c "f" || Ascii.eqb c "h".

(** [arg] is neither one of the five flags: it has no leading dash, or
    the character after the dash is none of [d], [W], [H], [f], [h]. *)
Definition unrecognised (arg : string) : bool :=
  negb (Ascii.eqb (char_at arg 0) "-") || negb (known_flag (char_at arg 1)).

(** The report that the parser makes of one such argument. *)
Definition report (i : nat) (arg : string) : trace :=
  [Eargv_flag i arg;
   Estderr (if Ascii.eqb (char_at arg 0) "-"
            then "Unexpected flag : %s" else "Unexpected argument : %s")].

Fixpoint reports (i : nat) (rest : list string) : trace :=
  match rest with
  | [] => []
  | arg :: rest' => report i arg ++ reports (S i) rest'
  end.

(** ** What the parser reads (X3, X4) *)

(** The events of [parse_args], with reads of [argv] that stay inside
    [argv[0 .. argc]] and deliver what is stored there.  The loop is
    entered with [argc > 1], so that [argv[0]] is a string when it is
    read for [usage]. *)
Definition within_argv (argv : list string) (e : event) : bool :=
  match e with
  | Eargv_flag i s =>
      (i <? List.length argv)%nat && String.eqb s (nth i argv "")
  | Eargv_value i v =>
      (i <=? List.length argv)%nat
      && (if option_eq_dec string_dec v (nth_error argv i) then true else false)
  | Eargv_name s => (0 <? List.length argv)%nat && String.eqb s (nth 0 argv "")
  | Eatoi _ | Estdout _ | Estderr _ | Eexit _ => true
  | _ => false
  end.

(** ** The calls of the three phases (X11, X12) *)

Definition resolution_notice (e : event) : bool :=
  match e with
  | Estderr m =>
      String.eqb m "Requested resolution %dx%d is not available"
      || String.eqb m "Using resolution %dx%d"
  | _ => false
  end.

(** The calls that [init] can make. *)
Definition setup_event (e : event) : bool :=
  match e with
  | Eopen _ _ | Equerycap _ _ | Es_fmt _ _ _ _ | Ereqbufs _ _ _ _
  | Equerybuf _ _ _ | Emmap _ _ _ _ | Eqbuf _ _ _ | Estreamon _ _
  | ESDL_Init _ | ESDL_CreateWindowAndRenderer _ _ _ _ _ _ | ESDL_SetHint
  | ESDL_RenderSetLogicalSize _ _ _ | ESDL_SetWindowTitle _
  | ESDL_CreateTexture _ _ _ _ => true
  | Estderr _ => negb (resolution_notice e)
  | _ => false
  end.

(** The calls that the steady-state loop can make. *)
Definition loop_event (e : event) : bool :=
  match e with
  | ESDL_PollEvent _ | Edqbuf _ _ _ | ESDL_LockTexture _ _ | Ememcpy _ _ _
  | ESDL_UnlockTexture _ | Eqbuf _ _ _ | ESDL_RenderClear | ESDL_RenderCopy
  | ESDL_RenderPresent | Estderr _ => true
  | _ => false
  end.

(** The calls of the teardown. *)
Definition is_teardown (e : event) : bool :=
  match e with
  | Estreamoff _ _ | Emunmap _ _ | Eclose _ | ESDL_DestroyTexture _
  | ESDL_DestroyRenderer _ | ESDL_DestroyWindow _ | ESDL_Quit => true
  | _ => false
  end.

(** [silent P m]: every call that [m] makes satisfies [P]. *)
Definition silent {St R A} (P : event -> bool) (m : M St R A) : Prop :=
  forall s, forallb P (trace_of (m s)) = true.

(** ** The checks of [init] (X5, X6, X9) *)

(** The structure that [init] hands to VIDIOC_S_FMT. *)
Definition format_request (a : args) : v4l2_format :=
  mk_format V4L2_BUF_TYPE_VIDEO_CAPTURE (Int.to_u32 (ar_width a))
            (Int.to_u32 (ar_height a)) V4L2_FIELD_ANY V4L2_PIX_FMT_YUYV.

Definition buffers_request : v4l2_requestbuffers :=
  mk_requestbuffers NUMBUFS V4L2_BUF_TYPE_VIDEO_CAPTURE V4L2_MEMORY_MMAP.

(** The address that [mmap] returns for the slot [i]. *)
Definition mapped (env : environment) (i : Z) : Z :=
  env_mmap env i
           (buf_length (snd (env_querybuf env (request_buffer i))))
           (buf_offset (snd (env_querybuf env (request_buffer i)))).

(** The two tests of a turn of the mapping loop, and the test of a turn
    of the queueing loop. *)
Definition map_ok (env : environment) (i : Z) : bool :=
  negb (fst (env_querybuf env (request_buffer i)) <? 0)
  && negb (mapped env i =? MAP_FAILED).

Definition queue_ok (env : environment) (i : Z) : bool :=
  negb (fst (env_qbuf_init env (request_buffer i)) <? 0).

Definition window_flags (a : args) : Z :=
  Int.to_u32 (ar_fullscreen a * SDL_WINDOW_FULLSCREEN_DESKTOP).

(** Every test that [init] makes on the answer of a call, in the order
    of the source. *)
Definition init_checks (env : environment) (a : args) : bool :=
  negb (env_open env (ar_videodevice a) <? 0)
  && negb (fst (env_querycap env) <? 0)
  && negb (Z.land (snd (env_querycap env)) V4L2_CAP_VIDEO_CAPTURE =? 0)
  && negb (Z.land (snd (env_querycap env)) V4L2_CAP_STREAMING =? 0)
  && negb (fst (env_s_fmt env (format_request a)) <? 0)
  && negb (fst (env_reqbufs env buffers_request) <? 0)
  && forallb (map_ok env) slots
  && forallb (queue_ok env) slots
  && negb (env_streamon env <? 0)
  && negb (env_sdl_init env <? 0)
  && negb (fst (fst (env_create_window_and_renderer env (ar_width a) (ar_height a)
                                                    (window_flags a))) <? 0).

Definition mmap_returns (t : trace) : list Z :=
  flat_map (fun e => match e with Emmap _ _ _ r => [r] | _ => [] end) t.

Definition munmap_addresses (t : trace) : list Z :=
  flat_map (fun e => match e with Emunmap a _ => [a] | _ => [] end) t.

(** The state after a successful [init], as far as the answers of the
    outside decide it: everything but [cap], [fmt], [rb] and [buf]. *)
Record ready (env : environment) (a : args) (s : state) : Prop := mk_ready {
  ready_fd : st_fd s = env_open env (ar_videodevice a);
  ready_width : st_width s = ar_width a;
  ready_height : st_height s = ar_height a;
  ready_quit : st_quit s = 0;
  ready_window :
    st_window s = snd (fst (env_create_window_and_renderer
                              env (ar_width a) (ar_height a) (window_flags a)));
  ready_renderer :
    st_renderer s = snd (env_create_window_and_renderer
                           env (ar_width a) (ar_height a) (window_flags a));
  ready_texture : st_texture s = env_create_texture env (ar_width a) (ar_height a);
  ready_mem : forall i, In i slots -> st_mem s i = mapped env i
}.

(** What the steady-state loop leaves alone: everything but [buf] and
    [quit]. *)
Definition settled (s : state)
  : Z * v4l2_format * v4l2_requestbuffers * Z * (Z -> Z) * Z * Z * Z * Z * Z :=
  (st_cap s, st_fmt s, st_rb s, st_fd s, st_mem s, st_window s, st_renderer s,
   st_texture s, st_width s, st_height s).

(** ** The ring, call by call (C2) *)

(** The per-buffer calls of [init] in the order of [ring_plan], each with
    the test that [init] makes on its answer: the query of a slot and the
    mapping of the buffer that was queried, for each slot, then the
    queueing of each slot. *)
Definition map_outcomes (env : environment) (l : list Z) : list (ring_op * bool) :=
  flat_map (fun i => [(Query i, negb (fst (env_querybuf env (request_buffer i)) <? 0));
                      (Map, negb (mapped env i =? MAP_FAILED))]) l.

Definition queue_outcomes (env : environment) (l : list Z) : list (ring_op * bool) :=
  map (fun i => (Queue i, queue_ok env i)) l.

Definition plan_outcomes (env : environment) : list (ring_op * bool) :=
  map_outcomes env slots ++ queue_outcomes env slots.

(** A sequence of calls that stops only at the first call that fails:
    the calls up to that one, that one included. *)
Fixpoint up_to_failure {X} (l : list (X * bool)) : list X :=
  match l with
  | [] => []
  | (x, ok) :: l' => x :: (if ok then up_to_failure l' else [])
  end.

(** The tests of [init] that come before the buffer loops: [open], the
    capabilities, the format and the request for buffers. *)
Definition reaches_ring (env : environment) (a : args) : bool :=
  negb (env_open env (ar_videodevice a) <? 0)
  && negb (fst (env_querycap env) <? 0)
  && negb (Z.land (snd (env_querycap env)) V4L2_CAP_VIDEO_CAPTURE =? 0)
  && negb (Z.land (snd (env_querycap env)) V4L2_CAP_STREAMING =? 0)
  && negb (fst (env_s_fmt env (format_request a)) <? 0)
  && negb (fst (env_reqbufs env buffers_request) <? 0).

Definition starts_streaming (e : event) : bool :=
  match e with
  | Estreamon _ _ => true
  | _ => false
  end.

(** The device [env] with the number of buffers it grants replaced by
    [g]; the return value of the request and every other answer stay. *)
Definition with_grant (g : Z) (env : environment) : environment :=
  mk_environment
    (env_open env) (env_querycap env) (env_s_fmt env)
    (fun rb => (fst (env_reqbufs env rb),
                mk_requestbuffers g (rb_type (snd (env_reqbufs env rb)))
                                  (rb_memory (snd (env_reqbufs env rb)))))
    (env_querybuf env) (env_mmap env) (env_qbuf_init env) (env_streamon env)
    (env_sdl_init env) (env_create_window_and_renderer env) (env_create_texture env)
    (env_poll_events env) (env_dqbuf env) (env_lock_texture env) (env_qbuf env)
    (env_streamoff env).

(** ** Who may read a buffer (C3) *)

(** The mapping of the slot [i]: the address that [mmap] returned for it
    and the length that VIDIOC_QUERYBUF reported, which is the length
    that was mapped. *)
Definition extent (env : environment) (i : Z) : Z * Z :=
  (mapped env i, buf_length (snd (env_querybuf env (request_buffer i)))).

(** The [n] bytes at [a] and the [m] bytes at [b] have a byte in common. *)
Definition overlaps (a n b m : Z) : bool :=
  (0 <? n) && (0 <? m) && (a <? b + m) && (b <? a + n).

(** The buffers that are with the driver, by index. *)
Definition is_queued (i : Z) (queued : list Z) : bool := existsb (Z.eqb i) queued.

Definition handed_out (i : Z) (queued : list Z) : list Z :=
  filter (fun j => negb (j =? i)) queued.

(** A read of [n] bytes at [src] touches the mapping of a buffer that is
    with the driver. *)
Definition reads_queued (env : environment) (queued : list Z) (src n : Z) : bool :=
  existsb (fun j => overlaps src n (fst (extent env j)) (snd (extent env j))) queued.

(** One call seen by the monitor of the ring, which keeps the indices of
    the buffers that are with the driver.  A buffer goes to the driver by
    a VIDIOC_QBUF that succeeds and comes back by a VIDIOC_DQBUF that
    succeeds; a call that fails moves nothing.  The monitor refuses
    ([None]) the queueing of a buffer that is with the driver, the
    dequeueing of a buffer that is not, and a copy whose source bytes
    touch the mapping of a buffer that is with the driver or whose
    source is not a slot of the ring. *)
Definition ring_step (env : environment) (queued : list Z) (e : event)
  : option (list Z) :=
  match e with
  | Eqbuf _ b r =>
      if r <? 0 then Some queued
      else if is_queued (buf_index b) queued then None
      else Some (buf_index b :: queued)
  | Edqbuf _ r out =>
      if r <? 0 then Some queued
      else if is_queued (buf_index out) queued
           then Some (handed_out (buf_index out) queued)
           else None
  | Ememcpy _ (Some src) n =>
      if reads_queued env queued src n then None else Some queued
  | Ememcpy _ None _ => None
  | _ => Some queued
  end.

Fixpoint ring_run (env : environment) (queued : list Z) (t : trace)
  : option (list Z) :=
  match t with
  | [] => Some queued
  | e :: t' =>
      match ring_step env queued e with
      | Some queued' => ring_run env queued' t'
      | None => None
      end
  end.

(** The position of the first copy in a trace. *)
Fixpoint first_copy (t : trace) : nat :=
  match t with
  | [] => 0
  | Ememcpy _ _ _ :: _ => 0
  | _ :: t' => S (first_copy t')
  end.

(** * Properties *)

(** ** Running the monad *)

Lemma triple_eta {St R A} (x : outcome R A * St * trace) :
  x = (result_of x, store_of x, trace_of x).
Proof. destruct x as [[o s] t]. reflexivity. Qed.

Lemma occurs_In e t : occurs e t = true -> In e t.
Proof. unfold occurs. destruct (in_dec event_eq_dec e t); [auto | discriminate]. Qed.

Lemma occurs_not_In e t : occurs e t = false -> ~ In e t.
Proof. unfold occurs. destruct (in_dec event_eq_dec e t); [discriminate | auto]. Qed.

(** Symbolic execution of a body: the combinators are unfolded, the
    loops and the called functions are not. *)
Ltac step :=
  cbv beta iota delta
    [bind ret return_ get modify emit when call call_void on_state on_args
     upd_s upd_a the_s the_a run result_of store_of trace_of];
  cbn [fst snd app].

(** Looks an event up in a trace that is known up to its loops. *)
Ltac find_in :=
  first
    [ apply in_eq
    | apply in_cons; find_in
    | apply in_or_app; right; find_in
    | apply in_or_app; left; find_in ].

Section Keeps.

Context {St R X : Type}.
Variable f : St -> X.

Lemma keeps_ret {A} (a : A) : keeps f (@ret St R A a).
Proof. intro s. reflexivity. Qed.

Lemma keeps_return {A} (r : R) : keeps f (@return_ St R A r).
Proof. intro s. reflexivity. Qed.

Lemma keeps_get : keeps f (@get St R).
Proof. intro s. reflexivity. Qed.

Lemma keeps_emit e : keeps f (@emit St R e).
Proof. intro s. reflexivity. Qed.

Lemma keeps_modify g : (forall s, f (g s) = f s) -> keeps f (@modify St R g).
Proof. intros H s. apply H. Qed.

Lemma keeps_bind {A B} (m : M St R A) (k : A -> M St R B) :
  keeps f m -> (forall a, keeps f (k a)) -> keeps f (bind m k).
Proof.
  intros Hm Hk s. unfold bind. specialize (Hm s).
  destruct (m s) as [[[a|r] s1] t1]; cbn in *.
  - specialize (Hk a s1). destruct (k a s1) as [[o s2] t2]. cbn in *. congruence.
  - exact Hm.
Qed.

Lemma keeps_when c (body : M St R unit) : keeps f body -> keeps f (when c body).
Proof. intros H. destruct c; [exact H | apply keeps_ret]. Qed.

Lemma keeps_for_loop (body : Z -> M St R unit) n :
  (forall i, keeps f (body i)) -> forall i, keeps f (for_loop n i body).
Proof.
  intros Hb. induction n as [|n IH]; intro i; cbn [for_loop].
  - apply keeps_ret.
  - apply keeps_bind; [apply Hb | intros _; apply IH].
Qed.

Lemma keeps_call {R'} (body : M St R' unit) dflt :
  keeps f body -> keeps f (@call St R R' body dflt).
Proof.
  intros H s. specialize (H s). unfold call.
  destruct (body s) as [[[a|r] s1] t1]; exact H.
Qed.

End Keeps.

Lemma keeps_call_void {St X} (f : St -> X) (body : M St ending unit) :
  keeps f body -> keeps f (call_void body).
Proof.
  intros H. unfold call_void. apply keeps_bind.
  - apply keeps_call, H.
  - intros [| | |]; first [apply keeps_ret | apply keeps_return].
Qed.

Section Returns.

Context {St R : Type}.
Variable P : R -> Prop.

Lemma returns_ret {A} (a : A) : returns P (@ret St R A a).
Proof. intros s r H. discriminate. Qed.

Lemma returns_get : returns P (@get St R).
Proof. intros s r H. discriminate. Qed.

Lemma returns_emit e : returns P (@emit St R e).
Proof. intros s r H. discriminate. Qed.

Lemma returns_modify g : returns P (@modify St R g).
Proof. intros s r H. discriminate. Qed.

Lemma returns_return {A} r : P r -> returns P (@return_ St R A r).
Proof. intros Hr s r' H. cbn in H. congruence. Qed.

Lemma returns_bind {A B} (m : M St R A) (k : A -> M St R B) :
  returns P m -> (forall a, returns P (k a)) -> returns P (bind m k).
Proof.
  intros Hm Hk s r. unfold bind. specialize (Hm s).
  destruct (m s) as [[[a|r'] s1] t1]; cbn in *.
  - specialize (Hk a s1). destruct (k a s1) as [[o s2] t2]. cbn in *. apply Hk.
  - intros H. apply Hm. congruence.
Qed.

Lemma returns_when c (body : M St R unit) : returns P body -> returns P (when c body).
Proof. intros H. destruct c; [exact H | apply returns_ret]. Qed.

Lemma returns_for_loop (body : Z -> M St R unit) n :
  (forall i, returns P (body i)) -> forall i, returns P (for_loop n i body).
Proof.
  intros Hb. induction n as [|n IH]; intro i; cbn [for_loop].
  - apply returns_ret.
  - apply returns_bind; [apply Hb | intros _; apply IH].
Qed.

End Returns.

Create HintDb body discriminated.
#[export] Hint Resolve keeps_ret keeps_return keeps_get keeps_emit keeps_when
  keeps_for_loop returns_ret returns_get returns_emit returns_modify
  returns_when returns_for_loop : body.

(** Walks through the binds of a body. *)
Ltac walk :=
  repeat first
    [ apply keeps_bind; [ | intro ]
    | apply returns_bind; [ | intro ]
    | apply keeps_when
    | apply returns_when
    | apply keeps_modify; intros [? ?]; reflexivity
    | apply keeps_modify; intros ?; reflexivity
    | apply returns_return; reflexivity
    | solve [ auto with body ] ].

Lemma map_buffer_keeps env i : keeps outside_ring (map_buffer env i).
Proof. unfold map_buffer, upd_s, the_s. walk. Qed.

Lemma queue_buffer_keeps env i : keeps outside_ring (queue_buffer env i).
Proof. unfold queue_buffer, upd_s, the_s. walk. Qed.

Lemma map_buffer_returns env i : returns (fun r => r = 0) (map_buffer env i).
Proof. unfold map_buffer, upd_s, the_s. walk. Qed.

Lemma queue_buffer_returns env i : returns (fun r => r = 0) (queue_buffer env i).
Proof. unfold queue_buffer, upd_s, the_s. walk. Qed.

Lemma ring_loop_facts (body : Z -> M frame Z unit) n i fr o fr' t :
  (forall j, keeps outside_ring (body j)) ->
  (forall j, returns (fun r => r = 0) (body j)) ->
  for_loop n i body fr = (o, fr', t) ->
  outside_ring fr' = outside_ring fr /\ (forall r, o = Return r -> r = 0).
Proof.
  intros Hk Hr E. split.
  - pose proof (keeps_for_loop outside_ring body n Hk i fr) as H.
    rewrite E in H. exact H.
  - intros r ->. apply (returns_for_loop (fun r => r = 0) body n Hr i fr).
    rewrite E. reflexivity.
Qed.

(** ** Goal-directed execution *)

Section Wp.

Context {St R : Type}.

Lemma wp_run {A} (m : M St R A) s Q :
  (forall o s' t, m s = (o, s', t) -> Q o s' t) -> wp m s Q.
Proof. intros H. apply H, triple_eta. Qed.

Lemma wp_eq {A} (m : M St R A) s Q o s' t :
  wp m s Q -> m s = (o, s', t) -> Q o s' t.
Proof. unfold wp. intros H E. rewrite E in H. exact H. Qed.

Lemma wp_mono {A} (m : M St R A) s (Q Q' : outcome R A -> St -> trace -> Prop) :
  wp m s Q -> (forall o s' t, Q o s' t -> Q' o s' t) -> wp m s Q'.
Proof. unfold wp. intros H HQ. apply HQ, H. Qed.

Lemma wp_ret {A} (a : A) (s : St) (Q : outcome R A -> St -> trace -> Prop) :
  Q (Next a) s [] -> wp (ret a) s Q.
Proof. exact (fun H => H). Qed.

Lemma wp_return {A} (r : R) (s : St) (Q : outcome R A -> St -> trace -> Prop) :
  Q (Return r) s [] -> wp (return_ r) s Q.
Proof. exact (fun H => H). Qed.

Lemma wp_bind {A B} (m : M St R A) (k : A -> M St R B) s Q :
  wp m s (then_ k Q) -> wp (bind m k) s Q.
Proof.
  unfold wp, then_, bind. destruct (m s) as [[[a|r] s1] t1]; cbn.
  - unfold wp. destruct (k a s1) as [[o s2] t2]. cbn. exact (fun H => H).
  - exact (fun H => H).
Qed.

Lemma wp_emit {B} e (k : unit -> M St R B) s Q :
  wp (k tt) s (fun o s' t => Q o s' (e :: t)) -> wp (bind (emit e) k) s Q.
Proof. intros H. apply wp_bind. exact H. Qed.

Lemma wp_modify {B} g (k : unit -> M St R B) s Q :
  wp (k tt) (g s) Q -> wp (bind (modify g) k) s Q.
Proof. intros H. apply wp_bind. exact H. Qed.

Lemma wp_get {B} (k : St -> M St R B) s Q :
  wp (k s) s Q -> wp (bind get k) s Q.
Proof. intros H. apply wp_bind. exact H. Qed.

Lemma wp_when {B} c (body : M St R unit) (k : unit -> M St R B) s Q :
  (c = true -> wp body s (then_ k Q)) ->
  (c = false -> wp (k tt) s Q) ->
  wp (bind (when c body) k) s Q.
Proof.
  intros Ht Hf. apply wp_bind. destruct c.
  - apply Ht. reflexivity.
  - apply Hf. reflexivity.
Qed.

Lemma wp_emit_last e s (Q : outcome R unit -> St -> trace -> Prop) :
  Q (Next tt) s [e] -> wp (emit e) s Q.
Proof. exact (fun H => H). Qed.

Lemma wp_modify_last g s (Q : outcome R unit -> St -> trace -> Prop) :
  Q (Next tt) (g s) [] -> wp (modify g) s Q.
Proof. exact (fun H => H). Qed.

Lemma wp_when_last c (body : M St R unit) s (Q : outcome R unit -> St -> trace -> Prop) :
  (c = true -> wp body s Q) ->
  (c = false -> Q (Next tt) s []) ->
  wp (when c body) s Q.
Proof. intros Ht Hf. destruct c; [apply Ht | apply Hf]; reflexivity. Qed.

End Wp.

Lemma wp_upd_s {R B} g (k : unit -> M frame R B) s a Q :
  wp (k tt) (g s, a) Q -> wp (bind (upd_s g) k) (s, a) Q.
Proof. intros H. unfold upd_s. apply wp_modify. exact H. Qed.

Lemma wp_upd_a {R B} g (k : unit -> M frame R B) s a Q :
  wp (k tt) (s, g a) Q -> wp (bind (upd_a g) k) (s, a) Q.
Proof. intros H. unfold upd_a. apply wp_modify. exact H. Qed.

Lemma wp_upd_s_last {R} g s a (Q : outcome R unit -> frame -> trace -> Prop) :
  Q (Next tt) (g s, a) [] -> wp (upd_s g) (s, a) Q.
Proof. exact (fun H => H). Qed.

Lemma wp_upd_a_last {R} g s a (Q : outcome R unit -> frame -> trace -> Prop) :
  Q (Next tt) (s, g a) [] -> wp (upd_a g) (s, a) Q.
Proof. exact (fun H => H). Qed.

Lemma wp_the_s {R B} (k : state -> M frame R B) s a Q :
  wp (k s) (s, a) Q -> wp (bind the_s k) (s, a) Q.
Proof. intros H. apply wp_bind. exact H. Qed.

Lemma wp_the_a {R B} (k : args -> M frame R B) s a Q :
  wp (k a) (s, a) Q -> wp (bind the_a k) (s, a) Q.
Proof. intros H. apply wp_bind. exact H. Qed.

Global Opaque wp.

(** One straight-line statement. *)
Ltac wp_step :=
  first
    [ apply wp_emit
    | apply wp_upd_s
    | apply wp_upd_a
    | apply wp_the_s
    | apply wp_the_a
    | apply wp_modify
    | apply wp_get
    | apply wp_return
    | apply wp_ret
    | apply wp_emit_last
    | apply wp_upd_s_last
    | apply wp_upd_a_last
    | apply wp_modify_last ];
  cbv beta iota delta [then_].

Ltac wp_steps := cbv beta iota delta [then_]; repeat wp_step.

(** An early exit [when c (... return r)]: [tac] settles the branch that
    leaves. *)
Ltac wp_branch tac :=
  apply wp_when; intros ?; [wp_steps; tac | wp_steps].

(** Meets a loop over the ring in the middle of [init]. *)
Ltac wp_ring_loop Hk Hr :=
  apply wp_bind, wp_run;
  let o := fresh "o" in
  let s := fresh "s" in
  let a := fresh "a" in
  let t := fresh "t" in
  let E := fresh "E" in
  let K := fresh "K" in
  let Z0 := fresh "Z0" in
  intros o [s a] t E;
  destruct (ring_loop_facts _ _ _ _ _ _ _ Hk Hr E) as [K Z0];
  unfold outside_ring in K; cbn [fst snd] in K;
  destruct o as [[]|?]; cbv beta iota delta [then_].

(** ** [quit] and [main] in terms of their parts *)

Lemma unmap_all_spec s :
  unmap_all s
  = (Next tt, s, map (fun i => Emunmap (st_mem s i) (buf_length (st_buf s))) slots).
Proof. reflexivity. Qed.

Lemma quit_spec env s : quit env s = (Next tt, s, quit_events env s).
Proof.
  unfold quit, quit_events. step.
  destruct (env_streamoff env <? 0), (negb (st_fd s =? 0)),
    (negb (st_texture s =? NULL)), (negb (st_renderer s =? NULL)),
    (negb (st_window s =? NULL)); reflexivity.
Qed.

Lemma main_parse_stops env fuel argv s0 a0 e a tp :
  parse_args argv a0 = (Return e, a, tp) -> e <> Returned ->
  main env fuel argv (s0, a0) = (Return e, (s0, a), tp).
Proof.
  intros Hp He. unfold main. step. rewrite Hp. step.
  destruct e; try congruence; rewrite ?app_nil_r; reflexivity.
Qed.

Lemma main_init_fails env fuel argv s0 a0 a tp s1 a1 ti :
  parse_args argv a0 = (Next tt, a, tp) ->
  init env (s0, a) = (Return 0, (s1, a1), ti) ->
  main env fuel argv (s0, a0)
  = (Return (Exited EXIT_FAILURE), (s1, a1), tp ++ ti ++ quit_events env s1).
Proof.
  intros Hp Hi. unfold main. step. rewrite Hp. step. rewrite Hi. step.
  change (0 =? 0) with true. step.
  rewrite quit_spec. step. rewrite !app_nil_r. reflexivity.
Qed.

(** ** Capabilities (C9) *)

Lemma quit_events_configure_nothing env s :
  forallb (fun e => negb (configures e)) (quit_events env s) = true.
Proof.
  unfold quit_events.
  destruct (env_streamoff env <? 0), (negb (st_fd s =? 0)),
    (negb (st_texture s =? NULL)), (negb (st_renderer s =? NULL)),
    (negb (st_window s =? NULL)); reflexivity.
Qed.

Lemma init_without_capability env s0 a :
  0 <= env_open env (ar_videodevice a) ->
  0 <= fst (env_querycap env) ->
  Z.land (snd (env_querycap env)) V4L2_CAP_VIDEO_CAPTURE = 0
  \/ Z.land (snd (env_querycap env)) V4L2_CAP_STREAMING = 0 ->
  exists msg,
    init env (s0, a)
    = (Return 0, (probed env a, a),
       [Eopen (ar_videodevice a) (env_open env (ar_videodevice a));
        Equerycap (env_open env (ar_videodevice a)) (fst (env_querycap env));
        Estderr msg]).
Proof.
  intros Hfd Hq Hcap. unfold init, probed. step.
  destruct (Z.ltb_spec (env_open env (ar_videodevice a)) 0) as [?|_]; [lia|].
  step.
  destruct (Z.ltb_spec (fst (env_querycap env)) 0) as [?|_]; [lia|].
  step.
  destruct (Z.eqb_spec (Z.land (snd (env_querycap env)) V4L2_CAP_VIDEO_CAPTURE) 0)
    as [E1|N1]; step.
  - eexists. reflexivity.
  - destruct Hcap as [?|E2]; [contradiction|].
    rewrite E2. step. eexists. reflexivity.
Qed.

(** C9.  When the device opens and answers the capability query, but
    the answer lacks the video-capture bit or the streaming bit, [init]
    returns 0 after two calls (open, query) and one message on the error
    stream; [main] then runs [quit] and returns [EXIT_FAILURE], and after
    the command line has been read the run contains no set-format call
    and no buffer request, query, mapping or queueing. *)
Theorem missing_capability_fails_init env fuel argv s0 a0 a tp :
  parse_args argv a0 = (Next tt, a, tp) ->
  0 <= env_open env (ar_videodevice a) ->
  0 <= fst (env_querycap env) ->
  Z.land (snd (env_querycap env)) V4L2_CAP_VIDEO_CAPTURE = 0
  \/ Z.land (snd (env_querycap env)) V4L2_CAP_STREAMING = 0 ->
  exists msg rest,
    run (init env) 1 (s0, a)
    = (0, (probed env a, a),
       [Eopen (ar_videodevice a) (env_open env (ar_videodevice a));
        Equerycap (env_open env (ar_videodevice a)) (fst (env_querycap env));
        Estderr msg])
    /\ run (main env fuel argv) Returned (s0, a0)
       = (Exited EXIT_FAILURE, (probed env a, a), tp ++ rest)
    /\ In (Estderr msg) rest
    /\ forallb (fun e => negb (configures e)) rest = true.
Proof.
  intros Hp Hfd Hq Hcap.
  destruct (init_without_capability env s0 a Hfd Hq Hcap) as [msg Hi].
  exists msg. eexists. split; [|split; [|split]].
  - unfold run. rewrite Hi. reflexivity.
  - unfold run. rewrite (main_init_fails _ _ _ _ _ _ _ _ _ _ Hp Hi). reflexivity.
  - cbn. auto.
  - rewrite forallb_app, quit_events_configure_nothing. reflexivity.
Qed.

(** ** The recorded resolution (C1) *)

(** Whatever the driver grants, a successful [init] records the
    resolution of the request, leaves the request as it was, and creates
    the texture with it. *)
Lemma init_records_request env s0 a :
  wp (init env) (s0, a)
     (fun o fr t =>
        o = Return 1 ->
        st_width (fst fr) = ar_width a /\ st_height (fst fr) = ar_height a /\ snd fr = a
        /\ In (ESDL_CreateTexture (st_renderer (fst fr)) (ar_width a) (ar_height a)
                                  (st_texture (fst fr))) t).
Proof.
  unfold init. wp_steps.
  do 5 wp_branch discriminate.
  cbn [st_fmt set_fmt pix_width pix_height]. rewrite !Z.eqb_refl. cbn [negb orb].
  apply wp_when; intros ?; [discriminate|]. wp_steps.
  wp_branch discriminate.
  wp_ring_loop (map_buffer_keeps env) (map_buffer_returns env).
  2:{ intros H6. injection H6 as ->. exfalso.
      match goal with H : forall r, _ = Return r -> r = 0 |- _ =>
        specialize (H _ eq_refl); discriminate end. }
  wp_ring_loop (queue_buffer_keeps env) (queue_buffer_returns env).
  2:{ intros H6. injection H6 as ->. exfalso.
      match goal with H : forall r, Return 1 = Return r -> r = 0 |- _ =>
        specialize (H _ eq_refl); discriminate end. }
  wp_steps.
  do 2 wp_branch discriminate.
  wp_branch discriminate.
  intros _. cbn [fst snd st_width st_height set_texture set_renderer set_window].
  injection K0 as _ _ _ _ _ _ _ W1 H1' A1.
  injection K as _ _ _ _ _ _ _ W0 H0' A0.
  cbn in W0, H0'. rewrite W1, H1', W0, H0'.
  repeat split; try congruence.
  find_in.
Qed.

Ltac by_run := vm_compute; reflexivity.
Ltac seen := apply occurs_In; by_run.
Ltac unseen := apply occurs_not_In; by_run.

(** C1, at a run.  The camera is asked for 1920x1080 and its driver
    settles on 1280x720, with buffers of 1280*720*2 bytes.  The program
    never learns it: the message about the resolution in use is not
    printed, the state records 1920x1080, the texture is created
    1920x1080, and each frame copies 1920*1080*2 = 4147200 bytes out of a
    buffer of 1843200. *)
Theorem granted_resolution_is_dropped :
  let out := Sample.run_main downscaler 2 wide_request in
  let s := fst (snd (fst out)) in
  let t := snd out in
  fst (fst out) = Exited EXIT_SUCCESS
  /\ In (Es_fmt 3 (mk_format 1 1920 1080 0 V4L2_PIX_FMT_YUYV) 0
                  (mk_format 1 1280 720 1 V4L2_PIX_FMT_YUYV)) t
  /\ ~ In (Estderr "Using resolution %dx%d") t
  /\ st_width s = 1920 /\ st_height s = 1080
  /\ In (ESDL_CreateTexture 8192 1920 1080 12288) t
  /\ In (Ememcpy 0 (Some Sample.base) 4147200) t.
Proof.
  cbv zeta.
  split; [by_run|]. split; [seen|]. split; [unseen|]. split; [by_run|].
  split; [by_run|]. split; seen.
Qed.

(** ** The ring (C2) *)

Section Emits.

Context {St R X : Type}.
Variable proj : event -> list X.
Variable P : R -> Prop.

Lemma emits_eq {A} (m : M St R A) L L' : emits proj P m L' -> L' = L -> emits proj P m L.
Proof. intros H <-. exact H. Qed.

Lemma emits_ret {A} (a : A) : emits proj P (@ret St R A a) [].
Proof. intro s. reflexivity. Qed.

Lemma emits_get : emits proj P (@get St R) [].
Proof. intro s. reflexivity. Qed.

Lemma emits_modify g : emits proj P (@modify St R g) [].
Proof. intro s. reflexivity. Qed.

Lemma emits_emit e L : proj e = L -> emits proj P (@emit St R e) L.
Proof. intros <- s. cbn. apply app_nil_r. Qed.

Lemma emits_return {A} r : emits proj P (@return_ St R A r) [].
Proof. intro s. cbn. split; intros _; [exists 0%nat|]; reflexivity. Qed.

Lemma emits_bind {A B} (m : M St R A) (k : A -> M St R B) L1 L2 :
  emits proj P m L1 -> returns P m -> (forall a, emits proj P (k a) L2) ->
  emits proj P (bind m k) (L1 ++ L2).
Proof.
  intros Hm Hr Hk s. specialize (Hm s). specialize (Hr s). unfold bind.
  destruct (m s) as [[[a|r] s1] t1]; cbn in *.
  - specialize (Hk a s1). destruct (k a s1) as [[[b|r] s2] t2]; cbn in *.
    + rewrite flat_map_app. congruence.
    + rewrite flat_map_app, Hm. destruct Hk as [Hp Hn]. split.
      * intros Pr. destruct (Hp Pr) as [n ->].
        exists (List.length L1 + n)%nat. symmetry. apply firstn_app_2.
      * intros Pr. rewrite (Hn Pr). reflexivity.
  - destruct Hm as [Hp Hn]. specialize (Hr r eq_refl). split.
    + intros _. destruct (Hp Hr) as [n ->].
      exists (Nat.min n (List.length L1)).
      rewrite firstn_app.
      replace (Nat.min n (List.length L1) - List.length L1)%nat with 0%nat by lia.
      cbn [firstn]. rewrite app_nil_r.
      destruct (Nat.le_gt_cases n (List.length L1)).
      * rewrite Nat.min_l by assumption. reflexivity.
      * rewrite Nat.min_r by lia. rewrite !firstn_all2 by lia. reflexivity.
    + intros N. contradiction.
Qed.

Lemma emits_when c (body : M St R unit) :
  emits proj P body [] -> emits proj P (when c body) [].
Proof. intros H. destruct c; [exact H | apply emits_ret]. Qed.

Lemma emits_for_loop (body : Z -> M St R unit) (L : Z -> list X) n :
  (forall i, emits proj P (body i) (L i)) ->
  (forall i, returns P (body i)) ->
  forall i, emits proj P (for_loop n i body) (flat_map L (zrange i n)).
Proof.
  intros Hb Hr. induction n as [|n IH]; intro i; cbn [for_loop zrange flat_map].
  - apply emits_ret.
  - apply emits_bind; [apply Hb | apply Hr | intros _; apply IH].
Qed.

Lemma emits_wp {A} (m : M St R A) L :
  (forall s,
      wp m s (fun o _ t =>
                match o with
                | Next _ => flat_map proj t = L
                | Return r => (P r -> exists k, flat_map proj t = firstn k L)
                              /\ (~ P r -> flat_map proj t = L)
                end)) ->
  emits proj P m L.
Proof.
  intros H s. specialize (H s).
  exact (wp_eq _ _ _ _ _ _ H (triple_eta (m s))).
Qed.

End Emits.

Ltac fails_after k :=
  cbn; split; [intros _; exists k; reflexivity | intros N; exfalso; apply N; reflexivity].

Lemma map_buffer_emits env i :
  emits ring_op_of (fun r => r = 0) (map_buffer env i) [Query i; Map].
Proof.
  apply emits_wp. intros [s a]. unfold map_buffer. wp_steps.
  wp_branch ltac:(fails_after 1%nat).
  apply wp_when_last; intros _; wp_steps.
  - fails_after 2%nat.
  - reflexivity.
Qed.

Lemma queue_buffer_emits env i :
  emits ring_op_of (fun r => r = 0) (queue_buffer env i) [Queue i].
Proof.
  apply emits_wp. intros [s a]. unfold queue_buffer. wp_steps.
  apply wp_when_last; intros _; wp_steps.
  - fails_after 1%nat.
  - reflexivity.
Qed.

Lemma emits_bind_nil {St R X A B} (proj : event -> list X) (P : R -> Prop)
  (m : M St R A) (k : A -> M St R B) :
  emits proj P m [] -> returns P m -> (forall a, emits proj P (k a) []) ->
  emits proj P (bind m k) [].
Proof. intros Hm Hr Hk. exact (emits_bind proj P m k [] [] Hm Hr Hk). Qed.

(** Walks through a body for [emits]. *)
Ltac walk_emits :=
  repeat first
    [ match goal with
      | |- emits _ _ (for_loop _ _ _) _ => eapply emits_for_loop; [ intro | intro ]
      | |- emits _ _ (when _ _) _ => apply emits_when
      | |- emits _ _ (bind _ _) [] => apply emits_bind_nil; [ | | intro ]
      | |- emits _ _ (bind _ _) _ => eapply emits_bind; [ | | intro ]
      | |- returns _ (for_loop _ _ _) => apply returns_for_loop; intro
      end
    | apply map_buffer_emits
    | apply queue_buffer_emits
    | apply map_buffer_returns
    | apply queue_buffer_returns
    | apply emits_emit; cbn; reflexivity
    | apply emits_return
    | apply emits_ret
    | apply emits_get
    | apply emits_modify
    | progress walk ].

Lemma init_emits env :
  emits ring_op_of (fun r => r = 0) (init env) ring_plan.
Proof.
  eapply emits_eq.
  - unfold init, upd_s, upd_a, the_s, the_a. walk_emits.
  - reflexivity.
Qed.

Lemma quit_ring_ops env s :
  ring_ops (quit_events env s)
  = map (fun i => Unmap (st_mem s i) (buf_length (st_buf s))) slots.
Proof.
  unfold quit_events.
  destruct (env_streamoff env <? 0), (negb (st_fd s =? 0)),
    (negb (st_texture s =? NULL)), (negb (st_renderer s =? NULL)),
    (negb (st_window s =? NULL)); reflexivity.
Qed.

(** C2, against the claim.  The driver grants 8 buffers.  [init] still
    asks about buffer 8, the driver refuses, [init] fails, streaming is
    never started, and [quit] unmaps 16 slots. *)
Lemma eight_granted_sixteen_walked :
  let out := Sample.run_main eight_buffers 2 ["camera"] in
  granted_count (snd out) = Some 8
  /\ keeps_to_grant (snd out) = false
  /\ In (Equerybuf 3 (request_buffer 8) (-1)) (snd out)
  /\ fst (fst out) = Exited EXIT_FAILURE
  /\ forallb (fun e => match e with Estreamon _ _ => false | _ => true end) (snd out) = true
  /\ unmap_count (snd out) = 16.
Proof.
  cbv zeta.
  split; [by_run|]. split; [by_run|]. split; [seen|]. split; [by_run|].
  split; by_run.
Qed.

(** ** The steady-state loop *)

Lemma call_void_spec {St} (body : M St ending unit) s :
  call_void body s
  = match body s with
    | (Next _, s', t) | (Return Returned, s', t) => (Next tt, s', t)
    | (Return e, s', t) => (Return e, s', t)
    end.
Proof.
  unfold call_void. step.
  destruct (body s) as [[[[]|[| | |]] s'] t]; cbn; rewrite app_nil_r; reflexivity.
Qed.

Lemma drain_spec pending s :
  result_of (drain pending s) = Next tt
  /\ forallb (fun e => negb (touches_buffer e)) (trace_of (drain pending s)) = true
  /\ outside_frame (store_of (drain pending s)) = outside_frame s
  /\ st_buf (store_of (drain pending s)) = st_buf s.
Proof.
  revert s. induction pending as [|e rest IH]; intro s.
  - cbn. auto.
  - cbn [drain]. unfold bind.
    destruct (handle_event e s) as [[o1 s1] t1] eqn:E1.
    assert (o1 = Next tt /\ forallb (fun e => negb (touches_buffer e)) t1 = true
            /\ outside_frame s1 = outside_frame s /\ st_buf s1 = st_buf s)
      as (-> & Ht & Hs & Hb).
    { unfold handle_event in E1. destruct e as [|sym|]; revert E1; step.
      - intros [= <- <- <-]. auto.
      - destruct (sym =? SDLK_q); step; intros [= <- <- <-]; auto.
      - intros [= <- <- <-]. auto. }
    specialize (IH s1). destruct (drain rest s1) as [[o2 s2] t2].
    cbn in *. destruct IH as (-> & Ht2 & Hs2 & Hb2).
    rewrite forallb_app, Ht, Ht2. repeat split; congruence.
Qed.

Lemma handle_events_spec env n s :
  exists s1 t1,
    call_void (handle_events env n) s = (Next tt, s1, t1)
    /\ forallb (fun e => negb (touches_buffer e)) t1 = true
    /\ outside_frame s1 = outside_frame s.
Proof.
  destruct (drain_spec (env_poll_events env n) s) as (Hr & Ht & Hs & _).
  rewrite call_void_spec. unfold handle_events.
  destruct (drain (env_poll_events env n) s) as [[o s1] t1]. cbn in *. subst o.
  exists s1, t1. auto.
Qed.

(** ** A failed dequeue (C5) *)

Lemma render_dequeue_fails env n s :
  fst (env_dqbuf env n dequeue_request) < 0 ->
  render env n s
  = (Return Returned, set_buf (snd (env_dqbuf env n dequeue_request)) s,
     [Edqbuf (st_fd s) (fst (env_dqbuf env n dequeue_request))
             (snd (env_dqbuf env n dequeue_request));
      Estderr "Failed to dequeue buffer %d"]).
Proof.
  intros H. unfold render. step. cbn [st_buf set_buf st_fd].
  destruct (Z.ltb_spec (fst (env_dqbuf env n dequeue_request)) 0) as [_|?]; [|lia].
  step. reflexivity.
Qed.

(** C5.  When the dequeue of the turn [n] fails, [render] prints one
    message and returns: its only call is the failed dequeue, so nothing
    is copied and nothing is queued, and the quit flag is as
    [handle_events] left it.  The loop then goes on with the turn [n+1]:
    a turn of [main_loop] that starts with the flag down is the events of
    the turn, the failed dequeue, and the rest of the loop from the turn
    [n+1] on. *)
Theorem failed_dequeue_skips_one_frame env fuel n s :
  fst (env_dqbuf env n dequeue_request) < 0 ->
  st_quit s = 0 ->
  let r := fst (env_dqbuf env n dequeue_request) in
  let out := snd (env_dqbuf env n dequeue_request) in
  let polled := handle_events env n s in
  let s1 := store_of polled in
  let dequeue := [Edqbuf (st_fd s1) r out; Estderr "Failed to dequeue buffer %d"] in
  let rest := main_loop env fuel (S n) (set_buf out s1) in
  run (render env n) Returned s1 = (Returned, set_buf out s1, dequeue)
  /\ st_quit (set_buf out s1) = st_quit s1
  /\ forallb (fun e => negb (copies_or_queues e)) dequeue = true
  /\ main_loop env (S fuel) n s
     = (result_of rest, store_of rest, trace_of polled ++ dequeue ++ trace_of rest).
Proof.
  intros Hfail Hq. cbv zeta.
  split; [|split; [|split]].
  - unfold run. rewrite (render_dequeue_fails env n _ Hfail). reflexivity.
  - reflexivity.
  - reflexivity.
  - cbn [main_loop]. unfold bind at 1. cbn [get]. rewrite Hq. cbn [Z.eqb app].
    unfold bind at 1.
    destruct (handle_events_spec env n s) as (s1 & t1 & E1 & _ & _).
    rewrite E1.
    assert (handle_events env n s = (Next tt, s1, t1)) as E1'.
    { rewrite call_void_spec in E1. unfold handle_events in *.
      destruct (drain_spec (env_poll_events env n) s) as (Hr & _).
      destruct (drain (env_poll_events env n) s) as [[o s'] t']. cbn in Hr. subst o.
      congruence. }
    rewrite E1'. cbn [store_of trace_of result_of fst snd].
    unfold bind. rewrite call_void_spec, (render_dequeue_fails env n _ Hfail).
    destruct (main_loop env fuel (S n) (set_buf (snd (env_dqbuf env n dequeue_request)) s1))
      as [[o3 s3] t3].
    reflexivity.
Qed.

(** ** A stride that does not fit (C6) *)

Lemma quot_within (a b : Z) : b <> 0 -> Z.abs (Z.quot a b) <= Z.abs a.
Proof.
  intros Hb. rewrite <- Z.quot_abs by assumption.
  rewrite Z.quot_div_nonneg by lia.
  apply Z.div_le_upper_bound; nia.
Qed.

Lemma int_quotient_not_two pitch w q :
  Int.INT_MIN <= pitch <= - Int.INT_MIN - 1 ->
  Int.div pitch w = Some q -> q <> 2 ->
  (Int.to_size q =? sizeof_Uint16) = false.
Proof.
  unfold Int.div, Int.INT_MIN, Int.to_size, sizeof_Uint16. intros Hp Hd Hq.
  destruct (Z.eqb_spec w 0) as [|Hw]; [discriminate|].
  destruct ((pitch =? - 2 ^ 31) && (w =? -1)); [discriminate|].
  injection Hd as <-.
  pose proof (quot_within pitch w Hw) as Hb.
  apply Z.eqb_neq. intros E.
  destruct (Z.le_gt_cases 0 (Z.quot pitch w)) as [Hpos|Hneg].
  - rewrite Z.mod_small in E by lia. contradiction.
  - assert (Z.quot pitch w mod 2 ^ 64 = Z.quot pitch w + 2 ^ 64) as E'.
    { symmetry. apply Z.mod_unique with (q := -1); lia. }
    lia.
Qed.

(** C6.  The dequeue of the turn [n] succeeds and the quotient of the
    pitch by the recorded width is defined and is not 2.  Then [render]
    prints the mismatch, copies nothing, queues the buffer that it has
    just dequeued (and prints a message when the driver refuses it),
    presents the texture and returns normally; the quit flag is
    untouched. *)
Theorem stride_mismatch_skips_copy_and_requeues env n s q :
  0 <= fst (env_dqbuf env n dequeue_request) ->
  Int.INT_MIN <= env_lock_texture env n <= - Int.INT_MIN - 1 ->
  Int.div (env_lock_texture env n) (st_width s) = Some q ->
  q <> 2 ->
  let r := fst (env_dqbuf env n dequeue_request) in
  let out := snd (env_dqbuf env n dequeue_request) in
  let r' := fst (env_qbuf env n out) in
  let s' := set_buf (snd (env_qbuf env n out)) (set_buf out s) in
  let t :=
    [Edqbuf (st_fd s) r out;
     ESDL_LockTexture (st_texture s) (env_lock_texture env n);
     Estderr "mismatch between texture size and buffer size";
     ESDL_UnlockTexture (st_texture s);
     Eqbuf (st_fd s) out r']
    ++ (if r' <? 0 then [Estderr "Failed to requeue buffer %d"] else [])
    ++ [ESDL_RenderClear; ESDL_RenderCopy; ESDL_RenderPresent] in
  render env n s = (Next tt, s', t)
  /\ forallb (fun e => negb (copies e)) t = true
  /\ st_quit s' = st_quit s.
Proof.
  intros Hok Hint Hdiv Hq. cbv zeta.
  pose proof (int_quotient_not_two _ _ _ Hint Hdiv Hq) as Hmis.
  split; [|split].
  - unfold render. step. cbn [st_buf set_buf st_fd st_texture st_width].
    destruct (Z.ltb_spec (fst (env_dqbuf env n dequeue_request)) 0) as [?|_]; [lia|].
    step. cbn [st_buf set_buf st_fd st_texture st_width].
    rewrite Hdiv. step. rewrite Hmis. cbn [negb]. step.
    cbn [st_buf set_buf st_fd st_texture st_width].
    destruct (fst (env_qbuf env n (snd (env_dqbuf env n dequeue_request))) <? 0);
      step; reflexivity.
  - destruct (fst (env_qbuf env n (snd (env_dqbuf env n dequeue_request))) <? 0);
      reflexivity.
  - reflexivity.
Qed.

Lemma main_loop_turn env fuel n s :
  st_quit s = 0 ->
  exists s1 t1,
    call_void (handle_events env n) s = (Next tt, s1, t1)
    /\ forallb (fun e => negb (touches_buffer e)) t1 = true
    /\ outside_frame s1 = outside_frame s
    /\ main_loop env (S fuel) n s
       = match render env n s1 with
         | (Next _, s2, t2) | (Return Returned, s2, t2) =>
             (result_of (main_loop env fuel (S n) s2),
              store_of (main_loop env fuel (S n) s2),
              t1 ++ t2 ++ trace_of (main_loop env fuel (S n) s2))
         | (Return e, s2, t2) => (Return e, s2, t1 ++ t2)
         end.
Proof.
  intros Hq.
  destruct (handle_events_spec env n s) as (s1 & t1 & E1 & Ht1 & Hs1).
  exists s1, t1. repeat split; try assumption.
  cbn [main_loop]. unfold bind at 1. cbn [get]. rewrite Hq. cbn [Z.eqb].
  unfold bind at 1. rewrite E1. unfold bind. rewrite call_void_spec.
  destruct (render env n s1) as [[[[]|[| | |]] s2] t2];
    try destruct (main_loop env fuel (S n) s2) as [[o3 s3] t3]; reflexivity.
Qed.

Lemma main_loop_done env fuel n s :
  st_quit s <> 0 -> main_loop env (S fuel) n s = (Next tt, s, []).
Proof.
  intros Hq. cbn [main_loop]. unfold bind. cbn [get].
  destruct (Z.eqb_spec (st_quit s) 0); [contradiction | reflexivity].
Qed.

(** ** The command line (C10) *)

(** One turn of the loop of [parse_args]. *)
Lemma parse_arg_spec argv i a :
  exists t',
    trace_of (parse_arg argv i a) = Eargv_flag i (nth i argv "") :: t'
    /\ forallb (fun e => negb (at_loop_head e)) t' = true
    /\ match result_of (parse_arg argv i a) with
       | Next i' =>
           (i <= i' <= S i)%nat
           /\ (takes_value (nth i argv "") = true ->
               i' = S i
               /\ In (Eargv_value (S i) (nth_error argv (S i))) t'
               /\ (takes_number (nth i argv "") = false ->
                   ar_videodevice (store_of (parse_arg argv i a)) = nth_error argv (S i))
               /\ (takes_number (nth i argv "") = true ->
                   nth_error argv (S i) <> None))
       | Return e =>
           e <> Out_of_fuel /\ e <> Returned
           /\ (takes_value (nth i argv "") = true ->
               takes_number (nth i argv "") = true
               /\ nth_error argv (S i) = None
               /\ e = Undefined "atoi(NULL)"
               /\ In (Eargv_value (S i) None) t'
               /\ In (Eatoi None) t')
       end.
Proof.
  unfold parse_arg, takes_value, takes_number, argv_next, call_atoi, usage.
  destruct (Ascii.eqb (char_at (nth i argv "") 0) "-"); cbn [andb].
  2:{ step. eexists. split; [reflexivity|]. split; [reflexivity|].
      split; [lia | discriminate]. }
  destruct (Ascii.eqb (char_at (nth i argv "") 1) "d") eqn:Ed.
  { step. eexists. split; [reflexivity|]. split; [reflexivity|].
    split; [lia|]. intros _. split; [reflexivity|]. split; [left; reflexivity|].
    assert (Ascii.eqb (char_at (nth i argv "") 1) "W" = false) as ->.
    { apply Ascii.eqb_eq in Ed. rewrite Ed. reflexivity. }
    assert (Ascii.eqb (char_at (nth i argv "") 1) "H" = false) as ->.
    { apply Ascii.eqb_eq in Ed. rewrite Ed. reflexivity. }
    split; [reflexivity | discriminate]. }
  destruct (Ascii.eqb (char_at (nth i argv "") 1) "W") eqn:EW.
  { step. destruct (nth_error argv (S i)) as [v|]; step; eexists;
      (split; [reflexivity|]); (split; [reflexivity|]).
    - split; [lia|]. intros _. split; [reflexivity|]. split; [left; reflexivity|].
      split; [discriminate | intros _; discriminate].
    - split; [discriminate|]. split; [discriminate|]. intros _.
      repeat split; cbn; auto. }
  destruct (Ascii.eqb (char_at (nth i argv "") 1) "H") eqn:EH.
  { step. destruct (nth_error argv (S i)) as [v|]; step; eexists;
      (split; [reflexivity|]); (split; [reflexivity|]).
    - split; [lia|]. intros _. split; [reflexivity|]. split; [left; reflexivity|].
      split; [discriminate | intros _; discriminate].
    - split; [discriminate|]. split; [discriminate|]. intros _.
      repeat split; cbn; auto. }
  cbn [orb].
  destruct (Ascii.eqb (char_at (nth i argv "") 1) "f").
  { step. eexists. split; [reflexivity|]. split; [reflexivity|].
    split; [lia | discriminate]. }
  destruct (Ascii.eqb (char_at (nth i argv "") 1) "h").
  { step. eexists. split; [reflexivity|]. split; [reflexivity|].
    split; [discriminate|]. split; discriminate. }
  step. eexists. split; [reflexivity|]. split; [reflexivity|].
  split; [lia | discriminate].
Qed.

Lemma bind_eq {St R A B} (m : M St R A) (k : A -> M St R B) s :
  bind m k s
  = match m s with
    | (Next a, s1, t1) =>
        (result_of (k a s1), store_of (k a s1), t1 ++ trace_of (k a s1))
    | (Return r, s1, t1) => (Return r, s1, t1)
    end.
Proof.
  unfold bind. destruct (m s) as [[[a|r] s1] t1]; [|reflexivity].
  destruct (k a s1) as [[o s2] t2]. reflexivity.
Qed.

Lemma not_at_loop_head i arg t :
  forallb (fun e => negb (at_loop_head e)) t = true -> ~ In (Eargv_flag i arg) t.
Proof.
  intros H Hin. rewrite forallb_forall in H. specialize (H _ Hin). discriminate.
Qed.

(** The loop of [parse_args] always comes to an end within the fuel that
    [parse_args] gives it. *)
Lemma parse_loop_ends argv fuel i a :
  (0 < fuel)%nat -> (List.length argv < fuel + i)%nat ->
  result_of (parse_loop fuel argv i a) <> Return Out_of_fuel.
Proof.
  revert i a. induction fuel as [|fuel IH]; intros i a Hpos Hf; [lia|].
  cbn [parse_loop]. destruct (Nat.ltb_spec i (List.length argv)) as [Hi|Hi].
  2:{ discriminate. }
  rewrite bind_eq.
  destruct (parse_arg_spec argv i a) as (t' & _ & _ & Hres).
  destruct (parse_arg argv i a) as [[[i'|e] a1] t1]; cbn [result_of fst snd] in *.
  - apply IH; lia.
  - intros [= ->]. destruct Hres as [N _]. contradiction.
Qed.

Lemma parse_args_eq argv a :
  parse_args argv a
  = parse_loop (S (List.length argv)) argv 1
      (mk_args (Some DEFAULT_VIDEODEVICE) DEFAULT_SCREEN_WIDTH DEFAULT_SCREEN_HEIGHT 0).
Proof.
  unfold parse_args. step.
  change (set_fullscreen 0
            (set_ar_height DEFAULT_SCREEN_HEIGHT
               (set_ar_width DEFAULT_SCREEN_WIDTH
                  (set_videodevice (Some DEFAULT_VIDEODEVICE) a))))
    with (mk_args (Some DEFAULT_VIDEODEVICE) DEFAULT_SCREEN_WIDTH DEFAULT_SCREEN_HEIGHT 0).
  destruct (parse_loop _ _ _ _) as [[o s] t]. reflexivity.
Qed.

Lemma parse_args_ends argv a : result_of (parse_args argv a) <> Return Out_of_fuel.
Proof. rewrite parse_args_eq. apply parse_loop_ends; lia. Qed.

Lemma parse_loop_trailing argv i last :
  S i = List.length argv ->
  takes_value last = true ->
  forall fuel i0 a,
    (0 < fuel)%nat -> (List.length argv < fuel + i0)%nat ->
    In (Eargv_flag i last) (trace_of (parse_loop fuel argv i0 a)) ->
    In (Eargv_value (List.length argv) None) (trace_of (parse_loop fuel argv i0 a))
    /\ (takes_number last = true ->
        In (Eatoi None) (trace_of (parse_loop fuel argv i0 a))
        /\ result_of (parse_loop fuel argv i0 a) = Return (Undefined "atoi(NULL)"))
    /\ (takes_number last = false ->
        result_of (parse_loop fuel argv i0 a) = Next tt
        /\ ar_videodevice (store_of (parse_loop fuel argv i0 a)) = None).
Proof.
  intros Hlen Hval.
  assert (nth_error argv (S i) = None) as Hend by (apply nth_error_None; lia).
  induction fuel as [|fuel IH]; intros i0 a Hpos Hf; [lia|].
  cbn [parse_loop]. destruct (Nat.ltb_spec i0 (List.length argv)) as [Hi|Hi].
  2:{ intros []. }
  rewrite bind_eq.
  destruct (parse_arg_spec argv i0 a) as (t' & Et & Hquiet & Hres).
  destruct (parse_arg argv i0 a) as [[[i'|e] a1] t1];
    cbn [result_of store_of trace_of fst snd] in *; subst t1.
  - destruct Hres as [Hrange Hnext]. intros Hin.
    cbn [app] in Hin. destruct Hin as [Hhead|Hin].
    + injection Hhead as -> Harg. rewrite Harg in Hnext.
      destruct (Hnext Hval) as (-> & Hread & Hdev & Hnum).
      rewrite Hend in Hread, Hdev, Hnum.
      destruct fuel as [|fuel]; [lia|]. cbn [parse_loop].
      destruct (Nat.ltb_spec (S (S i)) (List.length argv)) as [?|_]; [lia|].
      cbn [ret result_of store_of trace_of fst snd]. rewrite app_nil_r, <- Hlen.
      split; [right; exact Hread|]. split.
      * intros Hn. exfalso. apply (Hnum Hn). reflexivity.
      * intros Hn. split; [reflexivity | exact (Hdev Hn)].
    + apply in_app_or in Hin. destruct Hin as [Hin|Hin].
      { exfalso. exact (not_at_loop_head _ _ _ Hquiet Hin). }
      assert (0 < fuel)%nat as Hpos' by lia.
      assert (List.length argv < fuel + S i')%nat as Hf' by lia.
      destruct (IH (S i') a1 Hpos' Hf' Hin) as (H1 & H2 & H3).
      split; [right; apply in_or_app; right; exact H1|]. split.
      * intros Hn. destruct (H2 Hn). split; [right; apply in_or_app; right|]; assumption.
      * exact H3.
  - destruct Hres as (_ & _ & Hret). intros Hin. destruct Hin as [Hhead|Hin].
    2:{ exfalso. exact (not_at_loop_head _ _ _ Hquiet Hin). }
    injection Hhead as -> Harg. rewrite Harg in Hret.
    destruct (Hret Hval) as (Hn & _ & -> & Hread & Hatoi).
    rewrite <- Hlen.
    split; [right; exact Hread|]. split.
    + intros _. split; [right; exact Hatoi | reflexivity].
    + intros Hn'. congruence.
Qed.

(** C10, as the program has it.  Whenever the scan of the command line
    comes to the last argument at the head of the loop and reads it as
    [-d], [-W] or [-H], it fetches [argv[argc]], a null pointer, without
    any test.  For [-d] the null pointer becomes the device path and
    [parse_args] returns; for [-W] and [-H] the null pointer is handed to
    [atoi], where the meaning of the program ends. *)
Theorem trailing_flag_reads_past_the_end argv a0 i last :
  S i = List.length argv ->
  In (Eargv_flag i last) (trace_of (parse_args argv a0)) ->
  takes_value last = true ->
  In (Eargv_value (List.length argv) None) (trace_of (parse_args argv a0))
  /\ (takes_number last = true ->
      In (Eatoi None) (trace_of (parse_args argv a0))
      /\ result_of (parse_args argv a0) = Return (Undefined "atoi(NULL)"))
  /\ (takes_number last = false ->
      result_of (parse_args argv a0) = Next tt
      /\ ar_videodevice (store_of (parse_args argv a0)) = None).
Proof.
  intros Hlen Hin Hval. revert Hin. rewrite parse_args_eq.
  apply (parse_loop_trailing argv i last Hlen Hval); lia.
Qed.

(** C10, against the claim.  In [camera -d -W] the last argument is
    [-W], but the scan never reads it as a flag: it is the value of
    [-d].  Nothing is read past the end, [atoi] is not called, and
    [parse_args] returns with the device path ["-W"]. *)
Lemma value_of_d_is_not_a_flag :
  let argv := ["camera"; "-d"; "-W"] in
  let x := parse_args argv Sample.blank_args in
  last_is_value_flag argv = true
  /\ reads_past_end argv (trace_of x) = false
  /\ ~ In (Eargv_value 3 None) (trace_of x)
  /\ ~ In (Eatoi None) (trace_of x)
  /\ result_of x = Next tt
  /\ ar_videodevice (store_of x) = Some "-W".
Proof.
  cbv zeta.
  split; [by_run|]. split; [by_run|]. split; [unseen|]. split; [unseen|].
  split; by_run.
Qed.

(** ** Teardown (C4, C7, C8) *)

Lemma closes_quit env s :
  closes (quit_events env s) = if st_fd s =? 0 then [] else [st_fd s].
Proof.
  unfold quit_events.
  destruct (env_streamoff env <? 0), (st_fd s =? 0),
    (negb (st_texture s =? NULL)), (negb (st_renderer s =? NULL)),
    (negb (st_window s =? NULL)); reflexivity.
Qed.

Lemma main_cases env fuel argv s0 a0 a tp :
  parse_args argv a0 = (Next tt, a, tp) ->
  main env fuel argv (s0, a0)
  = let i := init env (s0, a) in
    let s1 := fst (store_of i) in
    let a1 := snd (store_of i) in
    if match result_of i with Next _ => 0 | Return r => r end =? 0 then
      (Return (Exited EXIT_FAILURE), (s1, a1), tp ++ trace_of i ++ quit_events env s1)
    else
      match main_loop env fuel 0 s1 with
      | (Next _, s2, tl) =>
          (Return (Exited EXIT_SUCCESS), (s2, a1),
           tp ++ trace_of i ++ tl ++ quit_events env s2)
      | (Return e, s2, tl) => (Return e, (s2, a1), tp ++ trace_of i ++ tl)
      end.
Proof.
  intros Hp. unfold main. step. rewrite Hp. step.
  destruct (init env (s0, a)) as [[[[]|r] [s1 a1]] ti]; step.
  - change (0 =? 0) with true. step.
    rewrite quit_spec. step. rewrite !app_nil_r. reflexivity.
  - destruct (r =? 0); step.
    + rewrite quit_spec. step. rewrite !app_nil_r. reflexivity.
    + destruct (main_loop env fuel 0 s1) as [[[[]|e] s2] tl]; step.
      * rewrite quit_spec. step. rewrite !app_nil_r. reflexivity.
      * rewrite !app_nil_r. reflexivity.
Qed.

Lemma render_returns env n :
  returns (fun e => e = Returned \/ exists w, e = Undefined w) (render env n).
Proof.
  intros s r. unfold render. step.
  destruct (_ <? 0); step; [intros [= <-]; auto|].
  destruct (Int.div _ _); step; [|intros [= <-]; eauto].
  destruct (negb _); step; destruct (_ <? 0); step; discriminate.
Qed.

Lemma main_loop_returns env fuel :
  forall n, returns (fun e => e = Out_of_fuel \/ exists w, e = Undefined w)
                    (main_loop env fuel n).
Proof.
  induction fuel as [|fuel IH]; intros n s r.
  - cbn. intros [= <-]. auto.
  - destruct (Z.eq_dec (st_quit s) 0) as [Hq|Hq].
    2:{ rewrite (main_loop_done env fuel n s Hq). discriminate. }
    destruct (main_loop_turn env fuel n s Hq) as (s1 & t1 & _ & _ & _ & ->).
    pose proof (render_returns env n s1) as Hr.
    destruct (render env n s1) as [[[[]|e] s2] t2]; cbn [result_of fst] in *.
    + apply IH.
    + destruct (Hr e eq_refl) as [->|[w ->]]; cbn [result_of fst].
      * apply IH.
      * intros [= <-]. eauto.
Qed.

(** The teardown always comes last.  When the command line is accepted,
    a run of [main] that comes to a [return] of [main] ends with the
    calls of [quit], made once, in the order of its text, on the state
    that [init] or the loop left behind; this is so after a failed [init]
    as well as after the loop. *)
Lemma main_ends_with_quit env fuel argv s0 a0 a tp code fr t :
  parse_args argv a0 = (Next tt, a, tp) ->
  main env fuel argv (s0, a0) = (Return (Exited code), fr, t) ->
  exists before, t = before ++ quit_events env (fst fr).
Proof.
  intros Hp. rewrite (main_cases env fuel argv s0 a0 a tp Hp). cbv zeta.
  destruct (_ =? 0).
  - intros [= _ <- <-]. cbn [fst]. eexists. rewrite app_assoc. reflexivity.
  - pose proof (main_loop_returns env fuel 0 (fst (store_of (init env (s0, a))))) as Hr.
    destruct (main_loop env fuel 0 _) as [[[[]|e] s2] tl]; cbn [result_of fst] in Hr.
    + intros [= _ <- <-]. cbn [fst]. eexists. rewrite !app_assoc. reflexivity.
    + intros [= -> _ _]. destruct (Hr _ eq_refl) as [?|[w ?]]; discriminate.
Qed.

(** ** The copy of a frame (C1, continued) *)

Lemma copy_size_outside_frame s s' :
  outside_frame s' = outside_frame s -> copy_size s' = copy_size s.
Proof.
  unfold outside_frame, copy_size. intros [= _ _ _ _ -> -> _]. reflexivity.
Qed.

Lemma render_keeps env n : keeps outside_frame (render env n).
Proof.
  intros s. unfold render. step.
  destruct (_ <? 0); step; [reflexivity|].
  destruct (Int.div _ _); step; [|reflexivity].
  destruct (negb _); step; destruct (_ <? 0); step; reflexivity.
Qed.

Lemma render_copies env n s i src size :
  In (Ememcpy i src size) (trace_of (render env n s)) -> size = copy_size s.
Proof.
  unfold render. step.
  destruct (_ <? 0); step.
  { cbn. intros [|[|[]]]; discriminate. }
  destruct (Int.div _ _); step.
  2:{ cbn. intros [|[|[]]]; discriminate. }
  destruct (negb _); step; destruct (_ <? 0); step; cbn;
    intros H; repeat (destruct H as [H|H]; [try discriminate|]); try contradiction;
    injection H as _ _ <-; reflexivity.
Qed.

(** In every run of the loop, each copy has the size that the recorded
    width and height give at the entry of the loop. *)
Lemma main_loop_copies env fuel i src size :
  forall n s,
    In (Ememcpy i src size) (trace_of (main_loop env fuel n s)) -> size = copy_size s.
Proof.
  induction fuel as [|fuel IH]; intros n s.
  - intros [].
  - destruct (Z.eq_dec (st_quit s) 0) as [Hq|Hq].
    2:{ rewrite (main_loop_done env fuel n s Hq). intros []. }
    destruct (main_loop_turn env fuel n s Hq) as (s1 & t1 & _ & Ht1 & Hs1 & ->).
    pose proof (render_keeps env n s1) as Hk.
    pose proof (render_copies env n s1 i src size) as Hc.
    rewrite <- (copy_size_outside_frame _ _ Hs1).
    assert (~ In (Ememcpy i src size) t1) as Hno.
    { intros Hin. rewrite forallb_forall in Ht1. specialize (Ht1 _ Hin). discriminate. }
    destruct (render env n s1) as [[o2 s2] t2]. cbn [store_of trace_of fst snd] in *.
    assert (In (Ememcpy i src size) (t1 ++ t2) -> size = copy_size s1) as Hstop.
    { intros Hin. apply in_app_or in Hin. destruct Hin; [contradiction | auto]. }
    assert (In (Ememcpy i src size)
               (t1 ++ t2 ++ trace_of (main_loop env fuel (S n) s2)) ->
            size = copy_size s1) as Hgo.
    { intros Hin. apply in_app_or in Hin. destruct Hin as [?|Hin]; [contradiction|].
      apply in_app_or in Hin. destruct Hin as [?|Hin]; [auto|].
      rewrite <- (copy_size_outside_frame _ _ Hk). exact (IH _ _ Hin). }
    destruct o2 as [[]|[| | |]]; cbn [trace_of snd]; assumption.
Qed.

(** From the request to the copy: when [init] succeeds, whatever the
    driver granted, every copy of a frame in the loop that follows has
    the size of the requested resolution. *)
Lemma copy_size_follows_request env fuel n s0 a s1 a1 ti i src size :
  init env (s0, a) = (Return 1, (s1, a1), ti) ->
  In (Ememcpy i src size) (trace_of (main_loop env fuel n s1)) ->
  size = Int.to_size (Int.to_size (Int.to_i32 (ar_width a * ar_height a)) * sizeof_Uint16).
Proof.
  intros Hi Hin.
  destruct (wp_eq _ _ _ _ _ _ (init_records_request env s0 a) Hi eq_refl)
    as (Hw & Hh & _ & _).
  cbn [fst] in Hw, Hh. rewrite <- Hw, <- Hh.
  exact (main_loop_copies env fuel i src size n s1 Hin).
Qed.

(** C4, at two runs.  The order of the teardown is the one of the
    claim, but not every resource that was acquired is released.
    (1) The process starts with its standard input closed, so that
    [open] gives the camera the descriptor 0.  The session runs and ends
    normally, and [quit] does not close the descriptor: its guard
    [if (s->fd)] takes 0 for a descriptor that was never opened.
    (2) The driver grants 8 buffers; [init] maps them and fails on the
    query of buffer 8, which leaves a zeroed [s->buf].  [quit] then calls
    [munmap] with the length 0 on each slot, so none of the 8 mappings of
    960000 bytes is released. *)
Theorem teardown_leaves_resources_behind :
  let run0 := Sample.run_main stdin_closed 2 ["camera"] in
  let run8 := Sample.run_main eight_buffers 2 ["camera"] in
  (fst (fst run0) = Exited EXIT_SUCCESS
   /\ opens (snd run0) = [0]
   /\ closes (snd run0) = []
   /\ leaked (snd run0) = [Descriptor 0])
  /\ (fst (fst run8) = Exited EXIT_FAILURE
      /\ leaked (snd run8)
         = map (fun i => Mapping (Sample.base + i * 960000) 960000) (firstn 8 slots)
      /\ unmaps (snd run8)
         = map (fun i => Unmap (Sample.base + i * 960000) 0) (firstn 8 slots)
           ++ repeat (Unmap NULL 0) 8).
Proof.
  cbv zeta. split.
  - split; [by_run|]. split; [by_run|]. split; by_run.
  - split; [by_run|]. split; by_run.
Qed.

(** C7, at a run and in general.  (1) There is no device at the path:
    [open] fails, nothing is ever mapped, and [quit] still calls [munmap]
    on each of the 16 slots, with a null address.  (2) The release loop
    neither tests a slot nor clears it: run twice in a row it makes the
    same 16 calls twice, on the same addresses. *)
Theorem unmap_loop_has_no_guard :
  (let run := Sample.run_main no_device 2 ["camera"] in
   fst (fst run) = Exited EXIT_FAILURE
   /\ maps (snd run) = []
   /\ unmaps (snd run) = repeat (Unmap NULL 0) 16)
  /\ (forall s : state,
        bind unmap_all (fun _ => unmap_all) s
        = (Next tt, s, unmap_calls s ++ unmap_calls s)
          :> outcome ending unit * state * trace).
Proof.
  split.
  - cbv zeta. split; [by_run|]. split; by_run.
  - intros s. rewrite bind_eq, unmap_all_spec. cbn [result_of store_of trace_of fst snd].
    rewrite unmap_all_spec. reflexivity.
Qed.

(** C8, at two runs and in general.  [quit] closes the descriptor when
    [s->fd] is not 0.  (1) When [open] fails, [s->fd] is -1 and [close]
    is called on -1.  (2) When [open] succeeds with the descriptor 0,
    [close] is not called.  (3) On every state, the descriptors that
    [quit] closes are [s->fd] if it is not 0, and none otherwise. *)
Theorem close_guard_tests_for_nonzero :
  (let run := Sample.run_main no_device 2 ["camera"] in
   opens (snd run) = [-1] /\ closes (snd run) = [-1])
  /\ (let run := Sample.run_main stdin_closed 2 ["camera"] in
      fst (fst run) = Exited EXIT_SUCCESS
      /\ opens (snd run) = [0] /\ closes (snd run) = [])
  /\ (forall env s,
        closes (trace_of (quit env s)) = if st_fd s =? 0 then [] else [st_fd s]).
Proof.
  split; [|split].
  - cbv zeta. split; by_run.
  - cbv zeta. split; [by_run|]. split; by_run.
  - intros env s. rewrite quit_spec. apply closes_quit.
Qed.

(** ** The ledger at work *)

Example webcam_releases_everything :
  let run := Sample.run_main Sample.webcam 4 ["camera"] in
  fst (fst run) = Exited EXIT_SUCCESS
  /\ leaked (snd run) = [] /\ stray_releases (snd run) = []
  /\ keeps_to_grant (snd run) = true.
Proof. cbv zeta. split; [by_run|]. split; [by_run|]. split; by_run. Qed.

Example hiccup_goes_on :
  let run := Sample.run_main hiccup 5 ["camera"] in
  fst (fst run) = Exited EXIT_SUCCESS
  /\ In (Edqbuf 3 (-1) dequeue_request) (snd run)
  /\ In (Ememcpy 2 (Some (Sample.base + 2 * 960000)) 960000) (snd run).
Proof. cbv zeta. split; [by_run|]. split; seen. Qed.

(** ** Instances *)

Lemma missing_capability_fails_init_witness :
  (parse_args ["camera"] Sample.blank_args = (Next tt, default_args, [])
   /\ 0 <= env_open (Sample.device snapshot_only) (ar_videodevice default_args)
   /\ 0 <= fst (env_querycap (Sample.device snapshot_only))
   /\ Z.land (snd (env_querycap (Sample.device snapshot_only))) V4L2_CAP_STREAMING = 0)
  /\ exists msg rest,
       run (init (Sample.device snapshot_only)) 1 (Sample.blank_state, default_args)
       = (0, (probed (Sample.device snapshot_only) default_args, default_args),
          [Eopen (Some DEFAULT_VIDEODEVICE) 3; Equerycap 3 0; Estderr msg])
       /\ run (main (Sample.device snapshot_only) 2 ["camera"]) Returned
              (Sample.blank_state, Sample.blank_args)
          = (Exited EXIT_FAILURE,
             (probed (Sample.device snapshot_only) default_args, default_args),
             [] ++ rest)
       /\ In (Estderr msg) rest
       /\ forallb (fun e => negb (configures e)) rest = true.
Proof.
  assert (parse_args ["camera"] Sample.blank_args = (Next tt, default_args, [])) as Hp
    by reflexivity.
  assert (0 <= env_open (Sample.device snapshot_only) (ar_videodevice default_args)) as H1
    by (cbn; lia).
  assert (0 <= fst (env_querycap (Sample.device snapshot_only))) as H2 by (cbn; lia).
  assert (Z.land (snd (env_querycap (Sample.device snapshot_only))) V4L2_CAP_STREAMING = 0)
    as H3 by reflexivity.
  split; [auto|].
  exact (missing_capability_fails_init (Sample.device snapshot_only) 2 ["camera"]
           Sample.blank_state Sample.blank_args default_args [] Hp H1 H2 (or_intror H3)).
Defined.

Lemma failed_dequeue_skips_one_frame_witness :
  (fst (env_dqbuf (Sample.device hiccup) 1 dequeue_request) < 0
   /\ st_quit zero_state = 0)
  /\ run (render (Sample.device hiccup) 1) Returned
         (store_of (handle_events (Sample.device hiccup) 1 zero_state))
     = (Returned,
        set_buf (snd (env_dqbuf (Sample.device hiccup) 1 dequeue_request))
                (store_of (handle_events (Sample.device hiccup) 1 zero_state)),
        [Edqbuf (st_fd (store_of (handle_events (Sample.device hiccup) 1 zero_state)))
                (fst (env_dqbuf (Sample.device hiccup) 1 dequeue_request))
                (snd (env_dqbuf (Sample.device hiccup) 1 dequeue_request));
         Estderr "Failed to dequeue buffer %d"]).
Proof.
  assert (fst (env_dqbuf (Sample.device hiccup) 1 dequeue_request) < 0) as H1
    by (cbn; lia).
  assert (st_quit zero_state = 0) as H2 by reflexivity.
  split; [auto|].
  exact (proj1 (failed_dequeue_skips_one_frame (Sample.device hiccup) 3 1 zero_state H1 H2)).
Defined.

Lemma stride_mismatch_skips_copy_and_requeues_witness :
  (0 <= fst (env_dqbuf (Sample.device padded) 0 dequeue_request)
   /\ Int.INT_MIN <= env_lock_texture (Sample.device padded) 0 <= - Int.INT_MIN - 1
   /\ Int.div (env_lock_texture (Sample.device padded) 0)
              (st_width (set_width 800 zero_state)) = Some 4
   /\ 4 <> 2)
  /\ st_quit (set_buf (snd (env_qbuf (Sample.device padded) 0
                                     (snd (env_dqbuf (Sample.device padded) 0
                                                     dequeue_request))))
                      (set_buf (snd (env_dqbuf (Sample.device padded) 0 dequeue_request))
                               (set_width 800 zero_state)))
     = st_quit (set_width 800 zero_state).
Proof.
  assert (0 <= fst (env_dqbuf (Sample.device padded) 0 dequeue_request)) as H1
    by (cbn; lia).
  assert (Int.INT_MIN <= env_lock_texture (Sample.device padded) 0 <= - Int.INT_MIN - 1)
    as H2 by (cbn; lia).
  assert (Int.div (env_lock_texture (Sample.device padded) 0)
                  (st_width (set_width 800 zero_state)) = Some 4) as H3 by reflexivity.
  assert (4 <> 2) as H4 by lia.
  split; [auto|].
  exact (proj2 (proj2 (stride_mismatch_skips_copy_and_requeues
                         (Sample.device padded) 0 (set_width 800 zero_state) 4
                         H1 H2 H3 H4))).
Defined.

Lemma trailing_flag_reads_past_the_end_witness :
  (3%nat = List.length ["camera"; "-f"; "-W"]
   /\ In (Eargv_flag 2 "-W") (trace_of (parse_args ["camera"; "-f"; "-W"] Sample.blank_args))
   /\ takes_value "-W" = true)
  /\ In (Eargv_value 3 None)
        (trace_of (parse_args ["camera"; "-f"; "-W"] Sample.blank_args)).
Proof.
  assert (3%nat = List.length ["camera"; "-f"; "-W"]) as H1 by reflexivity.
  assert (In (Eargv_flag 2 "-W")
             (trace_of (parse_args ["camera"; "-f"; "-W"] Sample.blank_args))) as H2
    by (cbn; auto).
  assert (takes_value "-W" = true) as H3 by reflexivity.
  split; [auto|].
  exact (proj1 (trailing_flag_reads_past_the_end ["camera"; "-f"; "-W"]
                  Sample.blank_args 2 "-W" H1 H2 H3)).
Defined.


(** * Further properties of the program *)

(** ** Calls that a body can make *)

Section Silent.

Context {St R : Type}.
Variable P : event -> bool.

Lemma silent_ret {A} (a : A) : silent P (@ret St R A a).
Proof. intro s. reflexivity. Qed.

Lemma silent_return {A} (r : R) : silent P (@return_ St R A r).
Proof. intro s. reflexivity. Qed.

Lemma silent_get : silent P (@get St R).
Proof. intro s. reflexivity. Qed.

Lemma silent_modify g : silent P (@modify St R g).
Proof. intro s. reflexivity. Qed.

Lemma silent_emit e : P e = true -> silent P (@emit St R e).
Proof. intros H s. cbn. rewrite H. reflexivity. Qed.

Lemma silent_bind {A B} (m : M St R A) (k : A -> M St R B) :
  silent P m -> (forall a, silent P (k a)) -> silent P (bind m k).
Proof.
  intros Hm Hk s. rewrite bind_eq. specialize (Hm s).
  destruct (m s) as [[[a|r] s1] t1]; cbn [trace_of snd] in *; [|exact Hm].
  rewrite forallb_app, Hm. exact (Hk a s1).
Qed.

Lemma silent_when c (body : M St R unit) : silent P body -> silent P (when c body).
Proof. intros H. destruct c; [exact H | apply silent_ret]. Qed.

Lemma silent_for_loop (body : Z -> M St R unit) n :
  (forall i, silent P (body i)) -> forall i, silent P (for_loop n i body).
Proof.
  intros Hb. induction n as [|n IH]; intro i; cbn [for_loop].
  - apply silent_ret.
  - apply silent_bind; [apply Hb | intros _; apply IH].
Qed.

Lemma silent_call {R'} (body : M St R' unit) dflt :
  silent P body -> silent P (@call St R R' body dflt).
Proof.
  intros H s. specialize (H s). unfold call.
  destruct (body s) as [[[a|r] s1] t1]; exact H.
Qed.

End Silent.

Lemma silent_call_void {St} P (body : M St ending unit) :
  silent P body -> silent P (call_void body).
Proof.
  intros H. unfold call_void. apply silent_bind.
  - apply silent_call, H.
  - intros [| | |]; first [apply silent_ret | apply silent_return].
Qed.

Lemma silent_weaken {St R A} (P Q : event -> bool) (m : M St R A) :
  (forall e, P e = true -> Q e = true) -> silent P m -> silent Q m.
Proof.
  intros HPQ H s. specialize (H s). rewrite forallb_forall in *. auto.
Qed.

(** Walks through a body for [silent]. *)
Ltac walk_silent :=
  repeat first
    [ match goal with
      | |- silent _ (for_loop _ _ _) => apply silent_for_loop; intro
      | |- silent _ (when _ _) => apply silent_when
      | |- silent _ (bind _ _) => apply silent_bind; [ | intro ]
      | |- silent _ (call_void _) => apply silent_call_void
      | |- silent _ (emit _) => apply silent_emit; reflexivity
      | |- silent _ (return_ _) => apply silent_return
      | |- silent _ (ret _) => apply silent_ret
      | |- silent _ get => apply silent_get
      | |- silent _ (modify _) => apply silent_modify
      | |- silent _ (if ?c then _ else _) => destruct c
      | |- silent _ (match ?x with Some _ => _ | None => _ end) => destruct x
      end ].

(** ** [handle_events] (X1) *)

Lemma drain_quit pending :
  forall s,
    drain pending s
    = (Next tt,
       (if existsb asks_to_quit pending then set_quit 1 s else s),
       map (fun e => ESDL_PollEvent (Some e)) pending ++ [ESDL_PollEvent None]).
Proof.
  induction pending as [|e rest IH]; intro s; [reflexivity|].
  cbn [drain]. rewrite bind_eq.
  assert (handle_event e s
          = (Next tt, (if asks_to_quit e then set_quit 1 s else s),
             [ESDL_PollEvent (Some e)])) as ->.
  { destruct e as [|sym|]; try reflexivity.
    unfold handle_event. step. cbn [asks_to_quit].
    destruct (sym =? SDLK_q); reflexivity. }
  rewrite IH. cbn [result_of store_of trace_of fst snd existsb map app].
  destruct (asks_to_quit e); cbn [orb]; [|reflexivity].
  destruct (existsb asks_to_quit rest); reflexivity.
Qed.

(** X1.  [handle_events] takes every pending event off the queue, one
    poll per event and a last poll that finds the queue empty, and always
    returns.  It sets the quit flag to 1 when one of the events is the
    close of the window or a press of [q]; otherwise, and in every other
    field, the state is as before: the flag is never lowered, and other
    keys and other events are ignored. *)
Theorem handle_events_raises_quit_only env n s :
  handle_events env n s
  = (Next tt,
     (if existsb asks_to_quit (env_poll_events env n) then set_quit 1 s else s),
     map (fun e => ESDL_PollEvent (Some e)) (env_poll_events env n)
     ++ [ESDL_PollEvent None]).
Proof. unfold handle_events. apply drain_quit. Qed.

(** ** [parse_args] (X2, X3, X4) *)

Lemma skipn_nth (argv : list string) i :
  (i < List.length argv)%nat -> skipn i argv = nth i argv "" :: skipn (S i) argv.
Proof.
  revert i. induction argv as [|x argv IH]; intros i Hi; cbn in Hi; [lia|].
  destruct i as [|i]; [reflexivity|]. cbn [skipn nth]. apply IH. lia.
Qed.

Lemma parse_arg_unrecognised argv i a :
  unrecognised (nth i argv "") = true ->
  parse_arg argv i a = (Next i, a, report i (nth i argv "")).
Proof.
  unfold unrecognised, known_flag, parse_arg, report.
  destruct (Ascii.eqb (char_at (nth i argv "") 0) "-"); cbn [negb orb];
    [|intros _; reflexivity].
  destruct (Ascii.eqb (char_at (nth i argv "") 1) "d"); [discriminate|].
  destruct (Ascii.eqb (char_at (nth i argv "") 1) "W"); [discriminate|].
  destruct (Ascii.eqb (char_at (nth i argv "") 1) "H"); [discriminate|].
  destruct (Ascii.eqb (char_at (nth i argv "") 1) "f"); [discriminate|].
  destruct (Ascii.eqb (char_at (nth i argv "") 1) "h"); [discriminate|].
  intros _. reflexivity.
Qed.

Lemma parse_loop_unrecognised argv :
  forall fuel i a,
    (0 < fuel)%nat -> (List.length argv < fuel + i)%nat ->
    forallb unrecognised (skipn i argv) = true ->
    parse_loop fuel argv i a = (Next tt, a, reports i (skipn i argv)).
Proof.
  induction fuel as [|fuel IH]; intros i a Hpos Hf Hall; [lia|].
  cbn [parse_loop]. destruct (Nat.ltb_spec i (List.length argv)) as [Hi|Hi].
  - rewrite (skipn_nth argv i Hi) in Hall |- *. cbn [forallb] in Hall.
    apply andb_prop in Hall as [Hone Hrest].
    rewrite bind_eq, (parse_arg_unrecognised argv i a Hone).
    rewrite (IH (S i) a) by (assumption || lia). reflexivity.
  - rewrite skipn_all2 by lia. reflexivity.
Qed.

(** X2.  A command line made only of arguments that the parser does not
    know (words without a leading dash, and dashes followed by anything
    but [d], [W], [H], [f], [h]) is read to its end: each argument is
    reported once on the error stream, in order, as an unexpected flag or
    an unexpected argument, nothing is read as a value, [parse_args]
    returns, and the settings are the defaults. *)
Theorem unknown_arguments_are_reported_and_ignored argv a0 :
  forallb unrecognised (tl argv) = true ->
  parse_args argv a0 = (Next tt, default_args, reports 1 (tl argv)).
Proof.
  intros Hall. rewrite parse_args_eq.
  assert (skipn 1 argv = tl argv) as E by (destruct argv; reflexivity).
  rewrite <- E in Hall |- *.
  apply parse_loop_unrecognised; [lia | lia | exact Hall].
Qed.

Lemma within_flag argv i :
  (i < List.length argv)%nat -> within_argv argv (Eargv_flag i (nth i argv "")) = true.
Proof.
  intros Hi. cbn [within_argv].
  destruct (Nat.ltb_spec i (List.length argv)); [|lia]. apply String.eqb_refl.
Qed.

Lemma within_value argv i :
  (i < List.length argv)%nat ->
  within_argv argv (Eargv_value (S i) (nth_error argv (S i))) = true.
Proof.
  intros Hi. cbn [within_argv].
  destruct (Nat.leb_spec (S i) (List.length argv)); [|lia].
  destruct (option_eq_dec string_dec _ _); [reflexivity | contradiction].
Qed.

Lemma within_name argv i :
  (i < List.length argv)%nat -> within_argv argv (Eargv_name (nth 0 argv "")) = true.
Proof.
  intros Hi. cbn [within_argv].
  destruct (Nat.ltb_spec 0 (List.length argv)); [|lia]. apply String.eqb_refl.
Qed.

Lemma parse_arg_within argv i :
  (i < List.length argv)%nat -> silent (within_argv argv) (parse_arg argv i).
Proof.
  intros Hi. unfold parse_arg, argv_next, call_atoi, usage.
  repeat first
    [ match goal with
      | |- silent _ (bind _ _) => apply silent_bind; [ | intro ]
      | |- silent _ (emit (Eargv_flag _ _)) => apply silent_emit, within_flag, Hi
      | |- silent _ (emit (Eargv_value _ _)) => apply silent_emit, within_value, Hi
      | |- silent _ (emit (Eargv_name _)) => apply silent_emit, (within_name argv i), Hi
      | |- silent _ (emit _) => apply silent_emit; reflexivity
      | |- silent _ (return_ _) => apply silent_return
      | |- silent _ (ret _) => apply silent_ret
      | |- silent _ (modify _) => apply silent_modify
      | |- silent _ (if ?c then _ else _) => destruct c
      | |- silent _ (match ?x with Some _ => _ | None => _ end) => destruct x
      end ].
Qed.

Lemma parse_loop_within argv fuel :
  forall i, silent (within_argv argv) (parse_loop fuel argv i).
Proof.
  induction fuel as [|fuel IH]; intro i; cbn [parse_loop].
  - apply silent_return.
  - destruct (Nat.ltb_spec i (List.length argv)) as [Hi|Hi].
    + apply silent_bind; [apply parse_arg_within, Hi | intro; apply IH].
    + apply silent_ret.
Qed.

Lemma parse_args_within argv a0 :
  forallb (within_argv argv) (trace_of (parse_args argv a0)) = true.
Proof. rewrite parse_args_eq. apply parse_loop_within. Qed.

Lemma parse_loop_flags_from argv :
  forall fuel i0 a i s,
    In (Eargv_flag i s) (trace_of (parse_loop fuel argv i0 a)) -> (i0 <= i)%nat.
Proof.
  induction fuel as [|fuel IH]; intros i0 a i s; cbn [parse_loop]; [intros []|].
  destruct (Nat.ltb_spec i0 (List.length argv)) as [Hi|Hi]; [|intros []].
  rewrite bind_eq.
  destruct (parse_arg_spec argv i0 a) as (t' & Et & Hquiet & Hres).
  destruct (parse_arg argv i0 a) as [[[i'|e] a1] t1];
    cbn [result_of store_of trace_of fst snd] in *; subst t1.
  - destruct Hres as [Hrange _]. cbn [app]. intros [Hhead|Hin].
    + injection Hhead as -> _. lia.
    + apply in_app_or in Hin. destruct Hin as [Hin|Hin].
      * exfalso. exact (not_at_loop_head _ _ _ Hquiet Hin).
      * specialize (IH _ _ _ _ Hin). lia.
  - intros [Hhead|Hin].
    + injection Hhead as -> _. lia.
    + exfalso. exact (not_at_loop_head _ _ _ Hquiet Hin).
Qed.

(** X3.  The parser stays inside its argument vector.  On every command
    line, every read of [argv] is a read of [argv[i]] with [0 <= i <= argc]
    and delivers what is stored there: a read in a turn of the loop (the
    test of the two characters and the printing of the argument) has
    [1 <= i < argc], a read of a value has [i <= argc] (at most the
    terminating null pointer), and the read of the program name for
    [usage] is the read of [argv[0]] with [argc > 0].  The parser makes no
    call besides these reads, [atoi], its messages and [exit]. *)
Theorem parser_reads_within_argv argv a0 :
  forallb (within_argv argv) (trace_of (parse_args argv a0)) = true
  /\ forall i s, In (Eargv_flag i s) (trace_of (parse_args argv a0)) -> (1 <= i)%nat.
Proof.
  split; [apply parse_args_within|].
  rewrite parse_args_eq. intros i s Hin.
  exact (parse_loop_flags_from argv _ _ _ _ _ Hin).
Qed.

Lemma parse_loop_returns argv fuel :
  forall i,
    returns (fun e => e = Exited 0 \/ e = Undefined "atoi(NULL)" \/ e = Out_of_fuel)
            (parse_loop fuel argv i).
Proof.
  induction fuel as [|fuel IH]; intro i; cbn [parse_loop].
  - apply returns_return. auto.
  - destruct (i <? List.length argv)%nat; [|apply returns_ret].
    apply returns_bind; [|intro; apply IH].
    unfold parse_arg, argv_next, call_atoi, usage.
    repeat first
      [ match goal with
        | |- returns _ (bind _ _) => apply returns_bind; [ | intro ]
        | |- returns _ (emit _) => apply returns_emit
        | |- returns _ (return_ _) => apply returns_return; solve [ auto ]
        | |- returns _ (ret _) => apply returns_ret
        | |- returns _ (modify _) => apply returns_modify
        | |- returns _ (if ?c then _ else _) => destruct c
        | |- returns _ (match ?x with Some _ => _ | None => _ end) => destruct x
        end ].
Qed.

(** X4.  When [parse_args] does not return (the help flag, whose
    [usage] leaves with [exit(0)], or [atoi] on the null pointer after a
    trailing [-W] or [-H]), the process ends there: [main] has made no
    call on the device or the display, has not touched the state, and
    does not run the teardown. *)
Theorem parser_exit_ends_the_process env fuel argv s0 a0 e a tp :
  parse_args argv a0 = (Return e, a, tp) ->
  main env fuel argv (s0, a0) = (Return e, (s0, a), tp)
  /\ (e = Exited 0 \/ e = Undefined "atoi(NULL)")
  /\ forallb (within_argv argv) tp = true.
Proof.
  intros Hp.
  assert (e = Exited 0 \/ e = Undefined "atoi(NULL)") as He.
  { pose proof (parse_args_ends argv a0) as Hfuel.
    pose proof (parse_loop_returns argv (S (List.length argv)) 1
                  (mk_args (Some DEFAULT_VIDEODEVICE) DEFAULT_SCREEN_WIDTH
                           DEFAULT_SCREEN_HEIGHT 0) e) as Hr.
    rewrite <- (parse_args_eq argv a0), Hp in Hr.
    rewrite Hp in Hfuel. cbn [result_of fst] in *.
    destruct (Hr eq_refl) as [?|[?|?]]; auto. subst e. contradiction. }
  split; [|split; [exact He|]].
  - apply main_parse_stops; [exact Hp|]. destruct He; subst e; discriminate.
  - pose proof (parse_args_within argv a0) as H. rewrite Hp in H. exact H.
Qed.

(** ** [init] from call to call (X5, X6, X12) *)

Lemma map_buffer_run env i s a :
  map_buffer env i (s, a)
  = let b := snd (env_querybuf env (request_buffer i)) in
    let r := fst (env_querybuf env (request_buffer i)) in
    let q := Equerybuf (st_fd s) (request_buffer i) r in
    let m := Emmap (buf_length b) (st_fd s) (buf_offset b) (mapped env i) in
    let s' := mem_store i (mapped env i) (set_buf b s) in
    if r <? 0 then
      (Return 0, (set_buf b s, a), [q; Estderr "Unable to query buffer %d"])
    else if mapped env i =? MAP_FAILED then
      (Return 0, (s', a), [q; m; Estderr "Unable to map buffer %d"])
    else (Next tt, (s', a), [q; m]).
Proof.
  unfold map_buffer, mapped. step. cbn [st_buf set_buf st_fd].
  destruct (fst (env_querybuf env (request_buffer i)) <? 0); step; [reflexivity|].
  cbn [st_buf set_buf st_fd].
  destruct (env_mmap env i _ _ =? MAP_FAILED); step; reflexivity.
Qed.

Lemma queue_buffer_run env i s a :
  queue_buffer env i (s, a)
  = let b := snd (env_qbuf_init env (request_buffer i)) in
    let r := fst (env_qbuf_init env (request_buffer i)) in
    let q := Eqbuf (st_fd s) (request_buffer i) r in
    if r <? 0 then (Return 0, (set_buf b s, a), [q; Estderr "Unable to queue buffer %d"])
    else (Next tt, (set_buf b s, a), [q]).
Proof.
  unfold queue_buffer. step. cbn [st_buf set_buf st_fd].
  destruct (fst (env_qbuf_init env (request_buffer i)) <? 0); step; reflexivity.
Qed.

Lemma map_loop_spec env n :
  forall i fr,
    let x := for_loop n i (map_buffer env) fr in
    result_of x = (if forallb (map_ok env) (zrange i n) then Next tt else Return 0)
    /\ forallb setup_event (trace_of x) = true
    /\ (result_of x = Next tt ->
        mmap_returns (trace_of x) = map (mapped env) (zrange i n)
        /\ forall j, st_mem (fst (store_of x)) j
                     = if existsb (Z.eqb j) (zrange i n) then mapped env j
                       else st_mem (fst fr) j).
Proof.
  induction n as [|n IH]; intros i [s a]; cbv zeta.
  - cbn. auto.
  - cbn [for_loop zrange forallb existsb map]. rewrite bind_eq, map_buffer_run. cbv zeta.
    unfold map_ok at 1.
    destruct (fst (env_querybuf env (request_buffer i)) <? 0); cbn [negb andb].
    { cbn. split; [reflexivity|]. split; [reflexivity | discriminate]. }
    destruct (mapped env i =? MAP_FAILED); cbn [negb andb].
    { cbn. split; [reflexivity|]. split; [reflexivity | discriminate]. }
    specialize (IH (i + 1)
                   (mem_store i (mapped env i)
                              (set_buf (snd (env_querybuf env (request_buffer i))) s), a)).
    cbv zeta in IH.
    destruct (for_loop n (i + 1) (map_buffer env) _) as [[o2 [s2 a2]] t2].
    destruct IH as (Hres & Hquiet & Hmem).
    cbn [result_of store_of trace_of fst snd] in *.
    split; [exact Hres|]. split; [cbn; exact Hquiet|].
    intros Hnext. destruct (Hmem Hnext) as [Hret Hslot]. split.
    + unfold mmap_returns in *. cbn [flat_map app]. rewrite Hret. reflexivity.
    + intros j. rewrite Hslot. cbn [mem_store set_mem st_mem set_buf].
      destruct (Z.eqb_spec j i) as [->|Hji]; cbn [orb].
      * destruct (existsb _ _); reflexivity.
      * reflexivity.
Qed.

Lemma queue_loop_spec env n :
  forall i fr,
    let x := for_loop n i (queue_buffer env) fr in
    result_of x = (if forallb (queue_ok env) (zrange i n) then Next tt else Return 0)
    /\ forallb setup_event (trace_of x) = true
    /\ mmap_returns (trace_of x) = []
    /\ st_mem (fst (store_of x)) = st_mem (fst fr).
Proof.
  induction n as [|n IH]; intros i [s a]; cbv zeta.
  - cbn. auto.
  - cbn [for_loop zrange forallb]. rewrite bind_eq, queue_buffer_run. cbv zeta.
    unfold queue_ok at 1.
    destruct (fst (env_qbuf_init env (request_buffer i)) <? 0); cbn [negb andb].
    { cbn. auto. }
    specialize (IH (i + 1) (set_buf (snd (env_qbuf_init env (request_buffer i))) s, a)).
    cbv zeta in IH.
    destruct (for_loop n (i + 1) (queue_buffer env) _) as [[o2 [s2 a2]] t2].
    destruct IH as (Hres & Hquiet & Hret & Hmem).
    cbn [result_of store_of trace_of fst snd] in *.
    split; [exact Hres|]. split; [cbn; exact Hquiet|].
    split; [unfold mmap_returns in *; cbn [flat_map app]; exact Hret|].
    rewrite Hmem. reflexivity.
Qed.

Lemma slots_zrange : slots = zrange 0 (Z.to_nat NUMBUFS).
Proof. reflexivity. Qed.

Lemma in_slots_existsb j : In j slots -> existsb (Z.eqb j) slots = true.
Proof.
  intros H. apply existsb_exists. exists j. split; [exact H | apply Z.eqb_refl].
Qed.

(** The whole of [init] in one pass. *)

Ltac tidy :=
  cbn [st_cap st_fmt st_rb st_buf st_fd st_mem st_window st_renderer st_texture
       st_width st_height st_quit set_cap set_fmt set_rb set_buf set_fd set_mem
       set_window set_renderer set_texture set_width set_height set_quit
       fst snd] in *.

Ltac checks_fail :=
  unfold init_checks, format_request, buffers_request, window_flags;
  repeat match goal with
         | H : _ = true |- _ => rewrite H
         | H : _ = false |- _ => rewrite H
         end;
  cbn [negb andb]; rewrite ?andb_false_r; reflexivity.

Ltac quiet_trace :=
  repeat (cbn [forallb app]; rewrite ?forallb_app);
  repeat match goal with
         | H : forallb setup_event _ = true |- _ => rewrite H
         end;
  reflexivity.

Ltac gives_up :=
  tidy; split; [checks_fail | split; [reflexivity | split; [quiet_trace | discriminate]]].

Lemma init_run env s0 a :
  wp (init env) (s0, a)
     (fun o fr t =>
        o = Return (if init_checks env a then 1 else 0)
        /\ snd fr = a
        /\ forallb setup_event t = true
        /\ (o = Return 1 ->
            ready env a (fst fr) /\ mmap_returns t = map (mapped env) slots)).
Proof.
  unfold init. wp_steps.
  do 5 wp_branch gives_up.
  tidy. rewrite !Z.eqb_refl. cbn [negb orb].
  apply wp_when; intros Hdead; [discriminate|]. clear Hdead. wp_steps.
  wp_branch gives_up.
  (* map buffers *)
  apply wp_bind, wp_run. intros o1 [s1 a1] t1 E1.
  destruct (ring_loop_facts _ _ _ _ _ _ _ (map_buffer_keeps env) (map_buffer_returns env) E1)
    as [K1 _].
  match type of E1 with
  | for_loop _ _ _ ?fr = _ =>
      pose proof (map_loop_spec env (Z.to_nat NUMBUFS) 0 fr) as L1
  end. cbv zeta in L1.
  rewrite E1 in L1. cbn [result_of store_of trace_of fst snd] in L1.
  change (zrange 0 (Z.to_nat NUMBUFS)) with slots in L1.
  destruct L1 as (R1 & Q1 & M1). unfold outside_ring in K1. tidy.
  injection K1 as _ _ _ Kfd1 _ _ _ Kw1 Kh1 Kq1 Ka1. subst a1.
  destruct (forallb (map_ok env) slots) eqn:Hmap; subst o1; cbv beta iota delta [then_].
  2:{ gives_up. }
  destruct (M1 eq_refl) as [Mret Mmem]. clear M1.
  (* queue buffers *)
  apply wp_bind, wp_run. intros o2 [s2 a2] t2 E2.
  destruct (ring_loop_facts _ _ _ _ _ _ _ (queue_buffer_keeps env)
                            (queue_buffer_returns env) E2) as [K2 _].
  pose proof (queue_loop_spec env (Z.to_nat NUMBUFS) 0 (s1, a)) as L2. cbv zeta in L2.
  rewrite E2 in L2. cbn [result_of store_of trace_of fst snd] in L2.
  change (zrange 0 (Z.to_nat NUMBUFS)) with slots in L2.
  destruct L2 as (R2 & Q2 & Mret2 & Mmem2). unfold outside_ring in K2. tidy.
  injection K2 as _ _ _ Kfd2 _ _ _ Kw2 Kh2 Kq2 Ka2. subst a2.
  rewrite Kfd1 in Kfd2. rewrite Kw1 in Kw2. rewrite Kh1 in Kh2. rewrite Kq1 in Kq2.
  destruct (forallb (queue_ok env) slots) eqn:Hqueue; subst o2;
    cbv beta iota delta [then_].
  2:{ gives_up. }
  wp_steps.
  do 2 wp_branch gives_up.
  rewrite Kw2, Kh2.
  wp_branch gives_up.
  tidy. split; [|split; [reflexivity|split]].
  - unfold init_checks, format_request, buffers_request, window_flags.
    repeat match goal with
           | H : _ = true |- _ => rewrite H
           | H : _ = false |- _ => rewrite H
           end.
    reflexivity.
  - quiet_trace.
  - intros _. split.
    + constructor; tidy; try assumption; try reflexivity.
      intros i Hi. rewrite Mmem2, Mmem, (in_slots_existsb i Hi). reflexivity.
    + unfold mmap_returns in *. cbn [flat_map app]. rewrite !flat_map_app.
      rewrite Mret, Mret2. cbn [flat_map app]. rewrite !app_nil_r. reflexivity.
Qed.

Lemma init_result env s0 a :
  result_of (init env (s0, a)) = Return (if init_checks env a then 1 else 0).
Proof.
  exact (proj1 (wp_eq _ _ _ _ _ _ (init_run env s0 a) (triple_eta _))).
Qed.

Lemma init_ready env s0 a s1 a1 ti :
  init env (s0, a) = (Return 1, (s1, a1), ti) ->
  ready env a s1 /\ a1 = a /\ mmap_returns ti = map (mapped env) slots
  /\ forallb setup_event ti = true.
Proof.
  intros E. destruct (wp_eq _ _ _ _ _ _ (init_run env s0 a) E) as (_ & Ha & Hq & Hok).
  destruct (Hok eq_refl) as [Hr Hm]. auto.
Qed.

(** X5.  [init] returns 1 exactly when every answer that it tests
    passes its test: open, the capability query and its two bits, the
    set-format call, the buffer request, the query and the mapping of
    each of the 16 slots, the queueing of each of the 16 slots,
    stream-on, [SDL_Init] and the creation of the window and the
    renderer; it returns 0 at the first test that fails and never lets
    the end of its body be reached.  The creation of the texture is not
    among the tests: after a successful [init] the state holds whatever
    [SDL_CreateTexture] returned, a null pointer included. *)
Theorem init_succeeds_iff_every_check_passes env s0 a :
  result_of (init env (s0, a)) = Return (if init_checks env a then 1 else 0)
  /\ (init_checks env a = true ->
      st_texture (fst (store_of (init env (s0, a))))
      = env_create_texture env (ar_width a) (ar_height a)).
Proof.
  split; [apply init_result|].
  intros Hc. pose proof (init_result env s0 a) as Hr. rewrite Hc in Hr.
  destruct (init env (s0, a)) as [[o [s1 a1]] ti] eqn:E.
  cbn [result_of store_of fst snd] in *. subst o.
  destruct (init_ready env s0 a s1 a1 ti E) as (Hready & _).
  exact (ready_texture _ _ _ Hready).
Qed.

Lemma setup_event_no_notice e : setup_event e = true -> resolution_notice e = false.
Proof.
  destruct e; cbn; try reflexivity; try discriminate.
  intros H. apply negb_true_iff in H. exact H.
Qed.

Lemma setup_event_no_teardown e : setup_event e = true -> is_teardown e = false.
Proof. destruct e; cbn; try reflexivity; try discriminate. Qed.

(** X12.  Whatever the driver answers to the set-format call, [init]
    leaves the requested width and height (and every other setting) as
    [parse_args] stored them, and never prints that the requested
    resolution is not available or that another one is in use: the block
    of lines 144-156 never runs.  This holds for every run of [init],
    failed or successful. *)
Theorem init_never_adjusts_the_request env s0 a :
  snd (store_of (init env (s0, a))) = a
  /\ forallb (fun e => negb (resolution_notice e)) (trace_of (init env (s0, a))) = true.
Proof.
  destruct (wp_eq _ _ _ _ _ _ (init_run env s0 a) (triple_eta _)) as (_ & Ha & Hq & _).
  split; [exact Ha|].
  rewrite forallb_forall in *. intros e He.
  rewrite (setup_event_no_notice e (Hq e He)). reflexivity.
Qed.

(** ** The loop keeps what [init] set up (X6, X13) *)

Lemma render_settled env n : keeps settled (render env n).
Proof.
  intros s. unfold render. step.
  destruct (_ <? 0); step; [reflexivity|].
  destruct (Int.div _ _); step; [|reflexivity].
  destruct (negb _); step; destruct (_ <? 0); step; reflexivity.
Qed.

Lemma render_keeps_quit env n : keeps st_quit (render env n).
Proof.
  intros s. unfold render. step.
  destruct (_ <? 0); step; [reflexivity|].
  destruct (Int.div _ _); step; [|reflexivity].
  destruct (negb _); step; destruct (_ <? 0); step; reflexivity.
Qed.

Lemma main_loop_keeps_settled env fuel :
  forall n s,
    settled (store_of (main_loop env fuel n s)) = settled s
    /\ (result_of (main_loop env fuel n s) = Next tt ->
        st_quit (store_of (main_loop env fuel n s)) <> 0).
Proof.
  induction fuel as [|fuel IH]; intros n s.
  - split; [reflexivity | discriminate].
  - destruct (Z.eq_dec (st_quit s) 0) as [Hq|Hq].
    2:{ rewrite (main_loop_done env fuel n s Hq). split; [reflexivity | intros _; exact Hq]. }
    destruct (main_loop_turn env fuel n s Hq) as (s1 & t1 & E1 & _ & _ & ->).
    assert (settled s1 = settled s) as Hs1.
    { rewrite call_void_spec in E1. unfold handle_events in E1.
      rewrite drain_quit in E1. injection E1 as <- _.
      destruct (existsb asks_to_quit (env_poll_events env n)); reflexivity. }
    pose proof (render_settled env n s1) as Hr.
    destruct (render env n s1) as [[o2 s2] t2]. cbn [store_of fst snd] in Hr.
    destruct (IH (S n) s2) as [Hk Hend].
    destruct o2 as [[]|[| | |]]; cbn [result_of store_of fst snd];
      (split; [congruence | first [exact Hend | discriminate]]).
Qed.

(** X13.  The steady-state loop works on two fields only.  Over any
    number of turns and whatever the device and the display answer, the
    descriptor, the 16 slots of [mem], the window, the renderer, the
    texture, the recorded width and height, and the capability, format
    and request structures are after the loop what they were before it;
    only [buf] and [quit] change.  When the loop ends by its own test,
    the quit flag is up. *)
Theorem loop_changes_only_buf_and_quit env fuel n s :
  settled (store_of (main_loop env fuel n s)) = settled s
  /\ (result_of (main_loop env fuel n s) = Next tt ->
      st_quit (store_of (main_loop env fuel n s)) <> 0).
Proof. apply main_loop_keeps_settled. Qed.

Lemma released_quit env s :
  released (quit_events env s)
  = map (fun i => Mapping (st_mem s i) (buf_length (st_buf s))) slots
    ++ (if st_fd s =? 0 then [] else [Descriptor (st_fd s)])
    ++ (if st_texture s =? NULL then [] else [Texture (st_texture s)])
    ++ (if st_renderer s =? NULL then [] else [Renderer (st_renderer s)])
    ++ (if st_window s =? NULL then [] else [Window (st_window s)]).
Proof.
  unfold quit_events.
  destruct (env_streamoff env <? 0), (st_fd s =? 0), (st_texture s =? NULL),
    (st_renderer s =? NULL), (st_window s =? NULL); reflexivity.
Qed.

(** X6.  From [init] through the loop to [quit].  After a successful
    [init] and any number of turns of the loop, the teardown names for
    release what [init] obtained, in this order: for each of the 16 slots
    the address that [mmap] returned for it (with the length that
    [s->buf] holds at that moment), then the descriptor that [open]
    returned unless it is 0, then the texture, the renderer and the
    window that SDL returned unless they are null. *)
Theorem teardown_names_what_init_obtained env fuel n s0 a s1 a1 ti :
  init env (s0, a) = (Return 1, (s1, a1), ti) ->
  let s2 := store_of (main_loop env fuel n s1) in
  let fd := env_open env (ar_videodevice a) in
  let made := env_create_window_and_renderer env (ar_width a) (ar_height a)
                                             (window_flags a) in
  let tex := env_create_texture env (ar_width a) (ar_height a) in
  mmap_returns ti = map (mapped env) slots
  /\ released (trace_of (quit env s2))
     = map (fun i => Mapping (mapped env i) (buf_length (st_buf s2))) slots
       ++ (if fd =? 0 then [] else [Descriptor fd])
       ++ (if tex =? NULL then [] else [Texture tex])
       ++ (if snd made =? NULL then [] else [Renderer (snd made)])
       ++ (if snd (fst made) =? NULL then [] else [Window (snd (fst made))]).
Proof.
  intros E. cbv zeta.
  destruct (init_ready env s0 a s1 a1 ti E) as (Hready & _ & Hmap & _).
  split; [exact Hmap|].
  destruct (main_loop_keeps_settled env fuel n s1) as [Hk _].
  unfold settled in Hk. injection Hk as _ _ _ Kfd Kmem Kwin Kren Ktex _ _.
  rewrite quit_spec. cbn [trace_of snd]. rewrite released_quit.
  rewrite Kfd, Kmem, Kwin, Kren, Ktex.
  rewrite (ready_fd _ _ _ Hready), (ready_texture _ _ _ Hready),
    (ready_renderer _ _ _ Hready), (ready_window _ _ _ Hready).
  f_equal. apply map_ext_in. intros i Hi.
  rewrite (ready_mem _ _ _ Hready i Hi). reflexivity.
Qed.

(** ** [render] on a good frame, and on a width of zero (X7, X8) *)

Lemma copy_size_exact s :
  0 <= st_width s * st_height s < 2 ^ 31 ->
  copy_size s = 2 * (st_width s * st_height s).
Proof.
  intros H. unfold copy_size, Int.to_size, Int.to_i32, sizeof_Uint16.
  rewrite (Z.mod_small (st_width s * st_height s + 2 ^ 31)) by lia.
  replace (st_width s * st_height s + 2 ^ 31 - 2 ^ 31) with (st_width s * st_height s)
    by lia.
  rewrite (Z.mod_small (st_width s * st_height s)) by lia.
  rewrite Z.mod_small by lia. lia.
Qed.

(** X7.  A frame that goes well.  When the dequeue of the turn
    succeeds and the pitch of the texture is twice the recorded width
    (the quotient is 2), [render] locks the texture, copies out of the
    slot of [mem] that the dequeued index names, unlocks, queues the very
    buffer that it dequeued (and prints a message when the driver refuses
    it), presents the texture and returns.  The copy has
    [2 * width * height] bytes whenever that product of the recorded
    width and height fits an [int]. *)
Theorem good_frame_is_copied_and_requeued env n s :
  0 <= fst (env_dqbuf env n dequeue_request) ->
  Int.div (env_lock_texture env n) (st_width s) = Some 2 ->
  0 <= st_width s * st_height s < 2 ^ 31 ->
  let r := fst (env_dqbuf env n dequeue_request) in
  let out := snd (env_dqbuf env n dequeue_request) in
  let r' := fst (env_qbuf env n out) in
  render env n s
  = (Next tt, set_buf (snd (env_qbuf env n out)) (set_buf out s),
     [Edqbuf (st_fd s) r out;
      ESDL_LockTexture (st_texture s) (env_lock_texture env n);
      Ememcpy (buf_index out) (mem_at s (buf_index out))
              (2 * (st_width s * st_height s));
      ESDL_UnlockTexture (st_texture s);
      Eqbuf (st_fd s) out r']
     ++ (if r' <? 0 then [Estderr "Failed to requeue buffer %d"] else [])
     ++ [ESDL_RenderClear; ESDL_RenderCopy; ESDL_RenderPresent]).
Proof.
  intros Hok Hdiv Hfit. cbv zeta. rewrite <- (copy_size_exact s Hfit).
  unfold render. step. cbn [st_buf set_buf st_fd st_texture st_width].
  destruct (Z.ltb_spec (fst (env_dqbuf env n dequeue_request)) 0) as [?|_]; [lia|].
  step. cbn [st_buf set_buf st_fd st_texture st_width].
  rewrite Hdiv. step. change (negb (Int.to_size 2 =? sizeof_Uint16)) with false. step.
  cbn [st_buf set_buf st_fd st_texture st_width].
  destruct (fst (env_qbuf env n (snd (env_dqbuf env n dequeue_request))) <? 0);
    step; reflexivity.
Qed.

Lemma render_width_zero env n s :
  0 <= fst (env_dqbuf env n dequeue_request) ->
  st_width s = 0 ->
  render env n s
  = (Return (Undefined "pitch/s->width"),
     set_buf (snd (env_dqbuf env n dequeue_request)) s,
     [Edqbuf (st_fd s) (fst (env_dqbuf env n dequeue_request))
             (snd (env_dqbuf env n dequeue_request));
      ESDL_LockTexture (st_texture s) (env_lock_texture env n)]).
Proof.
  intros Hok Hw. unfold render. step. cbn [st_buf set_buf st_fd st_texture st_width].
  destruct (Z.ltb_spec (fst (env_dqbuf env n dequeue_request)) 0) as [?|_]; [lia|].
  step. cbn [st_buf set_buf st_fd st_texture st_width].
  rewrite Hw. unfold Int.div. cbn [Z.eqb]. step. reflexivity.
Qed.

(** X8.  A requested width of 0 (as [-W 0], or [-W] followed by text
    that [atoi] reads as 0) is not refused anywhere.  When [init] succeeds
    on it, no event asks to quit in the first turn and the first dequeue
    succeeds, the first frame divides the pitch by 0 in the stride test:
    the run leaves the meaning of C with that buffer dequeued and not
    queued again, and before any call of the teardown. *)
Theorem zero_width_divides_by_zero env fuel argv s0 a0 a tp :
  parse_args argv a0 = (Next tt, a, tp) ->
  ar_width a = 0 ->
  init_checks env a = true ->
  existsb asks_to_quit (env_poll_events env 0) = false ->
  0 <= fst (env_dqbuf env 0 dequeue_request) ->
  result_of (main env (S fuel) argv (s0, a0)) = Return (Undefined "pitch/s->width")
  /\ exists before fd tex,
       trace_of (main env (S fuel) argv (s0, a0))
       = before
         ++ [Edqbuf fd (fst (env_dqbuf env 0 dequeue_request))
                    (snd (env_dqbuf env 0 dequeue_request));
             ESDL_LockTexture tex (env_lock_texture env 0)]
       /\ forallb (fun e => negb (is_teardown e)) before = true.
Proof.
  intros Hp Hw Hc Hquiet Hok.
  pose proof (init_result env s0 a) as Hr. rewrite Hc in Hr.
  destruct (init env (s0, a)) as [[o [s1 a1]] ti] eqn:E.
  cbn [result_of fst] in Hr. subst o.
  destruct (init_ready env s0 a s1 a1 ti E) as (Hready & -> & _ & Hsetup).
  destruct (main_loop_turn env fuel 0%nat s1 (ready_quit _ _ _ Hready))
    as (s1' & t1 & E1 & _ & _ & Eloop).
  rewrite call_void_spec in E1. unfold handle_events in E1.
  rewrite drain_quit, Hquiet in E1. injection E1 as <- <-.
  assert (st_width s1 = 0) as Hw1 by (rewrite (ready_width _ _ _ Hready); exact Hw).
  rewrite (render_width_zero env 0%nat s1 Hok Hw1) in Eloop.
  assert (main env (S fuel) argv (s0, a0)
          = (Return (Undefined "pitch/s->width"),
             (set_buf (snd (env_dqbuf env 0 dequeue_request)) s1, a),
             tp ++ ti
             ++ (map (fun e => ESDL_PollEvent (Some e)) (env_poll_events env 0)
                 ++ [ESDL_PollEvent None])
             ++ [Edqbuf (st_fd s1) (fst (env_dqbuf env 0 dequeue_request))
                        (snd (env_dqbuf env 0 dequeue_request));
                 ESDL_LockTexture (st_texture s1) (env_lock_texture env 0)]))
    as ->.
  { rewrite (main_cases env (S fuel) argv s0 a0 a tp Hp). cbv zeta.
    rewrite E. cbn [result_of store_of trace_of fst snd].
    change (1 =? 0) with false. cbv iota. rewrite Eloop. reflexivity. }
  cbn [result_of trace_of fst snd]. split; [reflexivity|].
  exists (tp ++ ti ++ map (fun e => ESDL_PollEvent (Some e)) (env_poll_events env 0)
             ++ [ESDL_PollEvent None]),
    (st_fd s1), (st_texture s1).
  split; [rewrite <- !app_assoc; reflexivity|].
  rewrite !forallb_app.
  apply andb_true_iff; split; [|apply andb_true_iff; split;
                                 [|apply andb_true_iff; split]].
  - pose proof (parse_args_within argv a0) as Hin. rewrite Hp in Hin.
    cbn [trace_of snd] in Hin. rewrite forallb_forall in *. intros e He.
    specialize (Hin e He). destruct e; cbn in Hin |- *; try reflexivity; discriminate.
  - rewrite forallb_forall in *. intros e He.
    rewrite (setup_event_no_teardown e (Hsetup e He)). reflexivity.
  - apply forallb_forall. intros e He.
    apply in_map_iff in He. destruct He as (x & <- & _). reflexivity.
  - reflexivity.
Qed.

(** ** [main]: the way out (X9, X10, X11) *)

(** X9.  The exit status.  Once the command line is accepted, [main]
    returns [EXIT_FAILURE] exactly when one of the tests of [init] fails.
    When they all pass, [main] returns [EXIT_SUCCESS] if the loop ends,
    and otherwise does not return at all: the loop is still running when
    the fuel of the model is spent, or a frame has left the meaning of C.
    No other status is ever returned. *)
Theorem exit_status_follows_init env fuel argv s0 a0 a tp :
  parse_args argv a0 = (Next tt, a, tp) ->
  let r := result_of (main env fuel argv (s0, a0)) in
  (init_checks env a = false -> r = Return (Exited EXIT_FAILURE))
  /\ (init_checks env a = true ->
      r = Return (Exited EXIT_SUCCESS) \/ r = Return Out_of_fuel
      \/ exists w, r = Return (Undefined w))
  /\ (forall code, r = Return (Exited code) ->
      code = if init_checks env a then EXIT_SUCCESS else EXIT_FAILURE).
Proof.
  intros Hp. cbv zeta. rewrite (main_cases env fuel argv s0 a0 a tp Hp). cbv zeta.
  rewrite (init_result env s0 a).
  destruct (init_checks env a).
  - change (1 =? 0) with false. cbv iota.
    pose proof (main_loop_returns env fuel 0 (fst (store_of (init env (s0, a))))) as Hr.
    destruct (main_loop env fuel 0 _) as [[[[]|e] s2] tl]; cbn [result_of fst] in *.
    + split; [discriminate|]. split; [auto|]. intros code [= <-]. reflexivity.
    + split; [discriminate|]. split.
      * intros _. destruct (Hr e eq_refl) as [->|[w ->]]; eauto.
      * intros code [= ->]. destruct (Hr _ eq_refl) as [?|[w ?]]; discriminate.
  - change (0 =? 0) with true. cbv iota. cbn [result_of fst].
    split; [reflexivity|]. split; [discriminate|]. intros code [= <-]. reflexivity.
Qed.

(** X10.  Leaving the loop.  When an event of the turn [n] asks to
    quit, the turn is not cut short: the frame of that turn is still
    dequeued and rendered, and the loop ends after it, at its next test.
    The loop makes no further call. *)
Theorem quit_is_seen_after_the_frame env fuel n s :
  st_quit s = 0 ->
  existsb asks_to_quit (env_poll_events env n) = true ->
  is_undefined (result_of (render env n (set_quit 1 s))) = false ->
  main_loop env (S (S fuel)) n s
  = (Next tt, store_of (render env n (set_quit 1 s)),
     (map (fun e => ESDL_PollEvent (Some e)) (env_poll_events env n)
      ++ [ESDL_PollEvent None])
     ++ trace_of (render env n (set_quit 1 s))).
Proof.
  intros Hq Hask Hdef.
  destruct (main_loop_turn env (S fuel) n s Hq) as (s1 & t1 & E1 & _ & _ & ->).
  rewrite call_void_spec in E1. unfold handle_events in E1.
  rewrite drain_quit, Hask in E1. injection E1 as <- <-.
  pose proof (render_keeps_quit env n (set_quit 1 s)) as Hk.
  pose proof (render_returns env n (set_quit 1 s)) as Hr.
  destruct (render env n (set_quit 1 s)) as [[o2 s2] t2].
  cbn [result_of store_of trace_of fst snd] in *.
  assert (st_quit s2 <> 0) as Hup by (rewrite Hk; cbn; lia).
  rewrite (main_loop_done env fuel (S n) s2 Hup).
  cbn [result_of store_of trace_of fst snd]. rewrite app_nil_r.
  destruct o2 as [[]|e]; [reflexivity|].
  destruct (Hr e eq_refl) as [->|[w ->]]; [reflexivity | discriminate].
Qed.

Lemma drain_silent pending : silent loop_event (drain pending).
Proof.
  intros s. rewrite drain_quit. cbn [trace_of snd].
  rewrite forallb_app. apply andb_true_iff. split; [|reflexivity].
  apply forallb_forall. intros e He. apply in_map_iff in He.
  destruct He as (x & <- & _). reflexivity.
Qed.

Lemma render_silent env n : silent loop_event (render env n).
Proof. unfold render. walk_silent. Qed.

Lemma main_loop_silent env fuel : forall n, silent loop_event (main_loop env fuel n).
Proof.
  induction fuel as [|fuel IH]; intro n; cbn [main_loop].
  - apply silent_return.
  - apply silent_bind; [apply silent_get | intro s].
    destruct (st_quit s =? 0); [|apply silent_ret].
    apply silent_bind; [apply silent_call_void, drain_silent | intros _].
    apply silent_bind; [apply silent_call_void, render_silent | intros _].
    apply IH.
Qed.

Lemma no_teardown_before argv a0 env s0 a fuel n s1 :
  forallb (fun e => negb (is_teardown e))
          (trace_of (parse_args argv a0) ++ trace_of (init env (s0, a))
           ++ trace_of (main_loop env fuel n s1)) = true.
Proof.
  rewrite !forallb_app. apply andb_true_iff; split; [|apply andb_true_iff; split].
  - pose proof (parse_args_within argv a0) as H. rewrite forallb_forall in *.
    intros e He. specialize (H e He).
    destruct e; cbn in H |- *; try reflexivity; discriminate.
  - destruct (wp_eq _ _ _ _ _ _ (init_run env s0 a) (triple_eta _)) as (_ & _ & Hq & _).
    rewrite forallb_forall in *. intros e He.
    rewrite (setup_event_no_teardown e (Hq e He)). reflexivity.
  - pose proof (main_loop_silent env fuel n s1) as H. rewrite forallb_forall in *.
    intros e He. specialize (H e He).
    destruct e; cbn in H |- *; try reflexivity; discriminate.
Qed.

(** X11.  The teardown runs once, and last.  When the command line is
    accepted, every run of [main] that comes to a [return] of [main],
    after a failed [init] as after the loop, ends with the calls of
    [quit] in the order of its text (stream-off, with a message if it
    fails; the 16 [munmap]; [close] unless the descriptor is 0; the
    texture, the renderer and the window unless they are null;
    [SDL_Quit]), and makes none of these calls before. *)
Theorem teardown_runs_once_and_last env fuel argv s0 a0 a tp code fr t :
  parse_args argv a0 = (Next tt, a, tp) ->
  main env fuel argv (s0, a0) = (Return (Exited code), fr, t) ->
  exists before,
    t = before ++ quit_events env (fst fr)
    /\ forallb (fun e => negb (is_teardown e)) before = true.
Proof.
  intros Hp. rewrite (main_cases env fuel argv s0 a0 a tp Hp). cbv zeta.
  pose proof (no_teardown_before argv a0 env s0 a fuel 0%nat
                (fst (store_of (init env (s0, a))))) as Hno.
  rewrite Hp in Hno. cbn [trace_of snd] in Hno.
  destruct (_ =? 0).
  - intros [= _ <- <-]. cbn [fst].
    exists (tp ++ trace_of (init env (s0, a))).
    split; [rewrite <- app_assoc; reflexivity|].
    rewrite !forallb_app in *. apply andb_prop in Hno as [H1 H2].
    apply andb_prop in H2 as [H2 _]. cbn [trace_of]. rewrite H1, H2. reflexivity.
  - pose proof (main_loop_returns env fuel 0 (fst (store_of (init env (s0, a))))) as Hr.
    destruct (main_loop env fuel 0 _) as [[[[]|e] s2] tl]; cbn [result_of trace_of fst snd] in *.
    + intros [= _ <- <-]. cbn [fst].
      exists (tp ++ trace_of (init env (s0, a)) ++ tl).
      split; [rewrite <- !app_assoc; reflexivity | exact Hno].
    + intros [= -> _ _]. destruct (Hr _ eq_refl) as [?|[w ?]]; discriminate.
Qed.

(** ** Instances of the further properties *)

Lemma unknown_arguments_are_reported_and_ignored_witness :
  forallb unrecognised (tl ["camera"; "zz"; "-q"; "-"]) = true
  /\ parse_args ["camera"; "zz"; "-q"; "-"] Sample.blank_args
     = (Next tt, default_args, reports 1 (tl ["camera"; "zz"; "-q"; "-"])).
Proof.
  assert (forallb unrecognised (tl ["camera"; "zz"; "-q"; "-"]) = true) as H
    by reflexivity.
  split; [exact H|].
  exact (unknown_arguments_are_reported_and_ignored
           ["camera"; "zz"; "-q"; "-"] Sample.blank_args H).
Defined.

Lemma parser_exit_ends_the_process_witness :
  parse_args ["camera"; "-h"] Sample.blank_args
  = (Return (Exited 0), store_of (parse_args ["camera"; "-h"] Sample.blank_args),
     trace_of (parse_args ["camera"; "-h"] Sample.blank_args))
  /\ main (Sample.device Sample.webcam) 2 ["camera"; "-h"]
          (Sample.blank_state, Sample.blank_args)
     = (Return (Exited 0),
        (Sample.blank_state, store_of (parse_args ["camera"; "-h"] Sample.blank_args)),
        trace_of (parse_args ["camera"; "-h"] Sample.blank_args)).
Proof.
  assert (parse_args ["camera"; "-h"] Sample.blank_args
          = (Return (Exited 0), store_of (parse_args ["camera"; "-h"] Sample.blank_args),
             trace_of (parse_args ["camera"; "-h"] Sample.blank_args))) as H
    by reflexivity.
  split; [exact H|].
  exact (proj1 (parser_exit_ends_the_process (Sample.device Sample.webcam) 2
                  ["camera"; "-h"] Sample.blank_state Sample.blank_args _ _ _ H)).
Defined.

Lemma teardown_names_what_init_obtained_witness :
  result_of (init (Sample.device Sample.webcam) (Sample.blank_state, default_args))
  = Return 1
  /\ mmap_returns (trace_of (init (Sample.device Sample.webcam)
                                  (Sample.blank_state, default_args)))
     = map (mapped (Sample.device Sample.webcam)) slots.
Proof.
  assert (result_of (init (Sample.device Sample.webcam)
                          (Sample.blank_state, default_args)) = Return 1) as R
    by (vm_compute; reflexivity).
  split; [exact R|].
  destruct (init (Sample.device Sample.webcam) (Sample.blank_state, default_args))
    as [[o [s1 a1]] ti] eqn:E.
  cbn [result_of fst] in R. subst o. cbn [trace_of snd].
  exact (proj1 (teardown_names_what_init_obtained (Sample.device Sample.webcam) 3 0
                  Sample.blank_state default_args s1 a1 ti E)).
Defined.

Lemma good_frame_is_copied_and_requeued_witness :
  (0 <= fst (env_dqbuf (Sample.device Sample.webcam) 0 dequeue_request)
   /\ Int.div (env_lock_texture (Sample.device Sample.webcam) 0)
              (st_width (set_height 600 (set_width 800 zero_state))) = Some 2
   /\ 0 <= st_width (set_height 600 (set_width 800 zero_state))
           * st_height (set_height 600 (set_width 800 zero_state)) < 2 ^ 31)
  /\ In (Ememcpy 0 (Some 0) 960000)
        (trace_of (render (Sample.device Sample.webcam) 0
                          (set_height 600 (set_width 800 zero_state)))).
Proof.
  assert (0 <= fst (env_dqbuf (Sample.device Sample.webcam) 0 dequeue_request)) as H1
    by (cbn; lia).
  assert (Int.div (env_lock_texture (Sample.device Sample.webcam) 0)
                  (st_width (set_height 600 (set_width 800 zero_state))) = Some 2) as H2
    by reflexivity.
  assert (0 <= st_width (set_height 600 (set_width 800 zero_state))
               * st_height (set_height 600 (set_width 800 zero_state)) < 2 ^ 31) as H3
    by (cbn; lia).
  split; [auto|].
  rewrite (good_frame_is_copied_and_requeued (Sample.device Sample.webcam) 0
             (set_height 600 (set_width 800 zero_state)) H1 H2 H3).
  cbn. auto.
Defined.

Lemma zero_width_divides_by_zero_witness :
  (parse_args ["camera"; "-W"; "0"] Sample.blank_args
   = (Next tt, mk_args (Some DEFAULT_VIDEODEVICE) 0 DEFAULT_SCREEN_HEIGHT 0,
      [Eargv_flag 1 "-W"; Eargv_value 2 (Some "0"); Eatoi (Some "0")])
   /\ init_checks (Sample.device Sample.webcam)
                  (mk_args (Some DEFAULT_VIDEODEVICE) 0 DEFAULT_SCREEN_HEIGHT 0) = true
   /\ existsb asks_to_quit (env_poll_events (Sample.device Sample.webcam) 0) = false
   /\ 0 <= fst (env_dqbuf (Sample.device Sample.webcam) 0 dequeue_request))
  /\ result_of (main (Sample.device Sample.webcam) 1 ["camera"; "-W"; "0"]
                     (Sample.blank_state, Sample.blank_args))
     = Return (Undefined "pitch/s->width").
Proof.
  assert (parse_args ["camera"; "-W"; "0"] Sample.blank_args
          = (Next tt, mk_args (Some DEFAULT_VIDEODEVICE) 0 DEFAULT_SCREEN_HEIGHT 0,
             [Eargv_flag 1 "-W"; Eargv_value 2 (Some "0"); Eatoi (Some "0")])) as H1
    by reflexivity.
  assert (ar_width (mk_args (Some DEFAULT_VIDEODEVICE) 0 DEFAULT_SCREEN_HEIGHT 0) = 0)
    as H2 by reflexivity.
  assert (init_checks (Sample.device Sample.webcam)
                      (mk_args (Some DEFAULT_VIDEODEVICE) 0 DEFAULT_SCREEN_HEIGHT 0)
          = true) as H3 by (vm_compute; reflexivity).
  assert (existsb asks_to_quit (env_poll_events (Sample.device Sample.webcam) 0)
          = false) as H4 by reflexivity.
  assert (0 <= fst (env_dqbuf (Sample.device Sample.webcam) 0 dequeue_request)) as H5
    by (cbn; lia).
  split; [auto|].
  exact (proj1 (zero_width_divides_by_zero (Sample.device Sample.webcam) 0
                  ["camera"; "-W"; "0"] Sample.blank_state Sample.blank_args _ _
                  H1 H2 H3 H4 H5)).
Defined.

Lemma exit_status_follows_init_witness :
  (parse_args ["camera"] Sample.blank_args = (Next tt, default_args, [])
   /\ init_checks (Sample.device no_device) default_args = false)
  /\ result_of (main (Sample.device no_device) 2 ["camera"]
                     (Sample.blank_state, Sample.blank_args))
     = Return (Exited EXIT_FAILURE).
Proof.
  assert (parse_args ["camera"] Sample.blank_args = (Next tt, default_args, [])) as H
    by reflexivity.
  assert (init_checks (Sample.device no_device) default_args = false) as Hc
    by reflexivity.
  split; [auto|].
  exact (proj1 (exit_status_follows_init (Sample.device no_device) 2 ["camera"]
                  Sample.blank_state Sample.blank_args default_args [] H) Hc).
Defined.

Lemma quit_is_seen_after_the_frame_witness :
  (st_quit (set_width 1920 zero_state) = 0
   /\ existsb asks_to_quit (env_poll_events (Sample.device downscaler) 0) = true
   /\ is_undefined (result_of (render (Sample.device downscaler) 0
                                      (set_quit 1 (set_width 1920 zero_state)))) = false)
  /\ result_of (main_loop (Sample.device downscaler) 2 0 (set_width 1920 zero_state))
     = Next tt.
Proof.
  assert (st_quit (set_width 1920 zero_state) = 0) as H1 by reflexivity.
  assert (existsb asks_to_quit (env_poll_events (Sample.device downscaler) 0) = true)
    as H2 by reflexivity.
  assert (is_undefined (result_of (render (Sample.device downscaler) 0
                                          (set_quit 1 (set_width 1920 zero_state))))
          = false) as H3 by (vm_compute; reflexivity).
  split; [auto|].
  rewrite (quit_is_seen_after_the_frame (Sample.device downscaler) 0 0
             (set_width 1920 zero_state) H1 H2 H3).
  reflexivity.
Defined.

Lemma teardown_runs_once_and_last_witness :
  (parse_args ["camera"] Sample.blank_args = (Next tt, default_args, [])
   /\ result_of (main (Sample.device Sample.webcam) 4 ["camera"]
                      (Sample.blank_state, Sample.blank_args))
      = Return (Exited EXIT_SUCCESS))
  /\ exists before,
       trace_of (main (Sample.device Sample.webcam) 4 ["camera"]
                      (Sample.blank_state, Sample.blank_args))
       = before
         ++ quit_events (Sample.device Sample.webcam)
              (fst (store_of (main (Sample.device Sample.webcam) 4 ["camera"]
                                   (Sample.blank_state, Sample.blank_args))))
       /\ forallb (fun e => negb (is_teardown e)) before = true.
Proof.
  assert (parse_args ["camera"] Sample.blank_args = (Next tt, default_args, [])) as H
    by reflexivity.
  assert (result_of (main (Sample.device Sample.webcam) 4 ["camera"]
                          (Sample.blank_state, Sample.blank_args))
          = Return (Exited EXIT_SUCCESS)) as R by (vm_compute; reflexivity).
  split; [auto|].
  destruct (main (Sample.device Sample.webcam) 4 ["camera"]
                 (Sample.blank_state, Sample.blank_args)) as [[o fr] t] eqn:E.
  cbn [result_of fst] in R. subst o. cbn [trace_of store_of fst snd].
  exact (teardown_runs_once_and_last (Sample.device Sample.webcam) 4 ["camera"]
           Sample.blank_state Sample.blank_args default_args [] _ fr t H E).
Defined.

(** ** Values and flags (X14) *)

Lemma parse_loop_value_is_no_flag argv i arg s' :
  takes_value arg = true ->
  forall fuel i0 a,
    In (Eargv_flag i arg) (trace_of (parse_loop fuel argv i0 a)) ->
    ~ In (Eargv_flag (S i) s') (trace_of (parse_loop fuel argv i0 a)).
Proof.
  intros Hval. induction fuel as [|fuel IH]; intros i0 a; cbn [parse_loop]; [intros []|].
  destruct (Nat.ltb_spec i0 (List.length argv)) as [Hi|Hi]; [|intros []].
  rewrite bind_eq.
  destruct (parse_arg_spec argv i0 a) as (t' & Et & Hquiet & Hres).
  destruct (parse_arg argv i0 a) as [[[i'|e] a1] t1];
    cbn [result_of store_of trace_of fst snd] in *; subst t1.
  - destruct Hres as [Hrange Hnext]. cbn [app]. intros [Hhead|Hin] [Hhead'|Hin'].
    + injection Hhead' as E _. injection Hhead as E' _. lia.
    + injection Hhead as -> Harg. rewrite Harg in Hnext.
      destruct (Hnext Hval) as (-> & _).
      apply in_app_or in Hin'. destruct Hin' as [Hin'|Hin'].
      * exact (not_at_loop_head _ _ _ Hquiet Hin').
      * pose proof (parse_loop_flags_from argv _ _ _ _ _ Hin'). lia.
    + injection Hhead' as E _.
      apply in_app_or in Hin. destruct Hin as [Hin|Hin].
      * exact (not_at_loop_head _ _ _ Hquiet Hin).
      * pose proof (parse_loop_flags_from argv _ _ _ _ _ Hin). lia.
    + apply in_app_or in Hin. apply in_app_or in Hin'.
      destruct Hin as [Hin|Hin]; [exact (not_at_loop_head _ _ _ Hquiet Hin)|].
      destruct Hin' as [Hin'|Hin']; [exact (not_at_loop_head _ _ _ Hquiet Hin')|].
      exact (IH _ _ Hin Hin').
  - intros [Hhead|Hin] [Hhead'|Hin'].
    + injection Hhead' as E _. injection Hhead as E' _. lia.
    + exact (not_at_loop_head _ _ _ Hquiet Hin').
    + exact (not_at_loop_head _ _ _ Hquiet Hin).
    + exact (not_at_loop_head _ _ _ Hquiet Hin).
Qed.

(** X14.  The argument that follows [-d], [-W] or [-H] is its value,
    whatever it looks like.  On every command line, when the scan reads
    the argument [i] as one of these three flags, it never reads the
    argument [i+1] at the head of its loop: that argument is not examined
    as a flag (so that [-d -f] names a device [-f] and does not ask for
    the full screen) and is not reported. *)
Theorem value_of_a_flag_is_never_read_as_a_flag argv a0 i arg s' :
  In (Eargv_flag i arg) (trace_of (parse_args argv a0)) ->
  takes_value arg = true ->
  ~ In (Eargv_flag (S i) s') (trace_of (parse_args argv a0)).
Proof.
  intros Hin Hval. revert Hin. rewrite parse_args_eq.
  apply parse_loop_value_is_no_flag. exact Hval.
Qed.

(** ** Uninitialised storage (X15) *)

Lemma init_from_zero env s0 s0' a : init env (s0, a) = init env (s0', a).
Proof. reflexivity. Qed.

(** X15.  [main] reads nothing of what its two automatic structures
    hold at entry: [parse_args] writes the four settings before its loop
    and [init] clears the state before its first call.  Whatever the two
    structures contain, the run makes the same calls and ends in the same
    way. *)
Theorem main_ignores_uninitialised_storage env fuel argv s0 a0 s0' a0' :
  result_of (main env fuel argv (s0, a0)) = result_of (main env fuel argv (s0', a0'))
  /\ trace_of (main env fuel argv (s0, a0)) = trace_of (main env fuel argv (s0', a0')).
Proof.
  pose proof (parse_args_eq argv a0) as E. pose proof (parse_args_eq argv a0') as E'.
  rewrite <- E' in E.
  destruct (parse_args argv a0') as [[[[]|e] a] tp] eqn:Hp'.
  - rewrite (main_cases env fuel argv s0 a0 a tp E).
    rewrite (main_cases env fuel argv s0' a0' a tp Hp'). cbv zeta.
    rewrite (init_from_zero env s0 s0' a). split; reflexivity.
  - assert (e <> Returned) as He.
    { pose proof (parse_loop_returns argv (S (List.length argv)) 1
                    (mk_args (Some DEFAULT_VIDEODEVICE) DEFAULT_SCREEN_WIDTH
                             DEFAULT_SCREEN_HEIGHT 0) e) as Hr.
      rewrite <- (parse_args_eq argv a0'), Hp' in Hr.
      destruct (Hr eq_refl) as [?|[?|?]]; subst e; discriminate. }
    rewrite (main_parse_stops env fuel argv s0 a0 e a tp E He).
    rewrite (main_parse_stops env fuel argv s0' a0' e a tp Hp' He).
    split; reflexivity.
Qed.

Lemma value_of_a_flag_is_never_read_as_a_flag_witness :
  (In (Eargv_flag 1 "-d") (trace_of (parse_args ["camera"; "-d"; "-f"] Sample.blank_args))
   /\ takes_value "-d" = true)
  /\ ~ In (Eargv_flag 2 "-f")
          (trace_of (parse_args ["camera"; "-d"; "-f"] Sample.blank_args)).
Proof.
  assert (In (Eargv_flag 1 "-d")
             (trace_of (parse_args ["camera"; "-d"; "-f"] Sample.blank_args))) as H1
    by (cbn; auto).
  assert (takes_value "-d" = true) as H2 by reflexivity.
  split; [auto|].
  exact (value_of_a_flag_is_never_read_as_a_flag ["camera"; "-d"; "-f"]
           Sample.blank_args 1 "-d" "-f" H1 H2).
Defined.

(** ** The ring, call by call (C2) *)

Lemma up_to_failure_app {X} (l1 l2 : list (X * bool)) :
  up_to_failure (l1 ++ l2)
  = if forallb snd l1 then map fst l1 ++ up_to_failure l2 else up_to_failure l1.
Proof.
  induction l1 as [|[x ok] l1 IH]; cbn [app up_to_failure forallb map fst snd];
    [reflexivity|].
  destruct ok; cbn [andb]; [|reflexivity].
  rewrite IH. destruct (forallb snd l1); reflexivity.
Qed.

Lemma up_to_failure_all {X} (l : list (X * bool)) :
  forallb snd l = true -> up_to_failure l = map fst l.
Proof.
  intros H. rewrite <- (app_nil_r l) at 1. rewrite up_to_failure_app, H.
  apply app_nil_r.
Qed.

Lemma map_outcomes_ok env l :
  forallb snd (map_outcomes env l) = forallb (map_ok env) l.
Proof.
  induction l as [|i l IH]; [reflexivity|].
  cbn [map_outcomes flat_map app forallb snd]. fold (map_outcomes env l).
  rewrite IH. unfold map_ok. rewrite andb_assoc. reflexivity.
Qed.

Lemma queue_outcomes_ok env l :
  forallb snd (queue_outcomes env l) = forallb (queue_ok env) l.
Proof. induction l as [|i l IH]; [reflexivity|]. cbn. rewrite <- IH. reflexivity. Qed.

Lemma plan_outcomes_ok env :
  forallb snd (plan_outcomes env)
  = forallb (map_ok env) slots && forallb (queue_ok env) slots.
Proof.
  unfold plan_outcomes. rewrite forallb_app, map_outcomes_ok, queue_outcomes_ok.
  reflexivity.
Qed.

Lemma plan_outcomes_plan env : map fst (plan_outcomes env) = ring_plan.
Proof. reflexivity. Qed.

Lemma map_loop_walk env n :
  forall i fr,
    let x := for_loop n i (map_buffer env) fr in
    ring_ops (trace_of x) = up_to_failure (map_outcomes env (zrange i n))
    /\ forallb (fun e => negb (starts_streaming e)) (trace_of x) = true.
Proof.
  induction n as [|n IH]; intros i [s a]; cbv zeta.
  - cbn. auto.
  - cbn [for_loop zrange map_outcomes flat_map app up_to_failure].
    fold (map_outcomes env (zrange (i + 1) n)).
    rewrite bind_eq, map_buffer_run. cbv zeta.
    destruct (fst (env_querybuf env (request_buffer i)) <? 0); cbn [negb].
    { cbn. auto. }
    destruct (mapped env i =? MAP_FAILED); cbn [negb].
    { cbn. auto. }
    specialize (IH (i + 1)
                   (mem_store i (mapped env i)
                              (set_buf (snd (env_querybuf env (request_buffer i))) s), a)).
    cbv zeta in IH.
    destruct (for_loop n (i + 1) (map_buffer env) _) as [[o2 [s2 a2]] t2].
    cbn [result_of store_of trace_of fst snd] in *. destruct IH as [Hops Hoff].
    split; [|cbn; exact Hoff].
    unfold ring_ops in *. cbn [flat_map ring_op_of app buf_index request_buffer].
    rewrite Hops. reflexivity.
Qed.

Lemma queue_loop_walk env n :
  forall i fr,
    let x := for_loop n i (queue_buffer env) fr in
    ring_ops (trace_of x) = up_to_failure (queue_outcomes env (zrange i n))
    /\ forallb (fun e => negb (starts_streaming e)) (trace_of x) = true.
Proof.
  induction n as [|n IH]; intros i [s a]; cbv zeta.
  - cbn. auto.
  - cbn [for_loop zrange queue_outcomes map up_to_failure].
    fold (queue_outcomes env (zrange (i + 1) n)).
    rewrite bind_eq, queue_buffer_run. cbv zeta. unfold queue_ok at 1.
    destruct (fst (env_qbuf_init env (request_buffer i)) <? 0); cbn [negb].
    { cbn. auto. }
    specialize (IH (i + 1) (set_buf (snd (env_qbuf_init env (request_buffer i))) s, a)).
    cbv zeta in IH.
    destruct (for_loop n (i + 1) (queue_buffer env) _) as [[o2 [s2 a2]] t2].
    cbn [result_of store_of trace_of fst snd] in *. destruct IH as [Hops Hoff].
    split; [|cbn; exact Hoff].
    unfold ring_ops in *. cbn [flat_map ring_op_of app buf_index request_buffer].
    rewrite Hops. reflexivity.
Qed.

Lemma ring_walk_stops env :
  forallb (map_ok env) slots = false ->
  up_to_failure (plan_outcomes env) = up_to_failure (map_outcomes env slots).
Proof.
  intros H. unfold plan_outcomes. rewrite up_to_failure_app, map_outcomes_ok, H.
  reflexivity.
Qed.

Lemma ring_walk_goes_on env :
  forallb (map_ok env) slots = true ->
  up_to_failure (plan_outcomes env)
  = up_to_failure (map_outcomes env slots) ++ up_to_failure (queue_outcomes env slots).
Proof.
  intros H. unfold plan_outcomes. rewrite up_to_failure_app, map_outcomes_ok, H.
  rewrite (up_to_failure_all (map_outcomes env slots)); [reflexivity|].
  rewrite map_outcomes_ok. exact H.
Qed.

Ltac use_tests :=
  repeat match goal with
         | H : _ = true |- _ => rewrite H
         | H : _ = false |- _ => rewrite H
         end.

Ltac ring_of_trace :=
  unfold ring_ops;
  repeat (cbn [flat_map app ring_op_of]; rewrite ?flat_map_app);
  repeat match goal with
         | H : flat_map ring_op_of _ = _ |- _ => rewrite H
         end;
  rewrite ?app_nil_r.

Ltac not_streaming :=
  repeat (cbn [forallb app starts_streaming negb andb]; rewrite ?forallb_app);
  repeat match goal with
         | H : forallb (fun e => negb (starts_streaming e)) _ = true |- _ => rewrite H
         end;
  reflexivity.

(** [init] gives up before the buffer loops. *)
Ltac stops_before_ring :=
  tidy; split;
  [ ring_of_trace; unfold reaches_ring, format_request, buffers_request; use_tests;
    cbn [negb andb]; rewrite ?andb_false_r; reflexivity
  | intros _; not_streaming ].

(** [init] gives up after the buffer loops. *)
Ltac stops_after_ring Hmap Hqueue :=
  tidy; split;
  [ ring_of_trace; unfold reaches_ring, format_request, buffers_request; use_tests;
    cbn [negb andb]; rewrite (ring_walk_goes_on _ Hmap); reflexivity
  | unfold reaches_ring, format_request, buffers_request;
    rewrite plan_outcomes_ok; use_tests; cbn [negb andb]; discriminate ].

Lemma init_ring_run env s0 a :
  wp (init env) (s0, a)
     (fun o fr t =>
        ring_ops t
        = (if reaches_ring env a then up_to_failure (plan_outcomes env) else [])
        /\ (reaches_ring env a && forallb snd (plan_outcomes env) = false ->
            forallb (fun e => negb (starts_streaming e)) t = true)).
Proof.
  unfold init. wp_steps.
  do 5 wp_branch stops_before_ring.
  tidy. rewrite !Z.eqb_refl. cbn [negb orb].
  apply wp_when; intros Hdead; [discriminate|]. clear Hdead. wp_steps.
  wp_branch stops_before_ring.
  (* map buffers *)
  apply wp_bind, wp_run. intros o1 [s1 a1] t1 E1.
  match type of E1 with
  | for_loop _ _ _ ?fr = _ =>
      pose proof (map_loop_spec env (Z.to_nat NUMBUFS) 0 fr) as L1;
      pose proof (map_loop_walk env (Z.to_nat NUMBUFS) 0 fr) as W1
  end. cbv zeta in L1, W1.
  rewrite E1 in L1, W1. cbn [result_of store_of trace_of fst snd] in L1, W1.
  change (zrange 0 (Z.to_nat NUMBUFS)) with slots in L1, W1.
  destruct L1 as (R1 & _ & _). destruct W1 as [O1 F1]. unfold ring_ops in O1.
  destruct (forallb (map_ok env) slots) eqn:Hmap; subst o1; cbv beta iota delta [then_].
  2:{ tidy. split.
      - ring_of_trace. unfold reaches_ring, format_request, buffers_request.
        pose proof (ring_walk_stops env Hmap) as G. clear Hmap. use_tests.
        cbn [negb andb]. rewrite G. reflexivity.
      - intros _. not_streaming. }
  (* queue buffers *)
  apply wp_bind, wp_run. intros o2 [s2 a2] t2 E2.
  pose proof (queue_loop_spec env (Z.to_nat NUMBUFS) 0 (s1, a1)) as L2.
  pose proof (queue_loop_walk env (Z.to_nat NUMBUFS) 0 (s1, a1)) as W2.
  cbv zeta in L2, W2.
  rewrite E2 in L2, W2. cbn [result_of store_of trace_of fst snd] in L2, W2.
  change (zrange 0 (Z.to_nat NUMBUFS)) with slots in L2, W2.
  destruct L2 as (R2 & _ & _). destruct W2 as [O2 F2]. unfold ring_ops in O2.
  destruct (forallb (queue_ok env) slots) eqn:Hqueue; subst o2;
    cbv beta iota delta [then_].
  2:{ tidy. split.
      - ring_of_trace. unfold reaches_ring, format_request, buffers_request.
        pose proof (ring_walk_goes_on env Hmap) as G. clear Hmap Hqueue. use_tests.
        cbn [negb andb]. rewrite G. reflexivity.
      - intros _. not_streaming. }
  wp_steps.
  do 2 wp_branch ltac:(stops_after_ring Hmap Hqueue).
  apply wp_when; intros ?; wp_steps; stops_after_ring Hmap Hqueue.
Qed.

Lemma zrange_app i n m :
  zrange i (n + m) = zrange i n ++ zrange (i + Z.of_nat n) m.
Proof.
  revert i. induction n as [|n IH]; intro i.
  - cbn [Nat.add zrange app]. rewrite Z.add_0_r. reflexivity.
  - cbn [Nat.add zrange app]. rewrite IH. do 3 f_equal. lia.
Qed.

Lemma map_outcomes_plan env l :
  map fst (map_outcomes env l) = flat_map (fun i => [Query i; Map]) l.
Proof. induction l as [|i l IH]; [reflexivity|]. cbn. rewrite <- IH. reflexivity. Qed.

Lemma walk_stops_at_query env g :
  0 <= g < NUMBUFS ->
  forallb (map_ok env) (zrange 0 (Z.to_nat g)) = true ->
  fst (env_querybuf env (request_buffer g)) < 0 ->
  up_to_failure (plan_outcomes env)
  = flat_map (fun i => [Query i; Map]) (zrange 0 (Z.to_nat g)) ++ [Query g]
  /\ forallb snd (plan_outcomes env) = false.
Proof.
  intros Hg Hok Hfail.
  assert (slots = zrange 0 (Z.to_nat g) ++ g :: zrange (g + 1) (Z.to_nat (NUMBUFS - g - 1)))
    as Hslots.
  { rewrite slots_zrange.
    replace (Z.to_nat NUMBUFS) with (Z.to_nat g + S (Z.to_nat (NUMBUFS - g - 1)))%nat by lia.
    rewrite zrange_app. cbn [zrange]. rewrite Z2Nat.id by lia. reflexivity. }
  assert ((fst (env_querybuf env (request_buffer g)) <? 0) = true) as Hq
    by (apply Z.ltb_lt; exact Hfail).
  unfold plan_outcomes. rewrite Hslots at 1 3. unfold map_outcomes at 1 2.
  rewrite !flat_map_app. fold (map_outcomes env (zrange 0 (Z.to_nat g))).
  cbn [flat_map]. rewrite Hq. cbn [negb app]. rewrite <- !app_assoc. split.
  - rewrite up_to_failure_app, map_outcomes_ok, Hok, map_outcomes_plan. reflexivity.
  - rewrite forallb_app. cbn [app forallb snd andb]. apply andb_false_r.
Qed.

Lemma init_checks_split env a :
  init_checks env a
  = reaches_ring env a
    && (forallb (map_ok env) slots && forallb (queue_ok env) slots)
    && (negb (env_streamon env <? 0)
        && negb (env_sdl_init env <? 0)
        && negb (fst (fst (env_create_window_and_renderer
                             env (ar_width a) (ar_height a) (window_flags a))) <? 0)).
Proof. unfold init_checks, reaches_ring. rewrite !andb_assoc. reflexivity. Qed.

(** C2, as the program has it.  Whatever number of buffers the driver
    grants, the per-buffer calls of [init] are laid out over the constant
    [NUMBUFS]: slot 0 is queried and mapped, then slot 1, up to slot 15,
    then the slots 0 to 15 are queued.  Once [init] has come to the
    loops, its per-buffer calls are exactly the calls of this plan up to
    the first one that fails, that one included, and all of them when
    none fails; when one fails, [init] returns 0 and VIDIOC_STREAMON is
    not called.  [quit] unmaps each of the 16 slots, with the length
    that [s->buf] holds at that moment.  The granted count does not
    enter: with any other count in the answer to VIDIOC_REQBUFS the
    calls and the result are the same.  In particular, when the slots
    below [g] are queried and mapped and the query of the slot [g] is
    refused, [init] has queried and mapped the slots below [g], has
    queried the slot [g], returns 0 and has not started streaming. *)
Theorem ring_is_walked_over_NUMBUFS env s0 a s :
  let x := init env (s0, a) in
  let quiet t := forallb (fun e => negb (starts_streaming e)) t in
  ring_ops (trace_of x)
  = (if reaches_ring env a then up_to_failure (plan_outcomes env) else [])
  /\ map fst (plan_outcomes env) = ring_plan
  /\ (forallb snd (plan_outcomes env) = false ->
      result_of x = Return 0 /\ quiet (trace_of x) = true)
  /\ (result_of x = Return 1 -> ring_ops (trace_of x) = ring_plan)
  /\ ring_ops (trace_of (quit env s))
     = map (fun i => Unmap (st_mem s i) (buf_length (st_buf s))) slots
  /\ List.length slots = Z.to_nat NUMBUFS
  /\ (forall g,
         ring_ops (trace_of (init (with_grant g env) (s0, a))) = ring_ops (trace_of x)
         /\ result_of (init (with_grant g env) (s0, a)) = result_of x)
  /\ (forall g,
         0 <= g < NUMBUFS ->
         reaches_ring env a = true ->
         forallb (map_ok env) (zrange 0 (Z.to_nat g)) = true ->
         fst (env_querybuf env (request_buffer g)) < 0 ->
         ring_ops (trace_of x)
         = flat_map (fun i => [Query i; Map]) (zrange 0 (Z.to_nat g)) ++ [Query g]
         /\ result_of x = Return 0
         /\ quiet (trace_of x) = true).
Proof.
  cbv zeta.
  pose proof (init_ring_run env s0 a) as [Hops Hoff].
  pose proof (init_result env s0 a) as Hres.
  assert (init_checks env a = false -> result_of (init env (s0, a)) = Return 0) as Hzero.
  { intros E. rewrite Hres, E. reflexivity. }
  assert (forallb snd (plan_outcomes env) = false ->
          result_of (init env (s0, a)) = Return 0
          /\ forallb (fun e => negb (starts_streaming e)) (trace_of (init env (s0, a)))
             = true) as Hfail.
  { intros E. split.
    - apply Hzero. rewrite plan_outcomes_ok in E. rewrite init_checks_split, E.
      rewrite andb_false_r. reflexivity.
    - apply Hoff. rewrite E. apply andb_false_r. }
  split; [exact Hops|]. split; [reflexivity|]. split; [exact Hfail|].
  split; [|split; [|split; [|split]]].
  - intros E. rewrite Hops. rewrite Hres in E.
    destruct (init_checks env a) eqn:Hc; [|discriminate].
    rewrite init_checks_split in Hc.
    apply andb_prop in Hc as [Hc _]. apply andb_prop in Hc as [Hreach Hring].
    rewrite Hreach, up_to_failure_all; [reflexivity|].
    rewrite plan_outcomes_ok. exact Hring.
  - rewrite quit_spec. apply quit_ring_ops.
  - reflexivity.
  - intros g. pose proof (init_ring_run (with_grant g env) s0 a) as [Hops' _].
    split; [rewrite Hops', Hops; reflexivity|].
    rewrite Hres, (init_result (with_grant g env) s0 a). reflexivity.
  - intros g Hg Hreach Hok Hq.
    destruct (walk_stops_at_query env g Hg Hok Hq) as [Hwalk Hnot].
    rewrite Hops, Hreach, Hwalk. split; [reflexivity|]. exact (Hfail Hnot).
Qed.

(** The last part of C2 at a driver that grants 8 buffers and knows no
    others. *)
Lemma ring_is_walked_over_NUMBUFS_witness :
  let env := Sample.device eight_buffers in
  let x := init env (Sample.blank_state, default_args) in
  rb_count (snd (env_reqbufs env buffers_request)) = 8
  /\ ring_ops (trace_of x)
     = flat_map (fun i => [Query i; Map]) (zrange 0 8) ++ [Query 8]
  /\ result_of x = Return 0
  /\ forallb (fun e => negb (starts_streaming e)) (trace_of x) = true.
Proof.
  cbv zeta. split; [reflexivity|].
  refine (proj2 (proj2 (proj2 (proj2 (proj2 (proj2 (proj2
            (ring_is_walked_over_NUMBUFS (Sample.device eight_buffers)
               Sample.blank_state default_args Sample.blank_state)))))))
            8 _ _ _ _).
  - unfold NUMBUFS. lia.
  - reflexivity.
  - reflexivity.
  - vm_compute. reflexivity.
Defined.

(** ** The copy of a frame and the buffers of the driver (C3) *)

Lemma not_queued_once_handed_out i queued : is_queued i (handed_out i queued) = false.
Proof.
  unfold is_queued, handed_out. induction queued as [|j queued IH]; [reflexivity|].
  cbn [filter]. destruct (Z.eqb_spec j i) as [->|Hji]; cbn [negb]; [exact IH|].
  cbn [existsb]. rewrite IH. destruct (Z.eqb_spec i j); [congruence | reflexivity].
Qed.

(** A turn of [render] whose dequeue succeeds and whose texture has two
    bytes per pixel, as the monitor sees it. *)
Lemma render_under_monitor env n s queued :
  let out := snd (env_dqbuf env n dequeue_request) in
  let i := buf_index out in
  0 <= fst (env_dqbuf env n dequeue_request) ->
  0 <= i < NUMBUFS ->
  Int.div (env_lock_texture env n) (st_width s) = Some 2 ->
  is_queued i queued = true ->
  ring_run env queued (trace_of (render env n s))
  = if reads_queued env (handed_out i queued) (st_mem s i) (copy_size s) then None
    else if fst (env_qbuf env n out) <? 0 then Some (handed_out i queued)
         else Some (i :: handed_out i queued).
Proof.
  cbv zeta. intros Hdq Hi Hdiv Hq.
  assert ((fst (env_dqbuf env n dequeue_request) <? 0) = false) as Hok
    by (apply Z.ltb_ge; exact Hdq).
  assert ((0 <=? buf_index (snd (env_dqbuf env n dequeue_request))) = true) as Hlo
    by (apply Z.leb_le; lia).
  assert ((buf_index (snd (env_dqbuf env n dequeue_request)) <? NUMBUFS) = true) as Hhi
    by (apply Z.ltb_lt; lia).
  unfold render. step. cbn [st_buf set_buf st_fd st_texture st_width].
  rewrite Hok. step. cbn [st_buf set_buf st_fd st_texture st_width].
  rewrite Hdiv. step. cbn [st_buf set_buf st_fd st_texture st_width].
  change (negb (Int.to_size 2 =? sizeof_Uint16)) with false. step.
  unfold mem_at, copy_size.
  cbn [st_buf set_buf st_fd st_texture st_width st_height st_mem].
  rewrite Hlo, Hhi. cbn [andb].
  fold (copy_size s).
  destruct (fst (env_qbuf env n (snd (env_dqbuf env n dequeue_request))) <? 0) eqn:Hrq;
    step; cbn [ring_run ring_step app]; rewrite Hok, Hq;
    destruct (reads_queued env _ _ _); try reflexivity;
    cbn [ring_run ring_step]; rewrite Hrq; try reflexivity;
    rewrite not_queued_once_handed_out; reflexivity.
Qed.

(** C3.  The copy of a frame reads [s->width * s->height * 2] bytes from
    the start of the buffer that was dequeued, whatever the length of
    this buffer.  In a turn of [render] that dequeues the buffer [i] and
    copies, the monitor of the ring refuses the turn exactly when the
    bytes that are read touch the mapping of a buffer that is still with
    the driver; otherwise [i] goes back to the driver by the requeueing
    call, when that call succeeds.  The run of C1 is refused: the driver
    settles on 1280x720 and maps 16 buffers of 1843200 bytes back to
    back, the program copies 4147200 bytes from the start of the buffer
    0 while the buffers 1 to 15 are with the driver, and the read runs
    over the buffers 1 and 2.  The program notices nothing and ends with
    EXIT_SUCCESS.  The run of a camera that grants the size it is asked
    for is accepted. *)
Theorem frame_copy_reads_queued_buffers :
  (forall env n s queued,
      let out := snd (env_dqbuf env n dequeue_request) in
      let i := buf_index out in
      0 <= fst (env_dqbuf env n dequeue_request) ->
      0 <= i < NUMBUFS ->
      Int.div (env_lock_texture env n) (st_width s) = Some 2 ->
      is_queued i queued = true ->
      ring_run env queued (trace_of (render env n s))
      = if reads_queued env (handed_out i queued) (st_mem s i) (copy_size s) then None
        else if fst (env_qbuf env n out) <? 0 then Some (handed_out i queued)
             else Some (i :: handed_out i queued))
  /\ (let env := Sample.device downscaler in
      let run := Sample.run_main downscaler 2 wide_request in
      let t := snd run in
      fst (fst run) = Exited EXIT_SUCCESS
      /\ extent env 0 = (Sample.base, 1843200)
      /\ extent env 1 = (Sample.base + 1843200, 1843200)
      /\ extent env 2 = (Sample.base + 2 * 1843200, 1843200)
      /\ nth_error t (first_copy t) = Some (Ememcpy 0 (Some Sample.base) 4147200)
      /\ ring_run env [] (firstn (first_copy t) t)
         = Some [15; 14; 13; 12; 11; 10; 9; 8; 7; 6; 5; 4; 3; 2; 1]
      /\ reads_queued env [1] Sample.base 4147200 = true
      /\ reads_queued env [2] Sample.base 4147200 = true
      /\ ring_run env [] t = None)
  /\ (let run := Sample.run_main Sample.webcam 4 ["camera"] in
      fst (fst run) = Exited EXIT_SUCCESS
      /\ In (Ememcpy 0 (Some Sample.base) 960000) (snd run)
      /\ extent (Sample.device Sample.webcam) 0 = (Sample.base, 960000)
      /\ ring_run (Sample.device Sample.webcam) [] (snd run)
         = Some [2; 1; 0; 15; 14; 13; 12; 11; 10; 9; 8; 7; 6; 5; 4; 3]).
Proof.
  split; [exact render_under_monitor|]. split.
  - cbv zeta. split; [by_run|]. split; [by_run|]. split; [by_run|]. split; [by_run|].
    split; [by_run|]. split; [by_run|]. split; [by_run|]. split; by_run.
  - cbv zeta. split; [by_run|]. split; [seen|]. split; by_run.
Qed.

(** The first turn of the run of C1, from the state that [init] leaves
    and with the 16 buffers queued. *)
Lemma frame_copy_reads_queued_buffers_witness :
  let env := Sample.device downscaler in
  let s := fst (store_of (init env (Sample.blank_state, mk_args None 1920 1080 0))) in
  (0 <= fst (env_dqbuf env 0 dequeue_request)
   /\ 0 <= buf_index (snd (env_dqbuf env 0 dequeue_request)) < NUMBUFS
   /\ Int.div (env_lock_texture env 0) (st_width s) = Some 2
   /\ is_queued (buf_index (snd (env_dqbuf env 0 dequeue_request))) slots = true)
  /\ ring_run env slots (trace_of (render env 0 s)) = None.
Proof.
  cbv zeta.
  assert (0 <= fst (env_dqbuf (Sample.device downscaler) 0 dequeue_request)) as H1
    by (vm_compute; discriminate).
  assert (0 <= buf_index (snd (env_dqbuf (Sample.device downscaler) 0 dequeue_request))
          < NUMBUFS) as H2
    by (vm_compute; split; [discriminate | reflexivity]).
  assert (Int.div (env_lock_texture (Sample.device downscaler) 0)
                  (st_width (fst (store_of (init (Sample.device downscaler)
                                                 (Sample.blank_state,
                                                  mk_args None 1920 1080 0)))))
          = Some 2) as H3 by (vm_compute; reflexivity).
  assert (is_queued (buf_index (snd (env_dqbuf (Sample.device downscaler) 0
                                               dequeue_request))) slots = true) as H4
    by (vm_compute; reflexivity).
  split; [auto|].
  rewrite (proj1 frame_copy_reads_queued_buffers (Sample.device downscaler) 0%nat
                 _ slots H1 H2 H3 H4).
  vm_compute. reflexivity.
Defined.
